(** * Training-log explorer: the analytics core

    A shallow embedding of the computations performed by the dashboard
    components [MetricsSummary], [IncomeBands] and [LocalAreas] of the
    training-log explorer (epoch selection, metric-identifier parsing,
    quality classification, band aggregation and per-area aggregation),
    followed by the properties the specification states about them.

    Conventions of the embedding.
    - A JavaScript string is the list of its UTF-16 code units.
    - A JavaScript number is a binary64 value.  Every finite binary64 value
      is an integer multiple of 2^-1074, so a finite number is represented
      by that integer; arithmetic rounds to nearest, ties to even, as IEEE
      754 prescribes.  The two zeros are identified: no operation used by
      the components distinguishes them (the only divisors that can be
      zero are array lengths, which are +0).
    - Array lengths and indices are natural numbers; the epoch column holds
      integer-valued numbers ([parseInt(..) || 0] at ingestion), modelled
      as [Z].
    - A function that may raise is given a result type with an explicit
      [Throw] outcome. *)

From Stdlib Require Import Ascii String.
From Stdlib Require Import ZArith NArith List Bool Lia.
From Stdlib Require Import Sorted Permutation.
Import ListNotations.

Set Implicit Arguments.

(* ================================================================= *)
(** ** JavaScript strings *)

Module JsString.

(** A UTF-16 code unit. *)
Definition char := N.
Definition jsstring := list char.

(** A source-code string literal (ASCII only) as a list of code units. *)
Definition lit (s : string) : jsstring :=
  List.map N_of_ascii (list_ascii_of_string s).

Definition ch (a : ascii) : char := N_of_ascii a.

Fixpoint eqb (a b : jsstring) : bool :=
  match a, b with
  | [], [] => true
  | x :: a', y :: b' => N.eqb x y && eqb a' b'
  | _, _ => false
  end.

(** Code-unit order, the order of [Array.prototype.sort] without a
    comparator on strings: [gtb a b] is [a > b]. *)
Fixpoint gtb (a b : jsstring) : bool :=
  match a, b with
  | [], _ => false
  | _ :: _, [] => true
  | x :: a', y :: b' =>
      if N.ltb y x then true
      else if N.ltb x y then false
      else gtb a' b'
  end.

(** [String.prototype.startsWith]: [startsWith p s] is [s.startsWith(p)]. *)
Fixpoint startsWith (p s : jsstring) : bool :=
  match p, s with
  | [], _ => true
  | _ :: _, [] => false
  | x :: p', y :: s' => N.eqb x y && startsWith p' s'
  end.

(** [String.prototype.includes]: [includes p s] is [s.includes(p)]. *)
Fixpoint includes (p s : jsstring) : bool :=
  startsWith p s ||
  match s with
  | [] => false
  | _ :: s' => includes p s'
  end.

Definition endsWith (p s : jsstring) : bool :=
  startsWith (rev p) (rev s).

(** The input left after a literal prefix, if the prefix is there. *)
Fixpoint stripPrefix (p s : jsstring) : option jsstring :=
  match p, s with
  | [], _ => Some s
  | _ :: _, [] => None
  | x :: p', y :: s' => if N.eqb x y then stripPrefix p' s' else None
  end.

(** Longest prefix whose code units satisfy [f], and the rest. *)
Fixpoint span (f : char -> bool) (s : jsstring) : jsstring * jsstring :=
  match s with
  | [] => ([], [])
  | c :: s' =>
      if f c then let (a, b) := span f s' in (c :: a, b)
      else ([], s)
  end.

(** [s.split(sep)] for a non-empty separator: the pieces between the
    successive non-overlapping occurrences of [sep], left to right.
    [cur] is the piece being read (reversed), [skip] the number of code
    units of a separator occurrence still to be passed over. *)
Fixpoint split_go (sep cur s : jsstring) (skip : nat) : list jsstring :=
  match s with
  | [] => [rev cur]
  | c :: s' =>
      match skip with
      | S k => split_go sep cur s' k
      | O =>
          if startsWith sep s
          then rev cur :: split_go sep [] s' (Nat.pred (length sep))
          else split_go sep (c :: cur) s' 0
      end
  end.

Definition split (sep s : jsstring) : list jsstring :=
  split_go sep [] s 0.

(** [s.replace(/_/g, '')]. *)
Definition removeUnderscores (s : jsstring) : jsstring :=
  filter (fun c => negb (N.eqb c (ch "_"))) s.

Definition isDigit (c : char) : bool :=
  (N.leb 48 c && N.leb c 57)%N.

(** The code units the regular-expression atom [.] does not match. *)
Definition isLineTerminator (c : char) : bool :=
  (N.eqb c 10 || N.eqb c 13 || N.eqb c 8232 || N.eqb c 8233)%N.

(** WhiteSpace and LineTerminator code points, stripped by [parseFloat]
    and [parseInt] before they read a number. *)
Definition isWhiteSpace (c : char) : bool :=
  (N.eqb c 9 || N.eqb c 10 || N.eqb c 11 || N.eqb c 12 || N.eqb c 13
   || N.eqb c 32 || N.eqb c 160 || N.eqb c 5760
   || (N.leb 8192 c && N.leb c 8202)
   || N.eqb c 8232 || N.eqb c 8233 || N.eqb c 8239 || N.eqb c 8287
   || N.eqb c 12288 || N.eqb c 65279)%N.

Fixpoint trimStart (s : jsstring) : jsstring :=
  match s with
  | [] => []
  | c :: s' => if isWhiteSpace c then trimStart s' else s
  end.

End JsString.

(* ================================================================= *)
(** ** JavaScript numbers *)

Module JsNumber.
Import JsString.
Local Open Scope Z_scope.

(** [Fin k] is the finite value [k * 2^-1074]. *)
Inductive number : Type :=
| NaN
| PInf
| NInf
| Fin (k : Z).

(** The grid representation of 1.0. *)
Definition one_ulps : Z := 2 ^ 1074.

(** First grid value beyond the finite range: 2^1024 in grid units. *)
Definition overflow_ulps : Z := 2 ^ 2098.

(** Nearest integer to [a / b], ties to even, for [0 <= a], [0 < b]. *)
Definition rne_div (a b : Z) : Z :=
  let q := a / b in
  let r := a mod b in
  if 2 * r <? b then q
  else if b <? 2 * r then q + 1
  else if Z.even q then q else q + 1.

(** The binary64 nearest to [a / b] grid units ([0 < a], [0 < b]):
    53 significant bits, or the grid itself in the subnormal range;
    [None] on overflow. *)
Definition round_mag (a b : Z) : option Z :=
  let q0 := a / b in
  let e := if q0 <? 2 ^ 53 then 0 else Z.log2 q0 - 52 in
  let m := rne_div a (b * 2 ^ e) in
  let k := m * 2 ^ e in
  if k <? overflow_ulps then Some k else None.

(** Rounding of the exact value [n / d] grid units, [0 < d]. *)
Definition round_ratio (n d : Z) : number :=
  if n =? 0 then Fin 0
  else if 0 <? n then
    match round_mag n d with Some k => Fin k | None => PInf end
  else
    match round_mag (- n) d with Some k => Fin (- k) | None => NInf end.

(** The number denoted by the exact rational [n / d], [0 < d]. *)
Definition of_ratio (n d : Z) : number := round_ratio (n * one_ulps) d.
Definition of_Z (n : Z) : number := of_ratio n 1.
Definition of_nat (n : nat) : number := of_Z (Z.of_nat n).

Definition zero : number := Fin 0.

Definition neg (a : number) : number :=
  match a with
  | NaN => NaN
  | PInf => NInf
  | NInf => PInf
  | Fin k => Fin (- k)
  end.

Definition add (a b : number) : number :=
  match a, b with
  | NaN, _ | _, NaN => NaN
  | PInf, NInf | NInf, PInf => NaN
  | PInf, _ | _, PInf => PInf
  | NInf, _ | _, NInf => NInf
  | Fin x, Fin y => round_ratio (x + y) 1
  end.

Definition sub (a b : number) : number := add a (neg b).

(** Division; a zero divisor is +0. *)
Definition div (a b : number) : number :=
  match a, b with
  | NaN, _ | _, NaN => NaN
  | PInf, PInf | PInf, NInf | NInf, PInf | NInf, NInf => NaN
  | PInf, Fin y => if y <? 0 then NInf else PInf
  | NInf, Fin y => if y <? 0 then PInf else NInf
  | Fin _, PInf | Fin _, NInf => Fin 0
  | Fin x, Fin y =>
      if y =? 0 then
        if x =? 0 then NaN else if 0 <? x then PInf else NInf
      else if 0 <? y then round_ratio (x * one_ulps) y
      else round_ratio (- x * one_ulps) (- y)
  end.

Definition mul (a b : number) : number :=
  match a, b with
  | NaN, _ | _, NaN => NaN
  | Fin x, Fin y => round_ratio (x * y) one_ulps
  | Fin x, PInf | PInf, Fin x =>
      if x =? 0 then NaN else if 0 <? x then PInf else NInf
  | Fin x, NInf | NInf, Fin x =>
      if x =? 0 then NaN else if 0 <? x then NInf else PInf
  | PInf, PInf | NInf, NInf => PInf
  | PInf, NInf | NInf, PInf => NInf
  end.

(** [Math.abs]. *)
Definition abs (a : number) : number :=
  match a with
  | NaN => NaN
  | PInf | NInf => PInf
  | Fin k => Fin (Z.abs k)
  end.

(** The relational operators; every comparison with [NaN] is false. *)
Definition ltb (a b : number) : bool :=
  match a, b with
  | NaN, _ | _, NaN => false
  | _, NInf => false
  | NInf, _ => true
  | PInf, _ => false
  | Fin _, PInf => true
  | Fin x, Fin y => x <? y
  end.

Definition gtb (a b : number) : bool := ltb b a.

Definition leb (a b : number) : bool :=
  match a, b with
  | NaN, _ | _, NaN => false
  | NInf, _ => true
  | _, PInf => true
  | _, NInf => false
  | PInf, _ => false
  | Fin x, Fin y => x <=? y
  end.

Definition geb (a b : number) : bool := leb b a.

(** Strict equality [===] on numbers. *)
Definition eqb (a b : number) : bool :=
  match a, b with
  | PInf, PInf | NInf, NInf => true
  | Fin x, Fin y => x =? y
  | _, _ => false
  end.

(** ToBoolean: [NaN] and zero are falsy. *)
Definition truthy (a : number) : bool :=
  match a with
  | NaN => false
  | Fin k => negb (k =? 0)
  | _ => true
  end.

(** [a || b] on numbers. *)
Definition or_else (a b : number) : number :=
  if truthy a then a else b.

Definition isFinite (a : number) : bool :=
  match a with Fin _ => true | _ => false end.

Definition isNaN (a : number) : bool :=
  match a with NaN => true | _ => false end.

(** *** Reading numbers from strings *)

Definition digitVal (c : char) : Z := Z.of_N c - 48.

Definition digitsValue (ds : jsstring) : Z :=
  fold_left (fun acc c => acc * 10 + digitVal c) ds 0.

(** A leading sign: the factor and the rest of the input. *)
Definition readSign (s : jsstring) : Z * jsstring :=
  match s with
  | c :: s' =>
      if N.eqb c (ch "-") then (-1, s')
      else if N.eqb c (ch "+") then (1, s')
      else (1, s)
  | [] => (1, s)
  end.

(** ExponentPart, when one stands complete at the head of the input
    (otherwise the literal ends before it and the exponent is 0). *)
Definition readExponent (s : jsstring) : Z :=
  match s with
  | c :: s1 =>
      if N.eqb c (ch "e") || N.eqb c (ch "E") then
        let (sg, s2) := readSign s1 in
        let (ds, _) := span isDigit s2 in
        match ds with
        | [] => 0
        | _ :: _ => sg * digitsValue ds
        end
      else 0
  | [] => 0
  end.

(** The value [m * 10^x], rounded. *)
Definition decimalValue (m x : Z) : number :=
  if 0 <=? x then of_ratio (m * 10 ^ x) 1
  else of_ratio m (10 ^ (- x)).

(** StrUnsignedDecimalLiteral: the longest prefix of the input that is
    one, read as a number; [NaN] when there is none. *)
Definition readUnsigned (sg : Z) (s : jsstring) : number :=
  if startsWith (lit "Infinity") s then (if sg <? 0 then NInf else PInf)
  else
    let (ip, r1) := span isDigit s in
    let (fp, r2) :=
      match r1 with
      | c :: r =>
          if N.eqb c (ch ".") then span isDigit r else ([], r1)
      | [] => ([], r1)
      end in
    match ip, fp with
    | [], [] => NaN
    | _, _ =>
        let x := readExponent r2 in
        decimalValue (sg * digitsValue (ip ++ fp))
                     (x - Z.of_nat (length fp))
    end.

(** [parseFloat(s)]. *)
Definition parseFloat (s : jsstring) : number :=
  let (sg, r) := readSign (trimStart s) in
  readUnsigned sg r.

Definition hexVal (c : char) : option Z :=
  if isDigit c then Some (Z.of_N c - 48)
  else if (N.leb 97 c && N.leb c 102)%N then Some (Z.of_N c - 87)
  else if (N.leb 65 c && N.leb c 70)%N then Some (Z.of_N c - 55)
  else None.

Definition isHexDigit (c : char) : bool :=
  match hexVal c with Some _ => true | None => false end.

Definition hexValue (ds : jsstring) : Z :=
  fold_left (fun acc c =>
               acc * 16 + match hexVal c with Some v => v | None => 0 end)
            ds 0.

(** [parseInt(s)] with no radix argument: radix 16 after a [0x] or [0X]
    prefix, radix 10 otherwise. *)
Definition parseInt (s : jsstring) : number :=
  let (sg, r) := readSign (trimStart s) in
  if startsWith (lit "0x") r || startsWith (lit "0X") r then
    let (ds, _) := span isHexDigit (skipn 2 r) in
    match ds with
    | [] => NaN
    | _ :: _ => of_Z (sg * hexValue ds)
    end
  else
    let (ds, _) := span isDigit r in
    match ds with
    | [] => NaN
    | _ :: _ => of_Z (sg * digitsValue ds)
    end.

(** The numeric literals [0.05], [0.20] and [55] of the components. *)
Definition lit_0_05 : number := Fin (3602879701896397 * 2 ^ 1018).
Definition lit_0_20 : number := Fin (3602879701896397 * 2 ^ 1020).
Definition lit_55 : number := Fin (55 * 2 ^ 1074).

End JsNumber.

(* ================================================================= *)
(** ** Arrays *)

Module JsArray.

Section Generic.
Variable A : Type.

(** [Array.from(new Set(l))]: the distinct elements in the order of
    their first occurrence; [same] is the SameValueZero test. *)
Fixpoint uniq (same : A -> A -> bool) (l : list A) : list A :=
  match l with
  | [] => []
  | x :: l' => x :: filter (fun y => negb (same x y)) (uniq same l')
  end.

(** [Array.prototype.sort] with a comparator, as a stable insertion
    sort; [gt x y] says that the comparator is positive on [(x, y)]
    (a [NaN] comparator result counts as 0).  Whenever the comparator
    is a consistent one every stable sort returns this same array. *)
Fixpoint insert (gt : A -> A -> bool) (x : A) (l : list A) : list A :=
  match l with
  | [] => [x]
  | y :: l' => if gt x y then y :: insert gt x l' else x :: l
  end.

Fixpoint sort (gt : A -> A -> bool) (l : list A) : list A :=
  match l with
  | [] => []
  | x :: l' => insert gt x (sort gt l')
  end.

(** [l.filter((x, index) => f x index)], reading from index [i]. *)
Fixpoint filter_index (f : A -> nat -> bool) (i : nat) (l : list A)
  : list A :=
  match l with
  | [] => []
  | x :: l' =>
      if f x i then x :: filter_index f (S i) l'
      else filter_index f (S i) l'
  end.

(** [l.find(f)]. *)
Definition find_first (f : A -> bool) (l : list A) : option A :=
  List.find f l.

(** [l.slice(0, n)] and [l.slice(-n)]. *)
Definition slice_first (n : nat) (l : list A) : list A := firstn n l.
Definition slice_last (n : nat) (l : list A) : list A :=
  skipn (length l - n) l.
End Generic.

End JsArray.

Import JsString JsNumber JsArray.

(* ================================================================= *)
(** ** The input table *)

(** One row of the training log ([TrainingLogData]). *)
Record TrainingLogData : Type := mkRow {
  index : jsstring;
  name : jsstring;
  metric : jsstring;
  estimate : number;
  target : number;
  error : number;
  abs_error : number;
  rel_abs_error : number;
  validation : bool;
  epoch : Z
}.

(* ================================================================= *)
(** ** Epoch selection

    Every component opens with the same five statements; they are
    embedded once. *)

Module EpochSelector.
Local Open Scope Z_scope.

Definition maxEpoch (data : list TrainingLogData) : Z :=
  fold_left (fun max item => Z.max max (epoch item)) data 0.

Definition allEpochs (data : list TrainingLogData) : list Z :=
  sort (fun a b => 0 <? a - b) (uniq Z.eqb (List.map epoch data)).

Definition epochStep (data : list TrainingLogData) : nat :=
  Nat.max 1 (length (allEpochs data) / 100).

Definition selectedEpochs (data : list TrainingLogData) : list Z :=
  let all := allEpochs data in
  filter_index
    (fun _ index =>
       Nat.eqb (index mod epochStep data) 0 ||
       match nth_error all index with
       | Some e => e =? maxEpoch data
       | None => false
       end)
    0%nat all.

Definition filteredData (data : list TrainingLogData)
  : list TrainingLogData :=
  filter (fun item => existsb (Z.eqb (epoch item)) (selectedEpochs data))
         data.

Definition latestData (data : list TrainingLogData)
  : list TrainingLogData :=
  filter (fun item => epoch item =? maxEpoch data) (filteredData data).

End EpochSelector.

(* ================================================================= *)
(** ** Quality tiers

    The three predicates by which [MetricsSummary] and [IncomeBands]
    count the rows of each tier. *)

Module Quality.

Inductive QualityTier : Type := Excellent | Good | Poor.

Definition isExcellent (rel_abs_error : number) : bool :=
  ltb rel_abs_error lit_0_05.

Definition isGood (rel_abs_error : number) : bool :=
  geb rel_abs_error lit_0_05 && ltb rel_abs_error lit_0_20.

Definition isPoor (rel_abs_error : number) : bool :=
  geb rel_abs_error lit_0_20.

(** The tiers whose count a value is added to. *)
Definition tiersOf (rel_abs_error : number) : list QualityTier :=
  (if isExcellent rel_abs_error then [Excellent] else []) ++
  (if isGood rel_abs_error then [Good] else []) ++
  (if isPoor rel_abs_error then [Poor] else []).

End Quality.

(* ================================================================= *)
(** ** MetricsSummary *)

Module MetricsSummary.
Import EpochSelector Quality.

(** The figures the component renders ([qualityScore] before its
    one-decimal formatting). *)
Record Summary : Type := mkSummary {
  totalEntries : nat;
  avgRelAbsError : number;
  uniqueMetrics : nat;
  uniqueEpochs : nat;
  excellentCount : nat;
  goodCount : nat;
  poorCount : nat;
  qualityScore : number
}.

(** [None] is the early return on an empty table. *)
Definition summary (data : list TrainingLogData) : option Summary :=
  match data with
  | [] => None
  | _ :: _ =>
      let latest := latestData data in
      let totalEntries := length latest in
      let excellentCount :=
        length (filter (fun item => isExcellent (rel_abs_error item))
                       latest) in
      let goodCount :=
        length (filter (fun item => isGood (rel_abs_error item)) latest) in
      let poorCount :=
        length (filter (fun item => isPoor (rel_abs_error item)) latest) in
      Some {|
        totalEntries := totalEntries;
        avgRelAbsError :=
          div (fold_left (fun sum item => add sum (rel_abs_error item))
                         latest zero)
              (of_nat totalEntries);
        uniqueMetrics :=
          length (uniq JsString.eqb (List.map metric (filteredData data)));
        uniqueEpochs := length (selectedEpochs data);
        excellentCount := excellentCount;
        goodCount := goodCount;
        poorCount := poorCount;
        qualityScore :=
          div (add (mul (of_nat excellentCount) (of_Z 100))
                   (mul (of_nat goodCount) (of_Z 75)))
              (of_nat totalEntries)
      |}
  end.

End MetricsSummary.

(* ================================================================= *)
(** ** Outcomes of a call that may raise *)

Inductive exn : Type := TypeError.

Inductive completion (A : Type) : Type :=
| Normal (a : A)
| Throw (e : exn).

Arguments Normal {A} a.
Arguments Throw {A} e.

Definition bind {A B : Type} (c : completion A) (k : A -> completion B)
  : completion B :=
  match c with
  | Normal a => k a
  | Throw e => Throw e
  end.

Notation "x <- c ;; k" := (bind c (fun x => k))
  (at level 61, c at next level, right associativity).

(* ================================================================= *)
(** ** IncomeBands *)

Module IncomeBands.
Import EpochSelector.

Record IncomeBand : Type := mkBand {
  bandNumber : number;
  range : jsstring;
  lowerBound : number;
  upperBound : option number  (* [None] is [null] *)
}.
(* The remaining field, [displayRange], is the locale-dependent rendering
   of the two bounds by [toLocaleString]; no aggregate reads it. *)

Module Point.
Record IncomeBandData : Type := mk {
  band : IncomeBand;
  estimate : number;
  target : number;
  error : number;
  rel_abs_error : number
}.
End Point.

Inductive MetricType : Type := amount | count.

(** *** The two regular expressions *)

(** [/^(.+?)_(?:count_)?income_band_/]: what follows the lazy group. *)
Definition markerHere (s : jsstring) : bool :=
  startsWith (lit "_count_income_band_") s ||
  startsWith (lit "_income_band_") s.

(** The lazy group [(.+?)] holds [rev acc] and is lengthened one code
    unit at a time until the marker follows it; [.] stops at a line
    terminator. *)
Fixpoint sourceScan (acc s : jsstring) : option jsstring :=
  if markerHere s then Some (rev acc)
  else
    match s with
    | [] => None
    | c :: s' =>
        if isLineTerminator c then None else sourceScan (c :: acc) s'
    end.

(** [metricPart.match(/^(.+?)_(?:count_)?income_band_/)]: capture 1. *)
Definition sourceMatch (metricPart : jsstring) : option jsstring :=
  match metricPart with
  | [] => None
  | c :: s' => if isLineTerminator c then None else sourceScan [c] s'
  end.

(** [/income_band_(\d+)_(.+)/] tried at the head of [s]: captures 1 and
    2.  [\d+] takes the whole run of digits (a shorter run would be
    followed by a digit, not by [_]) and [(.+)] everything up to the
    next line terminator. *)
Definition bandMatchHere (s : jsstring) : option (jsstring * jsstring) :=
  match stripPrefix (lit "income_band_") s with
  | None => None
  | Some r =>
      match span isDigit r with
      | ((_ :: _) as ds, c :: r2) =>
          if N.eqb c (ch "_") then
            match span (fun c => negb (isLineTerminator c)) r2 with
            | ((_ :: _) as body, _) => Some (ds, body)
            | _ => None
            end
          else None
      | _ => None
      end
  end.

(** [bandString.match(/income_band_(\d+)_(.+)/)]: the leftmost match. *)
Fixpoint bandMatch (s : jsstring) : option (jsstring * jsstring) :=
  match bandMatchHere s with
  | Some m => Some m
  | None =>
      match s with
      | [] => None
      | _ :: s' => bandMatch s'
      end
  end.

(** *** Income sources *)

(** The source a row contributes to [incomeSourcesSet], if any. *)
Definition sourceOfMetric (metric : jsstring) : option jsstring :=
  if includes (lit "income_band_") metric then
    let parts := split (lit "/") metric in
    if Nat.leb 2 (length parts) then
      match nth_error parts 1 with
      | Some metricPart => sourceMatch metricPart
      | None => None
      end
    else None
  else None.

Definition incomeSources (data : list TrainingLogData) : list jsstring :=
  sort JsString.gtb
    (uniq JsString.eqb
       (flat_map (fun item =>
                    match sourceOfMetric (metric item) with
                    | Some s => [s]
                    | None => []
                    end)
                 (latestData data))).

(** *** Band parsing *)

(** Reading a property of [undefined] raises. *)
Definition deref (s : option jsstring) : completion jsstring :=
  match s with
  | Some v => Normal v
  | None => Throw TypeError
  end.

(** [s === l] for a possibly [undefined] string [s]. *)
Definition strictEq (s : option jsstring) (l : jsstring) : bool :=
  match s with
  | Some v => JsString.eqb v l
  | None => false
  end.

Definition parseBand (bandString : jsstring)
  : completion (option IncomeBand) :=
  match bandMatch bandString with
  | None => Normal None
  | Some (m1, m2) =>
      let bandNumber := parseInt m1 in
      let range := m2 in
      let parts := split (lit "_to_") range in
      let lowerStr := nth_error parts 0 in
      let upperStr := nth_error parts 1 in
      l <- deref lowerStr ;;
      let lowerBound := parseFloat (removeUnderscores l) in
      upperBound <-
        (if strictEq upperStr (lit "inf") then Normal None
         else u <- deref upperStr ;;
              Normal (Some (parseFloat (removeUnderscores u)))) ;;
      Normal (Some {| bandNumber := bandNumber;
                      range := range;
                      lowerBound := lowerBound;
                      upperBound := upperBound |})
  end.

(** *** Band aggregation *)

Definition metricPrefix (selectedSource : jsstring) (metricType : MetricType)
  : jsstring :=
  match metricType with
  | amount => lit "hmrc/" ++ selectedSource ++ lit "_income_band_"
  | count => lit "hmrc/" ++ selectedSource ++ lit "_count_income_band_"
  end.

(** One turn of the [forEach] that fills [bands]. *)
Definition pushBand (bands : list Point.IncomeBandData)
           (item : TrainingLogData)
  : completion (list Point.IncomeBandData) :=
  b <- parseBand (metric item) ;;
  match b with
  | Some band =>
      if negb (JsNumber.eqb (bandNumber band) lit_55) then
        Normal (bands ++ [ {| Point.band := band;
                              Point.estimate := estimate item;
                              Point.target := target item;
                              Point.error := error item;
                              Point.rel_abs_error := rel_abs_error item |} ])
      else Normal bands
  | None => Normal bands
  end.

Fixpoint forEachBand (bands : list Point.IncomeBandData)
         (items : list TrainingLogData)
  : completion (list Point.IncomeBandData) :=
  match items with
  | [] => Normal bands
  | item :: rest =>
      bands' <- pushBand bands item ;;
      forEachBand bands' rest
  end.

(** [bandsData], from the rows of the latest epoch. *)
Definition bandsData (latest : list TrainingLogData)
           (selectedSource : jsstring) (metricType : MetricType)
  : completion (list Point.IncomeBandData) :=
  match selectedSource with
  | [] => Normal []
  | _ :: _ =>
      let prefix := metricPrefix selectedSource metricType in
      let bandMetrics :=
        filter (fun item => startsWith prefix (metric item)) latest in
      bands <- forEachBand [] bandMetrics ;;
      Normal (sort (fun a b =>
                      JsNumber.gtb (sub (lowerBound (Point.band a))
                                        (lowerBound (Point.band b)))
                                   zero)
                   bands)
  end.

End IncomeBands.

(* ================================================================= *)
(** ** LocalAreas *)

Module LocalAreas.
Import EpochSelector.

Record BandDef : Type := mkBandDef {
  band_metric : jsstring;
  label : jsstring;
  band_range : jsstring
}.

Module Point.
Record DataPoint : Type := mk {
  category : jsstring;
  estimate : number;
  target : number;
  error : number;
  rel_abs_error : number
}.
End Point.

Record LocalAreaData : Type := mkArea {
  constituency : jsstring;
  dataPoints : list Point.DataPoint;
  totalError : number;
  avgRelError : number
}.

Inductive AnalysisType : Type := age | employment.

Definition ageBands : list BandDef :=
  [ mkBandDef (lit "age/0_10") (lit "0-10 years") (lit "0-10");
    mkBandDef (lit "age/10_20") (lit "10-20 years") (lit "10-20");
    mkBandDef (lit "age/20_30") (lit "20-30 years") (lit "20-30");
    mkBandDef (lit "age/30_40") (lit "30-40 years") (lit "30-40");
    mkBandDef (lit "age/40_50") (lit "40-50 years") (lit "40-50");
    mkBandDef (lit "age/50_60") (lit "50-60 years") (lit "50-60");
    mkBandDef (lit "age/60_70") (lit "60-70 years") (lit "60-70");
    mkBandDef (lit "age/70_80") (lit "70-80 years") (lit "70-80") ].

(** The pound sign, U+00A3. *)
Definition pound : char := 163%N.

Definition employmentBands : list BandDef :=
  [ mkBandDef (lit "hmrc/employment_income/amount/20000_30000")
      (pound :: lit "20K-" ++ pound :: lit "30K") (lit "20000-30000");
    mkBandDef (lit "hmrc/employment_income/amount/30000_40000")
      (pound :: lit "30K-" ++ pound :: lit "40K") (lit "30000-40000");
    mkBandDef (lit "hmrc/employment_income/amount/40000_50000")
      (pound :: lit "40K-" ++ pound :: lit "50K") (lit "40000-50000");
    mkBandDef (lit "hmrc/employment_income/amount/50000_70000")
      (pound :: lit "50K-" ++ pound :: lit "70K") (lit "50000-70000");
    mkBandDef (lit "hmrc/employment_income/amount/70000_100000")
      (pound :: lit "70K-" ++ pound :: lit "100K") (lit "70000-100000");
    mkBandDef (lit "hmrc/employment_income/amount/100000_150000")
      (pound :: lit "100K-" ++ pound :: lit "150K") (lit "100000-150000") ].

(** [analysisType === 'age' ? ageBands : employmentBands]. *)
Definition bandsOf (analysisType : AnalysisType) : list BandDef :=
  match analysisType with
  | age => ageBands
  | employment => employmentBands
  end.

Definition constituencies (data : list TrainingLogData) : list jsstring :=
  sort JsString.gtb (uniq JsString.eqb (List.map name (latestData data))).

(** [item?.field || 0]. *)
Definition fieldOr0 (item : option TrainingLogData)
           (field : TrainingLogData -> number) : number :=
  match item with
  | Some r => or_else (field r) zero
  | None => zero
  end.

Definition getLocalAreaData (latest : list TrainingLogData)
           (analysisType : AnalysisType) (constituency : jsstring)
  : LocalAreaData :=
  let constituencyData :=
    filter (fun item => JsString.eqb (name item) constituency) latest in
  let bands := bandsOf analysisType in
  let dataPoints :=
    filter (fun point => JsNumber.gtb (Point.target point) zero)
      (List.map
         (fun band =>
            let item :=
              find_first
                (fun d => JsString.eqb (metric d) (band_metric band))
                constituencyData in
            {| Point.category := label band;
               Point.estimate := fieldOr0 item estimate;
               Point.target := fieldOr0 item target;
               Point.error := fieldOr0 item error;
               Point.rel_abs_error := fieldOr0 item rel_abs_error |})
         bands) in
  let totalError :=
    fold_left (fun sum point => add sum (abs (Point.error point)))
              dataPoints zero in
  let avgRelError :=
    if Nat.ltb 0 (length dataPoints) then
      div (fold_left (fun sum point => add sum (Point.rel_abs_error point))
                     dataPoints zero)
          (of_nat (length dataPoints))
    else zero in
  {| constituency := constituency;
     dataPoints := dataPoints;
     totalError := totalError;
     avgRelError := avgRelError |}.

Record Overview : Type := mkOverview {
  best : list LocalAreaData;
  worst : list LocalAreaData;
  average : number
}.

Definition allAreas (data : list TrainingLogData)
           (analysisType : AnalysisType) : list LocalAreaData :=
  List.map (fun c => getLocalAreaData (latestData data) analysisType c)
           (constituencies data).

(** The local constant [sorted] of [overviewData]: the areas that have
    at least one point, by ascending mean relative error. *)
Definition sorted (data : list TrainingLogData)
           (analysisType : AnalysisType) : list LocalAreaData :=
  sort (fun a b => JsNumber.gtb (sub (avgRelError a) (avgRelError b)) zero)
       (filter (fun area => Nat.ltb 0 (length (dataPoints area)))
               (allAreas data analysisType)).

Definition overviewData (data : list TrainingLogData)
           (analysisType : AnalysisType) : Overview :=
  let sorted := sorted data analysisType in
  {| best := slice_first 5 sorted;
     worst := rev (slice_last 5 sorted);
     average :=
       div (fold_left (fun sum area => add sum (avgRelError area))
                      sorted zero)
           (of_nat (length sorted)) |}.

End LocalAreas.

(* ================================================================= *)
(** ** The metric facet of a row, and the banded metric format *)

Module Facet.
Import IncomeBands.
Local Open Scope Z_scope.

(** The metric type under whose selection prefix a metric string of the
    source [source] falls ([bandsData] keeps a row when its metric starts
    with [metricPrefix selectedSource metricType]). *)
Definition kindOfMetric (source metric : jsstring) : option MetricType :=
  if startsWith (metricPrefix source amount) metric then Some amount
  else if startsWith (metricPrefix source count) metric then Some count
  else None.

(** The facet [IncomeBands] reads off a metric string: the income
    source it lists the metric under ([sourceOfMetric]), the metric type
    that selects it and the band [parseBand] returns. *)
Definition parseMetric (metric : jsstring)
  : completion (option (jsstring * MetricType * IncomeBand)) :=
  match sourceOfMetric metric with
  | None => Normal None
  | Some source =>
      match kindOfMetric source metric with
      | None => Normal None
      | Some kind =>
          b <- parseBand metric ;;
          match b with
          | None => Normal None
          | Some band => Normal (Some (source, kind, band))
          end
      end
  end.

Definition digitChar (d : Z) : char := Z.to_N (48 + d).

(** Decimal digits of [n], most significant first; [fuel] bounds the
    number of digits. *)
Fixpoint decimal_go (fuel : nat) (n : Z) (acc : jsstring) : jsstring :=
  match fuel with
  | O => acc
  | S f =>
      let acc' := digitChar (n mod 10) :: acc in
      if n / 10 =? 0 then acc' else decimal_go f (n / 10) acc'
  end.

Definition decimal (n : Z) : jsstring :=
  decimal_go (S (Z.to_nat (Z.log2 n))) n [].

(** A grouping separator after every third digit, on reversed digits. *)
Fixpoint group3 (ds : jsstring) : jsstring :=
  match ds with
  | a :: b :: c :: ((_ :: _) as rest) =>
      a :: b :: c :: ch "_" :: group3 rest
  | _ => ds
  end.

Definition grouped (n : Z) : jsstring := rev (group3 (rev (decimal n))).

(** Modelled from the spec: the construction of a banded metric string,
    which the repository only reads.  The format is
    [<source>_income_band_<N>_<lower>_to_<upper-or-"inf">], with the
    [count_] infix for the count kind, bounds written in base 10 with
    [_] as grouping separator ([10_000]), behind the [hmrc/] family
    prefix of the selection prefix of [bandsData]. *)
Definition formatMetric (source : jsstring) (kind : MetricType)
           (bandIndex lower : Z) (upper : option Z) : jsstring :=
  metricPrefix source kind ++ decimal bandIndex ++ lit "_" ++
  grouped lower ++ lit "_to_" ++
  match upper with
  | Some u => grouped u
  | None => lit "inf"
  end.

End Facet.

(* ================================================================= *)
(** ** Ingestion ([page.tsx]) *)

Module Ingest.

(** One data line of the CSV, already split at commas: a line with
    fewer than ten fields is skipped.  The epoch is the integer that
    [parseInt(..) || 0] gives; a numeral beyond the finite range of
    numbers is outside the model of epochs as integers. *)
Definition parseRow (values : list jsstring) : option TrainingLogData :=
  match values with
  | v0 :: v1 :: v2 :: v3 :: v4 :: v5 :: v6 :: v7 :: v8 :: v9 :: _ =>
      Some {| index := v0;
              name := v1;
              metric := v2;
              estimate := or_else (parseFloat v3) zero;
              target := or_else (parseFloat v4) zero;
              error := or_else (parseFloat v5) zero;
              abs_error := or_else (parseFloat v6) zero;
              rel_abs_error := or_else (parseFloat v7) zero;
              validation := JsString.eqb v8 (lit "True");
              epoch :=
                match or_else (parseInt v9) zero with
                | Fin k => k / one_ulps
                | _ => 0%Z
                end |}
  | _ => None
  end.

End Ingest.

(* ================================================================= *)
(** ** Predicates of the statements *)

Module Statements.
Import LocalAreas.

(** What it takes for a point to survive in the area [c]: its target is
    strictly positive and it is the target of a row of the area whose
    metric is, character for character, that of a catalogue band. *)
Definition survivor (latest : list TrainingLogData)
           (analysisType : AnalysisType) (c : jsstring)
           (p : Point.DataPoint) : Prop :=
  JsNumber.gtb (Point.target p) zero = true /\
  exists r band,
    In r latest /\ name r = c /\
    In band (bandsOf analysisType) /\
    metric r = band_metric band /\
    Point.category p = label band /\
    target r = Point.target p.

(** The lower bounds of a band series, in order. *)
Definition lowerBounds (bands : list IncomeBands.Point.IncomeBandData)
  : list number :=
  List.map (fun p => IncomeBands.lowerBound (IncomeBands.Point.band p)) bands.

(** A point of a band other than the total band 55. *)
Definition not55 (p : IncomeBands.Point.IncomeBandData) : Prop :=
  JsNumber.eqb (IncomeBands.bandNumber (IncomeBands.Point.band p)) lit_55
  = false.

(** The pieces of a formatted banded metric. *)
Definition infixOf (kind : IncomeBands.MetricType) : jsstring :=
  match kind with
  | IncomeBands.amount => lit "_"
  | IncomeBands.count => lit "_count_"
  end.

Definition upperText (upper : option Z) : jsstring :=
  match upper with
  | Some u => Facet.grouped u
  | None => lit "inf"
  end.

Definition rangeText (lower : Z) (upper : option Z) : jsstring :=
  Facet.grouped lower ++ lit "_to_" ++ upperText upper.

(** What follows the source in a formatted metric whose band text is
    [tail], and the band text of a tuple. *)
Definition afterSource (kind : IncomeBands.MetricType) (tail : jsstring)
  : jsstring :=
  infixOf kind ++ lit "income_band_" ++ tail.

Definition bandText (bandIndex lower : Z) (upper : option Z) : jsstring :=
  Facet.decimal bandIndex ++ lit "_" ++ rangeText lower upper.

(** The band of the tuple [(bandIndex, lower, upper)]. *)
Definition bandOf (bandIndex lower : Z) (upper : option Z)
  : IncomeBands.IncomeBand :=
  {| IncomeBands.bandNumber := of_Z bandIndex;
     IncomeBands.range := rangeText lower upper;
     IncomeBands.lowerBound := of_Z lower;
     IncomeBands.upperBound := option_map of_Z upper |}.

(** Parsing the formatted metric of a tuple gives the tuple back. *)
Definition roundTrip (source : jsstring) (kind : IncomeBands.MetricType)
           (bandIndex lower : Z) (upper : option Z) : Prop :=
  Facet.parseMetric (Facet.formatMetric source kind bandIndex lower upper)
  = Normal (Some (source, kind, bandOf bandIndex lower upper)).

(** No code unit of [s] is [x]. *)
Definition noneOf (x : char) (s : jsstring) : Prop :=
  Forall (fun c => N.eqb x c = false) s.

(** The code units of a grouped decimal numeral. *)
Definition isGroupChar (c : char) : bool := isDigit c || N.eqb c (ch "_").

(** [a <= b] on numbers. *)
Definition num_le (a b : number) : Prop := JsNumber.leb a b = true.

End Statements.

(* ================================================================= *)
(** ** Sample tables *)

Module Samples.
Local Open Scope Z_scope.

(** A row of which only the name, metric, target, relative error and
    epoch matter. *)
Definition row (name metric : string) (target rel_abs_error : number)
           (epoch : Z) : TrainingLogData :=
  {| index := [];
     name := lit name;
     metric := lit metric;
     estimate := zero;
     target := target;
     error := zero;
     abs_error := zero;
     rel_abs_error := rel_abs_error;
     validation := false;
     epoch := epoch |}.

Definition epochRow (e : Z) : TrainingLogData :=
  {| index := [];
     name := [];
     metric := [];
     estimate := zero;
     target := zero;
     error := zero;
     abs_error := zero;
     rel_abs_error := zero;
     validation := false;
     epoch := e |}.

(** One row for each of the epochs [1 .. n]. *)
Definition epochTable (n : nat) : list TrainingLogData :=
  List.map (fun i => epochRow (Z.of_nat i)) (seq 1 n).

Definition threeEpochs : list TrainingLogData :=
  [ epochRow 3; epochRow 7; epochRow 5; epochRow 7 ].

(** One area, none of whose rows carries a catalogue metric. *)
Definition noPointsTable : list TrainingLogData :=
  [ row "E1" "hmrc/other" (of_Z 10) (of_ratio 1 10) 4 ].

(** One area with two age bands, and one with none. *)
Definition agePointsTable : list TrainingLogData :=
  [ row "E1" "age/0_10" (of_Z 10) (of_ratio 1 10) 4;
    row "E1" "age/10_20" (of_Z 20) (of_ratio 3 10) 4;
    row "E2" "hmrc/other" (of_Z 5) (of_ratio 1 2) 4 ].

(** Three bands of the source [s], the second with a lower bound that is
    not a number. *)
Definition nanBandTable : list TrainingLogData :=
  [ row "E1" "hmrc/s_income_band_1_5_to_9" (of_Z 1) zero 4;
    row "E1" "hmrc/s_income_band_2_x_to_9" (of_Z 1) zero 4;
    row "E1" "hmrc/s_income_band_3_1_to_9" (of_Z 1) zero 4 ].

(** Four bands of the source [s], out of order, the total band among
    them. *)
Definition bandTable : list TrainingLogData :=
  [ row "E1" "hmrc/s_income_band_2_10_000_to_20_000" (of_Z 1) zero 4;
    row "E1" "hmrc/s_income_band_55_0_to_inf" (of_Z 1) zero 4;
    row "E1" "hmrc/s_income_band_3_20_000_to_inf" (of_Z 1) zero 4;
    row "E1" "hmrc/s_income_band_1_0_to_10_000" (of_Z 1) zero 4 ].

(** The row of the specification's scenario for the metric parser. *)
Definition pensionRow : TrainingLogData :=
  row "E1" "hmrc/pension_income_band_3_10_000_to_20_000" (of_Z 1000) zero 5.

End Samples.

(* ================================================================= *)
(** ** More of the components

    The parts of the components that the sections above leave out: the
    whole of the ingestion, the error histogram of [Charts], the series of
    [LineChart], and the statistics blocks of [IncomeBands] and
    [LocalAreas].  Formatted strings ([toFixed], [toLocaleString]) are
    left out; the numbers they format are kept. *)

Module JsExtra.

(** [l.map((x, index) => f x index)], reading from index [i]. *)
Fixpoint mapi (A B : Type) (f : A -> nat -> B) (i : nat) (l : list A)
  : list B :=
  match l with
  | [] => []
  | x :: l' => f x i :: mapi f (S i) l'
  end.

(** [l.reduce(f)], without an initial value: raises on the empty array. *)
Definition reduce1 (A : Type) (f : A -> A -> A) (l : list A)
  : completion A :=
  match l with
  | [] => Throw TypeError
  | x :: l' => Normal (fold_left f l' x)
  end.

(** [l[l.length - 1]]. *)
Definition lastItem (A : Type) (l : list A) : option A :=
  nth_error l (length l - 1).

(** [x < y] where [y] may be [undefined]. *)
Definition ltb_undef (x : number) (y : option number) : bool :=
  match y with
  | Some v => JsNumber.ltb x v
  | None => false
  end.

(** [String.prototype.trim]. *)
Definition trimEnd (s : jsstring) : jsstring := rev (trimStart (rev s)).
Definition trim (s : jsstring) : jsstring := trimEnd (trimStart s).

End JsExtra.

(** The three-way colouring of a relative error,
    [x < 0.05 ? green : x < 0.20 ? yellow : red], used by [IncomeBands],
    [LocalAreas] and [LineChart] on values and by [Charts] on the lower
    edge of a bin. *)
Module Colour.

Inductive colour : Type := green | yellow | red.

Definition errorColour (x : number) : colour :=
  if JsNumber.ltb x lit_0_05 then green
  else if JsNumber.ltb x lit_0_20 then yellow
  else red.

End Colour.

(** *** Ingestion of the whole file ([page.tsx]) *)

Module Csv.
Import JsExtra.

(** The rows of a CSV text: nothing when it has no line after the header;
    blank lines and lines of fewer than ten fields are skipped. *)
Definition parseCsv (csvText : jsstring) : list TrainingLogData :=
  let lines := split [10%N] (trim csvText) in
  if Nat.ltb (length lines) 2 then []
  else
    flat_map
      (fun line =>
         match Ingest.parseRow (split (lit ",") line) with
         | Some row => [row]
         | None => []
         end)
      (filter (fun line => Nat.ltb 0 (length (trim line))) (skipn 1 lines)).

End Csv.

(** *** The error histogram of [Charts] *)

Module Charts.
Import EpochSelector JsExtra Colour.
Local Open Scope Z_scope.

Definition lit_0_1 : number := Fin (3602879701896397 * 2 ^ 1019).
Definition lit_0_3 : number := Fin (5404319552844595 * 2 ^ 1020).
Definition lit_0_5 : number := Fin (2 ^ 1073).
Definition lit_1 : number := Fin (2 ^ 1074).

Definition errorBins : list number :=
  [zero; lit_0_05; lit_0_1; lit_0_20; lit_0_3; lit_0_5; lit_1; PInf].

Record Bin : Type := mkBin {
  binLower : number;
  binUpper : option number;
  binCount : nat;
  percentage : number;
  color : colour
}.

(** The test by which a row is counted in the bin from [bin] to
    [nextBin]. *)
Definition inBin (bin : number) (nextBin : option number) (x : number)
  : bool :=
  JsNumber.geb x bin && ltb_undef x nextBin.

Definition getErrorDistribution (latest : list TrainingLogData) : list Bin :=
  mapi
    (fun bin i =>
       let nextBin := nth_error errorBins (i + 1) in
       let count :=
         length (filter (fun item => inBin bin nextBin (rel_abs_error item))
                        latest) in
       {| binLower := bin;
          binUpper := nextBin;
          binCount := count;
          percentage :=
            mul (div (of_nat count) (of_nat (length latest))) (of_Z 100);
          color := errorColour bin |})
    0%nat (removelast errorBins).

(** [Math.max(...distribution.map(d => d.count))]; the distribution
    always has seven bins. *)
Definition maxCount (distribution : list Bin) : nat :=
  list_max (List.map binCount distribution).

(** The width of a bar, in percent. *)
Definition barWidth (distribution : list Bin) (bin : Bin) : number :=
  mul (div (of_nat (binCount bin)) (of_nat (maxCount distribution)))
      (of_Z 100).

Definition metrics (latest : list TrainingLogData) : list jsstring :=
  uniq JsString.eqb (List.map metric latest).

(** The first five metrics with the number of their rows. *)
Definition topMetrics (latest : list TrainingLogData)
  : list (jsstring * nat) :=
  List.map
    (fun m =>
       (m, length (filter (fun d => JsString.eqb (metric d) m) latest)))
    (slice_first 5 (metrics latest)).

End Charts.

(** *** The series of [LineChart] *)

Module LineChart.
Import EpochSelector JsExtra.
Local Open Scope Z_scope.

Definition metrics (data : list TrainingLogData) : list jsstring :=
  uniq JsString.eqb (List.map metric (filteredData data)).

Definition metricData (data : list TrainingLogData)
           (selectedMetric : jsstring) : list TrainingLogData :=
  filter (fun item => JsString.eqb (metric item) selectedMetric)
         (filteredData data).

Definition locations (data : list TrainingLogData)
           (selectedMetric : jsstring) : list jsstring :=
  sort JsString.gtb
       (uniq JsString.eqb (List.map name (metricData data selectedMetric))).

Definition chartData (data : list TrainingLogData)
           (selectedMetric selectedLocation : jsstring)
  : list TrainingLogData :=
  match selectedLocation with
  | [] => []
  | _ :: _ =>
      sort (fun a b => 0 <? epoch a - epoch b)
           (filter (fun item => JsString.eqb (name item) selectedLocation)
                   (metricData data selectedMetric))
  end.

(** The row behind the "latest values" panel, shown when the series is
    not empty. *)
Definition latestValues (data : list TrainingLogData)
           (selectedMetric selectedLocation : jsstring)
  : option TrainingLogData :=
  let chart := chartData data selectedMetric selectedLocation in
  if Nat.ltb 0 (length chart) then lastItem chart else None.

End LineChart.

(** *** The statistics block of [IncomeBands] *)

Module BandStats.
Import IncomeBands Quality JsExtra.

Record Stats : Type := mkStats {
  totalBands : nat;
  avgRelErrorPercent : number;
  bestBand : Point.IncomeBandData;
  worstBand : Point.IncomeBandData;
  excellentBands : nat;
  goodBands : nat;
  poorBands : nat
}.

Definition better (d best : Point.IncomeBandData) : Point.IncomeBandData :=
  if JsNumber.ltb (Point.rel_abs_error d) (Point.rel_abs_error best)
  then d else best.

Definition worse (d worst : Point.IncomeBandData) : Point.IncomeBandData :=
  if JsNumber.gtb (Point.rel_abs_error d) (Point.rel_abs_error worst)
  then d else worst.

(** The block is rendered for a non-empty series only ([None]
    otherwise). *)
Definition statistics (bands : list Point.IncomeBandData)
  : completion (option Stats) :=
  if Nat.ltb 0 (length bands) then
    best <- reduce1 (fun best d => better d best) bands ;;
    worst <- reduce1 (fun worst d => worse d worst) bands ;;
    Normal
      (Some
         {| totalBands := length bands;
            avgRelErrorPercent :=
              mul (div (fold_left
                          (fun sum d => add sum (Point.rel_abs_error d))
                          bands zero)
                       (of_nat (length bands)))
                  (of_Z 100);
            bestBand := best;
            worstBand := worst;
            excellentBands :=
              length (filter (fun d => isExcellent (Point.rel_abs_error d))
                             bands);
            goodBands :=
              length (filter (fun d => isGood (Point.rel_abs_error d)) bands);
            poorBands :=
              length (filter (fun d => isPoor (Point.rel_abs_error d))
                             bands) |})
  else Normal None.

End BandStats.

(** *** The statistics block of [LocalAreas] *)

Module AreaStats.
Import LocalAreas JsExtra.

Definition better (d best : Point.DataPoint) : Point.DataPoint :=
  if JsNumber.ltb (Point.rel_abs_error d) (Point.rel_abs_error best)
  then d else best.

Definition worse (d worst : Point.DataPoint) : Point.DataPoint :=
  if JsNumber.gtb (Point.rel_abs_error d) (Point.rel_abs_error worst)
  then d else worst.

(** The best and the worst band of an area, rendered when the area has
    a point ([None] otherwise). *)
Definition bestAndWorst (area : LocalAreaData)
  : completion (option (Point.DataPoint * Point.DataPoint)) :=
  if Nat.ltb 0 (length (dataPoints area)) then
    best <- reduce1 (fun best d => better d best) (dataPoints area) ;;
    worst <- reduce1 (fun worst d => worse d worst) (dataPoints area) ;;
    Normal (Some (best, worst))
  else Normal None.

End AreaStats.

(** *** Predicates and samples for the further properties *)

Module MoreStatements.
Import Quality Colour.

(** The tier a colour stands for. *)
Definition tierOfColour (c : colour) : QualityTier :=
  match c with
  | green => Excellent
  | yellow => Good
  | red => Poor
  end.

(** None of the five numeric columns of a row is [NaN]. *)
Definition numericRow (r : TrainingLogData) : Prop :=
  isNaN (estimate r) = false /\ isNaN (target r) = false /\
  isNaN (error r) = false /\ isNaN (abs_error r) = false /\
  isNaN (rel_abs_error r) = false.

(** [a < b] on numbers. *)
Definition num_lt (a b : number) : Prop := JsNumber.ltb a b = true.

(** The point [bandsData] makes of a row and its band. *)
Definition pointOf (band : IncomeBands.IncomeBand) (item : TrainingLogData)
  : IncomeBands.Point.IncomeBandData :=
  {| IncomeBands.Point.band := band;
     IncomeBands.Point.estimate := estimate item;
     IncomeBands.Point.target := target item;
     IncomeBands.Point.error := error item;
     IncomeBands.Point.rel_abs_error := rel_abs_error item |}.

(** A row that gives the point [p] in the series of a source and a
    metric type: its metric starts with their prefix and parses to a band
    other than 55. *)
Definition givesPoint (selectedSource : jsstring)
           (metricType : IncomeBands.MetricType) (item : TrainingLogData)
           (p : IncomeBands.Point.IncomeBandData) : Prop :=
  startsWith (IncomeBands.metricPrefix selectedSource metricType)
             (metric item) = true /\
  exists band,
    IncomeBands.parseBand (metric item) = Normal (Some band) /\
    JsNumber.eqb (IncomeBands.bandNumber band) lit_55 = false /\
    p = pointOf band item.

End MoreStatements.

Module MoreSamples.

Definition headerLine : jsstring :=
  lit "index,name,metric,estimate,target,error,abs_error," ++
  lit "rel_abs_error,validation,epoch".

(** A header, two well-formed lines, a blank line and a short line. *)
Definition csvSample : jsstring :=
  headerLine ++ [10%N] ++
  lit "0,E1,age/0_10,9,10,-1,1,0.1,True,4" ++ [10%N] ++
  [10%N] ++
  lit "1,E1,age/10_20,x,20,,6,0.3,False,4" ++ [10%N] ++
  lit "2,E1,short" ++ [10%N].

(** Rows whose relative errors are negative, [NaN] and infinite. *)
Definition unbinnedTable : list TrainingLogData :=
  [ Samples.row "E1" "age/0_10" zero (of_Z (-1)) 4;
    Samples.row "E1" "age/10_20" zero NaN 4;
    Samples.row "E1" "age/20_30" zero PInf 4 ].

(** Three points of a series, of relative errors 0.3, 0.1 and 0.5. *)
Definition threeBands : list IncomeBands.Point.IncomeBandData :=
  List.map
    (fun e : Z * Z =>
       {| IncomeBands.Point.band :=
            {| IncomeBands.bandNumber := of_Z (fst e);
               IncomeBands.range := lit "0_to_5";
               IncomeBands.lowerBound := zero;
               IncomeBands.upperBound := Some (of_Z 5) |};
          IncomeBands.Point.estimate := zero;
          IncomeBands.Point.target := zero;
          IncomeBands.Point.error := zero;
          IncomeBands.Point.rel_abs_error := of_ratio (snd e) 10 |})
    [(1, 3); (2, 1); (3, 5)]%Z.

(** A point whose relative error is [NaN]. *)
Definition nanPoint : IncomeBands.Point.IncomeBandData :=
  {| IncomeBands.Point.band :=
       {| IncomeBands.bandNumber := of_Z 4;
          IncomeBands.range := lit "0_to_5";
          IncomeBands.lowerBound := zero;
          IncomeBands.upperBound := Some (of_Z 5) |};
     IncomeBands.Point.estimate := zero;
     IncomeBands.Point.target := zero;
     IncomeBands.Point.error := zero;
     IncomeBands.Point.rel_abs_error := NaN |}.

(** A well-formed band and one whose range has no [_to_]. *)
Definition brokenBandTable : list TrainingLogData :=
  [ Samples.row "E1" "hmrc/s_income_band_1_0_to_5" (of_Z 1) zero 4;
    Samples.row "E1" "hmrc/s_income_band_2_5" (of_Z 1) zero 4 ].

End MoreSamples.

(* ================================================================= *)
(** * Properties *)

Unset Implicit Arguments.

(** ** Lists, sets and sorting *)

Section ArrayFacts.
Variable A : Type.

Lemma uniq_In (same : A -> A -> bool) (l : list A) (x : A) :
  (forall a b, same a b = true <-> a = b) ->
  In x (uniq same l) <-> In x l.
Proof.
  intros Hsame. induction l as [|y l IH]; simpl; [tauto|].
  rewrite filter_In, IH. split.
  - intros [->|[H _]]; auto.
  - intros [->|H]; [now left|].
    destruct (same y x) eqn:E.
    + apply Hsame in E. now left.
    + right. now split.
Qed.

Lemma uniq_NoDup (same : A -> A -> bool) (l : list A) :
  (forall a b, same a b = true <-> a = b) ->
  NoDup (uniq same l).
Proof.
  intros Hsame. induction l as [|y l IH]; simpl; constructor.
  - rewrite filter_In. intros [_ H].
    assert (E : same y y = true) by now apply Hsame.
    rewrite E in H. discriminate.
  - now apply NoDup_filter.
Qed.

Lemma insert_perm (gt : A -> A -> bool) (x : A) (l : list A) :
  Permutation (insert gt x l) (x :: l).
Proof.
  induction l as [|y l IH]; simpl; [reflexivity|].
  destruct (gt x y); [|reflexivity].
  rewrite IH. apply perm_swap.
Qed.

Lemma sort_perm (gt : A -> A -> bool) (l : list A) :
  Permutation (sort gt l) l.
Proof.
  induction l as [|x l IH]; simpl; [reflexivity|].
  rewrite insert_perm. now constructor.
Qed.

Lemma Forall_perm (P : A -> Prop) (l1 l2 : list A) :
  Permutation l1 l2 -> Forall P l1 -> Forall P l2.
Proof.
  intros Hp H. rewrite Forall_forall in *. intros x Hx. apply H.
  apply Permutation_in with l2; [now symmetry|exact Hx].
Qed.

Lemma sort_In (gt : A -> A -> bool) (l : list A) (x : A) :
  In x (sort gt l) <-> In x l.
Proof.
  split; apply Permutation_in; [|symmetry]; apply sort_perm.
Qed.

Lemma sort_length (gt : A -> A -> bool) (l : list A) :
  length (sort gt l) = length l.
Proof. apply Permutation_length, sort_perm. Qed.

Lemma filter_index_In (f : A -> nat -> bool) (l : list A) :
  forall i j x,
    nth_error l j = Some x -> f x (i + j)%nat = true ->
    In x (filter_index f i l).
Proof.
  induction l as [|y l IH]; intros i j x Hn Hf.
  - destruct j; discriminate.
  - destruct j as [|j]; simpl in *.
    + injection Hn as ->. rewrite Nat.add_0_r in Hf. rewrite Hf. now left.
    + assert (In x (filter_index f (S i) l)).
      { apply IH with j; auto. now rewrite Nat.add_succ_r in Hf. }
      destruct (f y i); simpl; auto.
Qed.

Lemma filter_index_incl (f : A -> nat -> bool) (l : list A) :
  forall i x, In x (filter_index f i l) -> In x l.
Proof.
  induction l as [|y l IH]; intros i x; simpl; [tauto|].
  destruct (f y i); simpl; intros H.
  - destruct H; eauto.
  - eauto.
Qed.

Lemma filter_index_length (f : A -> nat -> bool) (l : list A) :
  forall i, (length (filter_index f i l) <= length l)%nat.
Proof.
  induction l as [|y l IH]; intros i; simpl; [lia|].
  destruct (f y i); simpl; specialize (IH (S i)); lia.
Qed.

Lemma filter_index_all (f : A -> nat -> bool) (l : list A) :
  forall i, (forall x j, f x j = true) -> filter_index f i l = l.
Proof.
  induction l as [|y l IH]; intros i H; simpl; [reflexivity|].
  rewrite H. f_equal. now apply IH.
Qed.
End ArrayFacts.

(** ** Epoch selection *)

Section EpochFacts.
Import EpochSelector.
Local Open Scope Z_scope.

Lemma fold_max_ge (l : list TrainingLogData) :
  forall a,
    a <= fold_left (fun max item => Z.max max (epoch item)) l a /\
    Forall (fun r => epoch r <=
              fold_left (fun max item => Z.max max (epoch item)) l a) l.
Proof.
  induction l as [|r l IH]; intros a; simpl.
  - split; [lia|constructor].
  - destruct (IH (Z.max a (epoch r))) as [H1 H2]. split; [lia|].
    constructor; [lia|exact H2].
Qed.

Lemma fold_max_attained (l : list TrainingLogData) :
  forall a,
    fold_left (fun max item => Z.max max (epoch item)) l a = a \/
    exists r, In r l /\
      epoch r = fold_left (fun max item => Z.max max (epoch item)) l a.
Proof.
  induction l as [|r l IH]; intros a; simpl; [now left|].
  destruct (IH (Z.max a (epoch r))) as [H|[r' [Hin H]]].
  - destruct (Z.max_spec a (epoch r)) as [[_ E]|[_ E]].
    + right. exists r. split; [now left|]. rewrite H. now rewrite E.
    + left. rewrite H. exact E.
  - right. exists r'. split; [now right|exact H].
Qed.

(** On a non-empty table of non-negative epochs the maximum is the
    epoch of some row. *)
Lemma maxEpoch_attained (data : list TrainingLogData) :
  data <> [] ->
  Forall (fun r => 0 <= epoch r) data ->
  exists r, In r data /\ epoch r = maxEpoch data.
Proof.
  intros Hne Hpos. unfold maxEpoch.
  destruct (fold_max_attained data 0) as [H|H]; [|exact H].
  destruct data as [|r data]; [congruence|].
  exists r. split; [now left|].
  destruct (fold_max_ge (r :: data) 0) as [_ Hle].
  inversion Hle; subst. inversion Hpos; subst. lia.
Qed.

Lemma maxEpoch_upper (data : list TrainingLogData) (r : TrainingLogData) :
  In r data -> epoch r <= maxEpoch data.
Proof.
  intros Hin. destruct (fold_max_ge data 0) as [_ H].
  rewrite Forall_forall in H. now apply H.
Qed.

Lemma allEpochs_In (data : list TrainingLogData) (e : Z) :
  In e (allEpochs data) <-> exists r, In r data /\ epoch r = e.
Proof.
  unfold allEpochs. rewrite sort_In, uniq_In by apply Z.eqb_eq.
  rewrite in_map_iff. split; intros [r [H1 H2]]; exists r; auto.
Qed.

(** An epoch of the table equal to [maxEpoch] is selected at any step. *)
Lemma selected_of_max (data : list TrainingLogData) :
  In (maxEpoch data) (allEpochs data) ->
  In (maxEpoch data) (selectedEpochs data).
Proof.
  intros Hin. destruct (In_nth_error _ _ Hin) as [j Hj].
  unfold selectedEpochs.
  apply filter_index_In with j; [exact Hj|].
  simpl. rewrite Hj, Z.eqb_refl. apply orb_true_r.
Qed.

Lemma selectedEpochs_incl (data : list TrainingLogData) (e : Z) :
  In e (selectedEpochs data) -> In e (allEpochs data).
Proof. apply filter_index_incl. Qed.

Lemma latestData_In (data : list TrainingLogData) (r : TrainingLogData) :
  In r (latestData data) <->
  In r data /\ In (epoch r) (selectedEpochs data) /\
  epoch r = maxEpoch data.
Proof.
  unfold latestData, filteredData. rewrite !filter_In, Z.eqb_eq.
  rewrite existsb_exists. split.
  - intros [[H1 [x [H2 H3]]] H4]. apply Z.eqb_eq in H3. subst x. auto.
  - intros [H1 [H2 H3]]. repeat split; auto.
    exists (epoch r). split; [exact H2|apply Z.eqb_refl].
Qed.
End EpochFacts.

(** ** Rounding *)

Section RoundingFacts.
Local Open Scope Z_scope.

Lemma rne_div_bounds (a b : Z) :
  0 <= a -> 0 < b -> a / b <= rne_div a b <= a / b + 1.
Proof.
  intros _ _. unfold rne_div.
  destruct (2 * (a mod b) <? b); [lia|].
  destruct (b <? 2 * (a mod b)); [lia|].
  destruct (Z.even (a / b)); lia.
Qed.

(** A value of at least one grid unit never rounds to zero. *)
Lemma round_mag_pos (a b k : Z) :
  0 < b -> b <= a -> round_mag a b = Some k -> 0 < k.
Proof.
  intros Hb Hab. unfold round_mag.
  assert (Hq : 1 <= a / b) by (apply Z.div_le_lower_bound; lia).
  set (e := if a / b <? 2 ^ 53 then 0 else Z.log2 (a / b) - 52).
  assert (He : 0 <= e /\ 2 ^ e <= a / b).
  { subst e. destruct (Z.ltb_spec (a / b) (2 ^ 53)) as [H|H].
    - simpl. lia.
    - assert (53 <= Z.log2 (a / b)) by (apply Z.log2_le_pow2; lia).
      split; [lia|].
      transitivity (2 ^ Z.log2 (a / b)).
      + apply Z.pow_le_mono_r; lia.
      + apply Z.log2_spec. lia. }
  destruct He as [He0 He1].
  assert (Hp : 0 < 2 ^ e) by (apply Z.pow_pos_nonneg; lia).
  assert (Hm : 1 <= rne_div a (b * 2 ^ e)).
  { transitivity (a / (b * 2 ^ e)).
    - rewrite <- Z.div_div by lia.
      apply Z.div_le_lower_bound; lia.
    - apply rne_div_bounds; nia. }
  destruct (_ <? overflow_ulps); [|discriminate].
  intros [= <-]. nia.
Qed.

(** Rounding keeps the sign of a non-zero multiple of the grid unit. *)
Lemma round_ratio_sign (n : Z) :
  match round_ratio n 1 with
  | NaN => False
  | PInf => 0 < n
  | NInf => n < 0
  | Fin k => (0 < k <-> 0 < n) /\ (k < 0 <-> n < 0)
  end.
Proof.
  unfold round_ratio.
  destruct (Z.eqb_spec n 0) as [->|Hn]; [lia|].
  destruct (Z.ltb_spec 0 n) as [Hp|Hp].
  - destruct (round_mag n 1) as [k|] eqn:E; [|exact Hp].
    apply round_mag_pos in E; lia.
  - destruct (round_mag (- n) 1) as [k|] eqn:E; [|lia].
    apply round_mag_pos in E; lia.
Qed.

Lemma of_nat_pos (n : nat) :
  (0 < n)%nat -> truthy (of_nat n) = true.
Proof.
  intros Hn. unfold of_nat, of_Z, of_ratio.
  assert (H1 : 0 < one_ulps) by (unfold one_ulps; apply Z.pow_pos_nonneg; lia).
  pose proof (round_ratio_sign (Z.of_nat n * one_ulps)) as H.
  destruct (round_ratio _ 1) as [| | |k]; simpl;
    [contradiction|reflexivity|reflexivity|].
  destruct (Z.eqb_spec k 0); [nia|reflexivity].
Qed.

(** The comparator [a - b] is positive exactly when [a > b], for any
    two numbers that are not [NaN]. *)
Lemma sub_gt_zero (a b : number) :
  isNaN a = false -> isNaN b = false ->
  JsNumber.gtb (sub a b) zero = JsNumber.gtb a b.
Proof.
  destruct a as [| | |x], b as [| | |y]; simpl; try discriminate; auto.
  intros _ _. unfold sub, add, neg, JsNumber.gtb, zero.
  pose proof (round_ratio_sign (x + - y)) as H.
  destruct (round_ratio _ 1) as [| | |k]; simpl in *.
  - contradiction.
  - symmetry. apply Z.ltb_lt. lia.
  - symmetry. apply Z.ltb_ge. lia.
  - destruct (Z.ltb_spec 0 k), (Z.ltb_spec y x); auto; lia.
Qed.
End RoundingFacts.

(** ** The number model on known values *)

Section NumberChecks.
Local Open Scope Z_scope.

Example lit_0_05_read : parseFloat (lit "0.05") = lit_0_05.
Proof. vm_compute. reflexivity. Qed.

Example lit_0_20_read : parseFloat (lit "0.20") = lit_0_20.
Proof. vm_compute. reflexivity. Qed.

Example lit_55_read : parseFloat (lit "55") = lit_55.
Proof. vm_compute. reflexivity. Qed.

(** 2^53 + 1 is a tie and rounds to the even neighbour 2^53. *)
Example round_tie_to_even :
  parseFloat (lit "9007199254740993") = of_Z 9007199254740992.
Proof. vm_compute. reflexivity. Qed.

(** The smallest subnormal, and underflow to zero below its half. *)
Example round_subnormal :
  parseFloat (lit "5e-324") = Fin 1 /\ parseFloat (lit "2e-324") = Fin 0.
Proof. vm_compute. auto. Qed.

(** The largest finite value, and overflow past it. *)
Example round_overflow :
  parseFloat (lit "1.7976931348623157e308") = Fin (2 ^ 2098 - 2 ^ 2045) /\
  parseFloat (lit "1.7976931348623159e308") = PInf /\
  parseFloat (lit "1e400") = PInf.
Proof. vm_compute. auto. Qed.

Example one_third :
  div (of_Z 1) (of_Z 3) = Fin (6004799503160661 * 2 ^ 1020).
Proof. vm_compute. reflexivity. Qed.

Example parseFloat_forms :
  parseFloat (lit "-.5e1x") = of_Z (-5) /\
  parseFloat (lit "  12.5") = of_ratio 25 2 /\
  parseFloat (lit "5.e3") = of_Z 5000 /\
  parseFloat (lit "abc") = NaN /\
  parseFloat (lit ".") = NaN /\
  parseFloat (lit "-Infinity") = NInf /\
  parseInt (lit "0x1F") = of_Z 31 /\
  parseInt (lit "12px") = of_Z 12 /\
  parseInt (lit "px") = NaN.
Proof. vm_compute. repeat split. Qed.
End NumberChecks.

(** ** Epoch selection: the claims *)

Section EpochClaims.
Import EpochSelector MetricsSummary Samples.
Local Open Scope Z_scope.

(** C4.  For every non-empty table whose epochs are non-negative
    integers, the maximum epoch of the table is among the selected
    epochs, whatever the downsampling step. *)
Theorem maxEpoch_selected (data : list TrainingLogData) :
  data <> [] ->
  Forall (fun r => 0 <= epoch r) data ->
  In (maxEpoch data) (selectedEpochs data).
Proof.
  intros Hne Hpos. apply selected_of_max, allEpochs_In.
  now apply maxEpoch_attained.
Qed.

Lemma maxEpoch_selected_witness :
  In (maxEpoch threeEpochs) (selectedEpochs threeEpochs).
Proof.
  apply (maxEpoch_selected threeEpochs).
  - discriminate.
  - repeat constructor; simpl; lia.
Defined.

(** C9.  For every non-empty table whose epochs are non-negative
    integers, some row carries the maximum epoch, so the rows of the
    latest epoch are not empty: the summary exists, its [totalEntries]
    is positive and the divisor of the quality score and of the average
    relative error is neither zero nor [NaN]. *)
Theorem latest_rows_nonempty (data : list TrainingLogData) :
  data <> [] ->
  Forall (fun r => 0 <= epoch r) data ->
  (exists r, In r data /\ epoch r = maxEpoch data) /\
  latestData data <> [] /\
  exists s, summary data = Some s /\
            totalEntries s = length (latestData data) /\
            (0 < totalEntries s)%nat /\
            truthy (of_nat (totalEntries s)) = true.
Proof.
  intros Hne Hpos.
  destruct (maxEpoch_attained data Hne Hpos) as [r [Hin Hr]].
  assert (Hl : In r (latestData data)).
  { apply latestData_In. repeat split; auto.
    rewrite Hr. apply selected_of_max, allEpochs_In. now exists r. }
  assert (Hlen : (0 < length (latestData data))%nat).
  { destruct (latestData data); [contradiction|simpl; lia]. }
  split; [now exists r|]. split.
  - intros E. rewrite E in Hl. contradiction.
  - destruct data as [|r0 data]; [congruence|].
    eexists. split; [reflexivity|]. simpl totalEntries.
    repeat split; auto. now apply of_nat_pos.
Qed.

Lemma latest_rows_nonempty_witness :
  (exists r, In r threeEpochs /\ epoch r = maxEpoch threeEpochs) /\
  latestData threeEpochs <> [] /\
  exists s, summary threeEpochs = Some s /\
            totalEntries s = length (latestData threeEpochs) /\
            (0 < totalEntries s)%nat /\
            truthy (of_nat (totalEntries s)) = true.
Proof.
  apply (latest_rows_nonempty threeEpochs).
  - discriminate.
  - repeat constructor; simpl; lia.
Defined.

(** C1.  The selection is not bounded by 101 epochs: the step is the
    floor of [length / 100], so 199 distinct epochs give step 1 and are
    all selected, and the 250 epochs [1 .. 250] give step 2 and 126
    selected epochs. *)
Theorem selectedEpochs_exceeds_cap :
  length (selectedEpochs (epochTable 199)) = 199%nat /\
  epochStep (epochTable 199) = 1%nat /\
  length (selectedEpochs (epochTable 250)) = 126%nat /\
  epochStep (epochTable 250) = 2%nat.
Proof. vm_compute. repeat split. Qed.

(** Without the hypothesis on the sign of the epochs the maximum, which
    is computed from the initial value 0, need not be selected. *)
Example maxEpoch_of_negative_epochs :
  maxEpoch [epochRow (-1)] = 0 /\ selectedEpochs [epochRow (-1)] = [-1] /\
  latestData [epochRow (-1)] = [].
Proof. vm_compute. repeat split. Qed.
End EpochClaims.

(** ** Quality tiers: the claims *)

Section QualityClaims.
Import Quality.
Local Open Scope Z_scope.

Lemma lit_0_05_lt_0_20 :
  3602879701896397 * 2 ^ 1018 < 3602879701896397 * 2 ^ 1020.
Proof. apply Z.ltb_lt. vm_compute. reflexivity. Qed.

Lemma lit_0_05_pos : 0 < 3602879701896397 * 2 ^ 1018.
Proof. apply Z.ltb_lt. vm_compute. reflexivity. Qed.

(** Every finite value falls in exactly one tier, the one its order
    against the two thresholds gives. *)
Lemma tiersOf_finite (k : Z) :
  (k < 3602879701896397 * 2 ^ 1018 /\ tiersOf (Fin k) = [Excellent]) \/
  (3602879701896397 * 2 ^ 1018 <= k < 3602879701896397 * 2 ^ 1020 /\
   tiersOf (Fin k) = [Good]) \/
  (3602879701896397 * 2 ^ 1020 <= k /\ tiersOf (Fin k) = [Poor]).
Proof.
  pose proof lit_0_05_lt_0_20 as H.
  unfold tiersOf, isExcellent, isGood, isPoor, JsNumber.geb, lit_0_05,
    lit_0_20, JsNumber.ltb, JsNumber.leb.
  generalize dependent (3602879701896397 * 2 ^ 1018).
  generalize (3602879701896397 * 2 ^ 1020).
  intros c20 c05 H.
  destruct (Z.ltb_spec k c05), (Z.leb_spec c05 k), (Z.ltb_spec k c20),
    (Z.leb_spec c20 k); simpl; try lia; auto.
Qed.

(** C6.  The three tiers partition the finite non-negative values:
    each such value is counted in exactly one tier, Excellent exactly
    below 0.05, Good exactly from 0.05 up to but excluding 0.20, Poor
    exactly from 0.20 on; the thresholds 0.05 and 0.20 themselves are
    Good and Poor. *)
Theorem tiers_partition_nonneg (x : number) :
  isFinite x = true ->
  JsNumber.geb x zero = true ->
  (exists t, tiersOf x = [t] /\
     (t = Excellent <-> JsNumber.ltb x lit_0_05 = true) /\
     (t = Good <->
      JsNumber.geb x lit_0_05 = true /\ JsNumber.ltb x lit_0_20 = true) /\
     (t = Poor <-> JsNumber.geb x lit_0_20 = true)) /\
  tiersOf (parseFloat (lit "0.05")) = [Good] /\
  tiersOf (parseFloat (lit "0.20")) = [Poor].
Proof.
  intros Hfin _. split; [|split; vm_compute; reflexivity].
  destruct x as [| | |k]; try discriminate.
  pose proof lit_0_05_lt_0_20 as H.
  unfold JsNumber.geb, JsNumber.ltb, JsNumber.leb, lit_0_05, lit_0_20.
  destruct (tiersOf_finite k) as [[Hk ->]|[[Hk ->]|[Hk ->]]];
    revert H Hk;
    generalize (3602879701896397 * 2 ^ 1018);
    generalize (3602879701896397 * 2 ^ 1020);
    intros c20 c05 H Hk;
    [exists Excellent|exists Good|exists Poor];
    (split; [reflexivity|]);
    rewrite ?Z.ltb_lt, ?Z.leb_le;
    repeat split; intros; try discriminate; try lia; auto; try easy.
Qed.

Lemma tiers_partition_nonneg_witness :
  (exists t, tiersOf (of_ratio 1 10) = [t] /\
     (t = Excellent <-> JsNumber.ltb (of_ratio 1 10) lit_0_05 = true) /\
     (t = Good <->
      JsNumber.geb (of_ratio 1 10) lit_0_05 = true /\
      JsNumber.ltb (of_ratio 1 10) lit_0_20 = true) /\
     (t = Poor <-> JsNumber.geb (of_ratio 1 10) lit_0_20 = true)) /\
  tiersOf (parseFloat (lit "0.05")) = [Good] /\
  tiersOf (parseFloat (lit "0.20")) = [Poor].
Proof.
  apply (tiers_partition_nonneg (of_ratio 1 10));
    vm_compute; reflexivity.
Defined.

(** C10.  The tier predicates cover every finite value, negative ones
    included: each finite value is counted in exactly one tier, and a
    negative value in Excellent. *)
Theorem tiers_total_finite (x : number) :
  isFinite x = true ->
  exists t, tiersOf x = [t] /\
            (JsNumber.ltb x zero = true -> t = Excellent).
Proof.
  intros Hfin. destruct x as [| | |k]; try discriminate.
  pose proof lit_0_05_pos as H0.
  destruct (tiersOf_finite k) as [[Hk ->]|[[Hk ->]|[Hk ->]]];
    [exists Excellent|exists Good|exists Poor];
    (split; [reflexivity|]); unfold JsNumber.ltb, zero;
    intros Hneg; try reflexivity;
    apply Z.ltb_lt in Hneg; pose proof lit_0_05_lt_0_20; exfalso; lia.
Qed.

Lemma tiers_total_finite_witness :
  exists t, tiersOf (of_ratio (-1) 2) = [t] /\
            (JsNumber.ltb (of_ratio (-1) 2) zero = true -> t = Excellent).
Proof.
  apply (tiers_total_finite (of_ratio (-1) 2)).
  vm_compute. reflexivity.
Defined.

(** A negative relative error does reach the tiers: ingestion keeps
    any number the feed gives, and replaces only [NaN] and 0 by 0. *)
Example negative_rel_abs_error_ingested :
  option_map rel_abs_error
    (Ingest.parseRow
       (List.map lit ["0"; "E1"; "age/0_10"; "1"; "2"; "-1"; "1"; "-0.5";
                      "True"; "4"]%string))
  = Some (of_ratio (-1) 2).
Proof. vm_compute. reflexivity. Qed.
End QualityClaims.

(** ** Strings *)

Section StringFacts.

Lemma jsstring_eqb_eq (a b : jsstring) : JsString.eqb a b = true <-> a = b.
Proof.
  revert b. induction a as [|x a IH]; intros [|y b]; simpl;
    try (split; [discriminate|congruence]); [tauto|].
  rewrite andb_true_iff, N.eqb_eq, IH. split.
  - intros [-> ->]. reflexivity.
  - intros [= -> ->]. auto.
Qed.

Lemma jsstring_eqb_refl (a : jsstring) : JsString.eqb a a = true.
Proof. now apply jsstring_eqb_eq. Qed.

End StringFacts.

(** ** Local areas: the claims *)

Section LocalAreaClaims.
Import EpochSelector LocalAreas Samples Statements.
Local Open Scope Z_scope.

Lemma getLocalAreaData_constituency latest ty c :
  constituency (getLocalAreaData latest ty c) = c.
Proof. reflexivity. Qed.

Lemma getLocalAreaData_points latest ty c :
  Forall (survivor latest ty c) (dataPoints (getLocalAreaData latest ty c)).
Proof.
  apply Forall_forall. intros p Hp.
  unfold getLocalAreaData in Hp. cbn [dataPoints] in Hp.
  apply filter_In in Hp. destruct Hp as [Hp Hpos].
  apply in_map_iff in Hp. destruct Hp as [band [<- Hband]].
  split; [exact Hpos|].
  cbn [Point.target] in Hpos.
  unfold find_first in *.
  destruct (find _ _) as [r|] eqn:E; [|discriminate].
  apply find_some in E. destruct E as [Hr Hm].
  apply filter_In in Hr. destruct Hr as [Hr Hn].
  apply jsstring_eqb_eq in Hm, Hn.
  exists r, band. split; [exact Hr|]. split; [exact Hn|].
  split; [exact Hband|]. split; [exact Hm|]. split; [reflexivity|].
  cbn [Point.target]. unfold fieldOr0, or_else in *.
  destruct (truthy (target r)); [reflexivity|discriminate].
Qed.

Lemma firstn_In_incl (A : Type) (n : nat) (l : list A) (x : A) :
  In x (firstn n l) -> In x l.
Proof.
  intros H. rewrite <- (firstn_skipn n l). apply in_or_app. now left.
Qed.

Lemma skipn_In_incl (A : Type) (n : nat) (l : list A) (x : A) :
  In x (skipn n l) -> In x l.
Proof.
  intros H. rewrite <- (firstn_skipn n l). apply in_or_app. now right.
Qed.

Lemma sorted_In data ty a :
  In a (sorted data ty) ->
  dataPoints a <> [] /\
  exists c, In c (constituencies data) /\
            a = getLocalAreaData (latestData data) ty c.
Proof.
  unfold sorted. rewrite sort_In, filter_In. intros [Ha Hlen].
  split.
  - destruct (dataPoints a); [discriminate|congruence].
  - unfold allAreas in Ha. apply in_map_iff in Ha.
    destruct Ha as [c [<- Hc]]. now exists c.
Qed.

(** C8.  No area without a surviving point enters the ranked output:
    every area among the best performers, among the worst performers
    and among those the overall average is taken over has at least one
    point, and each of its points survives only as the strictly
    positive target of a row whose metric string matches a catalogue
    metric exactly. *)
Theorem ranked_areas_have_points (data : list TrainingLogData)
        (analysisType : AnalysisType) :
  let o := overviewData data analysisType in
  let ranked := sorted data analysisType in
  let ok := fun a =>
    dataPoints a <> [] /\
    Forall (survivor (latestData data) analysisType (constituency a))
           (dataPoints a) in
  Forall ok (best o) /\ Forall ok (worst o) /\ Forall ok ranked /\
  average o =
    div (fold_left (fun sum area => add sum (avgRelError area)) ranked zero)
        (of_nat (length ranked)).
Proof.
  intros o ranked ok.
  assert (H : forall a, In a ranked -> ok a).
  { intros a Ha. apply sorted_In in Ha. destruct Ha as [Hne [c [_ ->]]].
    split; [exact Hne|]. rewrite getLocalAreaData_constituency.
    apply getLocalAreaData_points. }
  repeat split.
  - apply Forall_forall. intros a Ha. apply H.
    unfold o, overviewData, slice_first in Ha. cbn [best] in Ha.
    now apply firstn_In_incl in Ha.
  - apply Forall_forall. intros a Ha. apply H.
    unfold o, overviewData, slice_last in Ha. cbn [worst] in Ha.
    apply in_rev in Ha. now apply skipn_In_incl in Ha.
  - apply Forall_forall. exact H.
Qed.

(** *** Empty denominators *)

(** C3, as stated, fails: an area none of whose rows gives a point has
    its mean relative error set to 0. *)
Lemma zero_point_area_mean_is_zero :
  let a := getLocalAreaData (latestData noPointsTable) age (lit "E1") in
  In (lit "E1") (constituencies noPointsTable) /\
  dataPoints a = [] /\ avgRelError a = Fin 0.
Proof. vm_compute. auto. Qed.

(** When no area has a point the overall average is 0 / 0. *)
Example overall_average_of_no_area :
  sorted noPointsTable age = [] /\
  average (overviewData noPointsTable age) = NaN.
Proof. vm_compute. auto. Qed.
End LocalAreaClaims.

(** ** Exactly representable integers *)

Section ExactFacts.
Local Open Scope Z_scope.

Lemma one_ulps_pos : 0 < one_ulps.
Proof. unfold one_ulps. apply Z.pow_pos_nonneg; lia. Qed.

Lemma rne_div_exact (q b : Z) : 0 < b -> rne_div (q * b) b = q.
Proof.
  intros Hb. unfold rne_div.
  rewrite Z.mod_mul, Z.div_mul by lia.
  destruct (Z.ltb_spec (2 * 0) b); [reflexivity|lia].
Qed.

(** An integer below 2^53 is a binary64 value. *)
Lemma round_mag_exact (n : Z) :
  0 < n < 2 ^ 53 -> round_mag (n * one_ulps) 1 = Some (n * one_ulps).
Proof.
  intros Hn. unfold round_mag. rewrite Z.div_1_r, Z.mul_1_l.
  pose proof one_ulps_pos as HU.
  assert (H53 : 2 ^ 53 <= one_ulps).
  { unfold one_ulps. apply Z.pow_le_mono_r; lia. }
  destruct (Z.ltb_spec (n * one_ulps) (2 ^ 53)) as [H|_]; [nia|].
  assert (HL : 0 <= Z.log2 n <= 52).
  { split; [apply Z.log2_nonneg|].
    assert (Z.log2 n < 53) by (apply Z.log2_lt_pow2; lia). lia. }
  assert (He : Z.log2 (n * one_ulps) - 52 = Z.log2 n + 1022).
  { unfold one_ulps. rewrite Z.log2_mul_pow2 by lia. lia. }
  rewrite He.
  set (e := Z.log2 n + 1022).
  assert (Hsplit : n * one_ulps = n * 2 ^ (1074 - e) * 2 ^ e).
  { unfold one_ulps. rewrite <- Z.mul_assoc, <- Z.pow_add_r by lia.
    do 2 f_equal. lia. }
  assert (Hp : 0 < 2 ^ e) by (apply Z.pow_pos_nonneg; lia).
  assert (Hr : rne_div (n * one_ulps) (2 ^ e) = n * 2 ^ (1074 - e)).
  { rewrite Hsplit. now apply rne_div_exact. }
  rewrite Hr, <- Hsplit.
  destruct (Z.ltb_spec (n * one_ulps) overflow_ulps) as [_|H];
    [reflexivity|].
  exfalso.
  assert (overflow_ulps = 2 ^ 1024 * one_ulps).
  { unfold overflow_ulps, one_ulps. rewrite <- Z.pow_add_r by lia.
    reflexivity. }
  assert (2 ^ 53 < 2 ^ 1024) by (apply Z.pow_lt_mono_r; lia).
  nia.
Qed.

Lemma of_Z_exact (n : Z) :
  0 <= n < 2 ^ 53 -> of_Z n = Fin (n * one_ulps).
Proof.
  intros Hn. unfold of_Z, of_ratio, round_ratio.
  pose proof one_ulps_pos as HU.
  destruct (Z.eqb_spec (n * one_ulps) 0) as [E|E].
  - now rewrite E.
  - destruct (Z.ltb_spec 0 (n * one_ulps)) as [H|H]; [|nia].
    rewrite round_mag_exact; [reflexivity|nia].
Qed.

Lemma round_ratio_not_NaN (n d : Z) : isNaN (round_ratio n d) = false.
Proof.
  unfold round_ratio.
  destruct (n =? 0); [reflexivity|].
  destruct (0 <? n); [destruct (round_mag n d)|destruct (round_mag (- n) d)];
    reflexivity.
Qed.

Lemma add_Fin_not_NaN (a : number) (y : Z) :
  isNaN a = false -> isNaN (add a (Fin y)) = false.
Proof.
  destruct a; simpl; auto. intros _. apply round_ratio_not_NaN.
Qed.

Lemma div_pos_not_NaN (a : number) (y : Z) :
  isNaN a = false -> 0 < y -> isNaN (div a (Fin y)) = false.
Proof.
  intros Ha Hy. destruct a as [| | |x]; simpl; try discriminate.
  - destruct (y <? 0); reflexivity.
  - destruct (y <? 0); reflexivity.
  - destruct (Z.eqb_spec y 0); [lia|].
    destruct (0 <? y); apply round_ratio_not_NaN.
Qed.
End ExactFacts.

(** ** Per-area means *)

Section AreaMeanClaims.
Import EpochSelector LocalAreas Samples Statements.
Local Open Scope Z_scope.

Lemma fieldOr0_finite (item : option TrainingLogData)
      (field : TrainingLogData -> number) :
  (forall r, item = Some r -> field r <> PInf /\ field r <> NInf) ->
  isFinite (fieldOr0 item field) = true.
Proof.
  intros H. destruct item as [r|]; [|reflexivity].
  destruct (H r eq_refl) as [H1 H2]. unfold fieldOr0, or_else.
  destruct (field r) as [| | |k] eqn:E; simpl; try reflexivity;
    try congruence.
  destruct (k =? 0); reflexivity.
Qed.

Lemma getLocalAreaData_finite latest ty c :
  Forall (fun r => rel_abs_error r <> PInf /\ rel_abs_error r <> NInf)
         latest ->
  Forall (fun p => isFinite (Point.rel_abs_error p) = true)
         (dataPoints (getLocalAreaData latest ty c)).
Proof.
  intros Hfin. rewrite Forall_forall in *. intros p Hp.
  unfold getLocalAreaData in Hp. cbn [dataPoints] in Hp.
  apply filter_In in Hp. destruct Hp as [Hp _].
  apply in_map_iff in Hp. destruct Hp as [band [<- _]].
  cbn [Point.rel_abs_error]. apply fieldOr0_finite.
  intros r Hr. apply Hfin. unfold find_first in Hr.
  apply find_some in Hr. destruct Hr as [Hr _].
  apply filter_In in Hr. tauto.
Qed.

Lemma sum_finite_not_NaN (ps : list Point.DataPoint) :
  Forall (fun p => isFinite (Point.rel_abs_error p) = true) ps ->
  forall acc,
    isNaN acc = false ->
    isNaN (fold_left (fun sum point => add sum (Point.rel_abs_error point))
                     ps acc) = false.
Proof.
  induction 1 as [|p ps Hp _ IH]; intros acc Hacc; simpl; [exact Hacc|].
  apply IH. destruct (Point.rel_abs_error p); try discriminate.
  now apply add_Fin_not_NaN.
Qed.

Lemma dataPoints_length latest ty c :
  (length (dataPoints (getLocalAreaData latest ty c)) <= 8)%nat.
Proof.
  unfold getLocalAreaData. cbn [dataPoints].
  etransitivity; [apply filter_length_le|].
  rewrite length_map. destruct ty; simpl; lia.
Qed.

(** C3, amended.  The mean relative error of an area is never the
    result of a division by zero: over zero surviving points it is the
    value 0 that an explicit guard supplies; otherwise it is the sum of
    the points' relative errors divided by their positive number; and
    when no row has an infinite relative error it is never [NaN]. *)
Theorem area_mean_guarded (latest : list TrainingLogData)
        (analysisType : AnalysisType) (c : jsstring) :
  let a := getLocalAreaData latest analysisType c in
  (dataPoints a = [] -> avgRelError a = Fin 0) /\
  (dataPoints a <> [] ->
   avgRelError a =
     div (fold_left (fun sum point => add sum (Point.rel_abs_error point))
                    (dataPoints a) zero)
         (of_nat (length (dataPoints a))) /\
   of_nat (length (dataPoints a)) =
     Fin (Z.of_nat (length (dataPoints a)) * one_ulps) /\
   0 < Z.of_nat (length (dataPoints a))) /\
  (Forall (fun r => rel_abs_error r <> PInf /\ rel_abs_error r <> NInf)
          latest ->
   isNaN (avgRelError a) = false).
Proof.
  intros a.
  pose proof (dataPoints_length latest analysisType c) as Hlen.
  pose proof one_ulps_pos as HU.
  fold a in Hlen.
  assert (Havg : avgRelError a =
            if Nat.ltb 0 (length (dataPoints a)) then
              div (fold_left
                     (fun sum point => add sum (Point.rel_abs_error point))
                     (dataPoints a) zero)
                  (of_nat (length (dataPoints a)))
            else zero) by reflexivity.
  assert (Hof : of_nat (length (dataPoints a)) =
                Fin (Z.of_nat (length (dataPoints a)) * one_ulps)).
  { unfold of_nat. apply of_Z_exact. lia. }
  split; [|split].
  - intros E. rewrite Havg, E. reflexivity.
  - intros Hne. rewrite Havg.
    destruct (dataPoints a) as [|p ps]; [congruence|].
    split; [reflexivity|]. split; [exact Hof|]. simpl length. lia.
  - intros Hfin. rewrite Havg.
    destruct (Nat.ltb_spec 0 (length (dataPoints a))) as [Hpos|_];
      [|reflexivity].
    rewrite Hof. apply div_pos_not_NaN; [|nia].
    apply sum_finite_not_NaN; [|reflexivity].
    now apply getLocalAreaData_finite.
Qed.

Lemma area_mean_guarded_witness :
  let a := getLocalAreaData (latestData agePointsTable) age (lit "E1") in
  let b := getLocalAreaData (latestData agePointsTable) age (lit "E2") in
  avgRelError b = Fin 0 /\
  (avgRelError a =
     div (fold_left (fun sum point => add sum (Point.rel_abs_error point))
                    (dataPoints a) zero)
         (of_nat (length (dataPoints a))) /\
   of_nat (length (dataPoints a)) =
     Fin (Z.of_nat (length (dataPoints a)) * one_ulps) /\
   0 < Z.of_nat (length (dataPoints a))) /\
  isNaN (avgRelError a) = false.
Proof.
  intros a b.
  destruct (area_mean_guarded (latestData agePointsTable) age (lit "E1"))
    as [_ [H2 H3]].
  destruct (area_mean_guarded (latestData agePointsTable) age (lit "E2"))
    as [H1 _].
  split; [|split].
  - apply H1. vm_compute. reflexivity.
  - apply H2. vm_compute. discriminate.
  - apply H3.
    assert (E : latestData agePointsTable = agePointsTable)
      by (vm_compute; reflexivity).
    rewrite E. unfold agePointsTable.
    repeat constructor; vm_compute; discriminate.
Defined.
End AreaMeanClaims.

(** ** The order of numbers *)

Section OrderFacts.
Local Open Scope Z_scope.

Lemma gtb_true_leb (a b : number) :
  JsNumber.gtb a b = true -> JsNumber.leb b a = true.
Proof.
  destruct a, b; simpl; try discriminate; auto.
  unfold JsNumber.gtb. simpl. rewrite Z.ltb_lt, Z.leb_le. lia.
Qed.

Lemma gtb_false_leb (a b : number) :
  isNaN a = false -> isNaN b = false ->
  JsNumber.gtb a b = false -> JsNumber.leb a b = true.
Proof.
  destruct a, b; simpl; try discriminate; auto.
  unfold JsNumber.gtb. simpl. rewrite Z.ltb_ge, Z.leb_le. lia.
Qed.

Lemma leb_trans (a b c : number) :
  JsNumber.leb a b = true -> JsNumber.leb b c = true ->
  JsNumber.leb a c = true.
Proof.
  destruct a, b, c; simpl; try discriminate; auto.
  rewrite !Z.leb_le. lia.
Qed.
End OrderFacts.

(** ** Sorting by a numeric key *)

Section SortByKey.
Variable A : Type.
Variable key : A -> number.

Lemma insert_sorted (x : A) (l : list A) :
  isNaN (key x) = false ->
  Forall (fun a => isNaN (key a) = false) l ->
  StronglySorted (fun a b => JsNumber.leb (key a) (key b) = true) l ->
  StronglySorted (fun a b => JsNumber.leb (key a) (key b) = true)
    (insert (fun a b => JsNumber.gtb (sub (key a) (key b)) zero) x l).
Proof.
  intros Hx Hl Hs. induction l as [|y l IH]; cbn [insert].
  - repeat constructor.
  - inversion Hl as [|? ? Hy Hl']; subst.
    inversion Hs as [|? ? Hs' Hall]; subst.
    rewrite sub_gt_zero by assumption.
    destruct (JsNumber.gtb (key x) (key y)) eqn:E.
    + constructor; [now apply IH|].
      apply Forall_perm with (x :: l).
      * symmetry. apply insert_perm.
      * constructor; [now apply gtb_true_leb|exact Hall].
    + assert (Hxy : JsNumber.leb (key x) (key y) = true)
        by now apply gtb_false_leb.
      constructor; [exact Hs|].
      constructor; [exact Hxy|].
      eapply Forall_impl; [|exact Hall].
      intros z Hz. cbv beta in *. eapply leb_trans; eauto.
Qed.

Lemma sort_sorted (l : list A) :
  Forall (fun a => isNaN (key a) = false) l ->
  StronglySorted (fun a b => JsNumber.leb (key a) (key b) = true)
    (sort (fun a b => JsNumber.gtb (sub (key a) (key b)) zero) l).
Proof.
  induction 1 as [|x l Hx Hl IH]; cbn [sort]; [constructor|].
  apply insert_sorted; auto.
  apply Forall_perm with l; [|exact Hl].
  symmetry. apply sort_perm.
Qed.

Lemma StronglySorted_keys (l : list A) :
  StronglySorted (fun a b => JsNumber.leb (key a) (key b) = true) l ->
  StronglySorted (fun x y => JsNumber.leb x y = true) (List.map key l).
Proof.
  induction 1 as [|a l Hl IH Hall]; cbn [List.map]; constructor; auto.
  rewrite Forall_map. exact Hall.
Qed.
End SortByKey.

(** ** Band parsing and band series: the claims *)

Section BandClaims.
Import IncomeBands Samples Statements.
Local Open Scope Z_scope.

(** C2.  [parseBand] raises on a string that has the [income_band_]
    marker and a range without [_to_]: the second piece of the split is
    [undefined], and [replace] is called on it. *)
Theorem parseBand_throws_without_separator :
  parseBand (lit "hmrc/pension_income_band_3_10_000") = Throw TypeError /\
  parseBand (lit "income_band_1_5") = Throw TypeError.
Proof. vm_compute. auto. Qed.

(** Where the marker is absent the result is [null], the empty string and
    strings without underscores included. *)
Example parseBand_unstructured :
  parseBand [] = Normal None /\
  parseBand (lit "age") = Normal None /\
  parseBand (lit "hmrc/employment_income/amount/20000_30000") = Normal None.
Proof. vm_compute. auto. Qed.

Lemma Normal_inj (A : Type) (a b : A) : Normal a = Normal b -> a = b.
Proof. intros [= ->]. reflexivity. Qed.

Lemma pushBand_not55 bands item bands' :
  pushBand bands item = Normal bands' ->
  Forall not55 bands -> Forall not55 bands'.
Proof.
  unfold pushBand. destruct (parseBand (metric item)) as [[b|]|]; simpl;
    try discriminate; try (intros [= <-]; auto; fail).
  destruct (JsNumber.eqb (bandNumber b) lit_55) eqn:E; simpl;
    intros [= <-] H; auto.
  apply Forall_app. split; [exact H|]. repeat constructor. exact E.
Qed.

Lemma forEachBand_not55 items :
  forall bands out,
    forEachBand bands items = Normal out ->
    Forall not55 bands -> Forall not55 out.
Proof.
  induction items as [|item items IH]; intros bands out; simpl.
  - intros [= <-]. auto.
  - destruct (pushBand bands item) as [bands'|] eqn:E; simpl;
      [|discriminate].
    intros Hout Hb. apply (IH _ _ Hout).
    eapply pushBand_not55; eauto.
Qed.

(** C7, amended.  A band series that is returned never contains the
    band 55, and it is in ascending order of lower bound whenever every
    lower bound in it is a number. *)
Theorem bandsData_sorted_without_total
        (latest : list TrainingLogData) (selectedSource : jsstring)
        (metricType : MetricType) (bands : list Point.IncomeBandData) :
  bandsData latest selectedSource metricType = Normal bands ->
  Forall (fun p => JsNumber.eqb (bandNumber (Point.band p)) lit_55 = false)
         bands /\
  (Forall (fun x => isNaN x = false) (lowerBounds bands) ->
   StronglySorted num_le (lowerBounds bands)).
Proof.
  unfold bandsData. destruct selectedSource as [|c0 src].
  { intros [= <-]. split; [constructor|]. intros _. constructor. }
  destruct (forEachBand [] _) as [bs|] eqn:E; cbn [bind]; [|discriminate].
  intros H. apply Normal_inj in H. subst bands. split.
  - apply Forall_perm with bs.
    + symmetry. apply sort_perm.
    + apply (forEachBand_not55 _ _ _ E). constructor.
  - intros Hnum. unfold lowerBounds in *.
    apply (StronglySorted_keys _
             (fun p : Point.IncomeBandData => lowerBound (Point.band p))).
    apply (sort_sorted _
             (fun p : Point.IncomeBandData => lowerBound (Point.band p))).
    rewrite Forall_map in Hnum.
    eapply Forall_perm; [apply sort_perm|exact Hnum].
Qed.

Lemma bandsData_sorted_without_total_witness :
  exists bands,
    bandsData bandTable (lit "s") amount = Normal bands /\
    lowerBounds bands = [of_Z 0; of_Z 10000; of_Z 20000] /\
    Forall (fun p => JsNumber.eqb (bandNumber (Point.band p)) lit_55 = false)
           bands /\
    StronglySorted num_le (lowerBounds bands).
Proof.
  pose (bands := match bandsData bandTable (lit "s") amount with
                 | Normal b => b
                 | Throw _ => []
                 end).
  assert (E : bandsData bandTable (lit "s") amount = Normal bands)
    by (vm_compute; reflexivity).
  assert (Hlb : lowerBounds bands = [of_Z 0; of_Z 10000; of_Z 20000])
    by (vm_compute; reflexivity).
  exists bands. split; [exact E|]. split; [exact Hlb|].
  destruct (bandsData_sorted_without_total bandTable (lit "s") amount bands E)
    as [H55 Hsorted].
  split; [exact H55|]. apply Hsorted.
  rewrite Hlb. repeat (constructor; [vm_compute; reflexivity|]). constructor.
Defined.

Lemma not_sorted_before_NaN (a : number) (rest : list number) :
  ~ StronglySorted num_le (a :: NaN :: rest).
Proof.
  intros Hs. inversion Hs as [|? ? _ Hall]; subst.
  inversion Hall as [|? ? H _]; subst.
  unfold num_le in H. destruct a; discriminate.
Qed.

(** C7, as stated, fails: with a lower bound that is not a number in the
    series, the bound 5 is returned ahead of the bound 1. *)
Lemma bandsData_unsorted_with_NaN :
  exists bands,
    bandsData nanBandTable (lit "s") amount = Normal bands /\
    lowerBounds bands = [of_Z 5; NaN; of_Z 1] /\
    JsNumber.gtb (of_Z 5) (of_Z 1) = true /\
    ~ StronglySorted num_le (lowerBounds bands).
Proof.
  pose (bands := match bandsData nanBandTable (lit "s") amount with
                 | Normal b => b
                 | Throw _ => []
                 end).
  assert (E : bandsData nanBandTable (lit "s") amount = Normal bands)
    by (vm_compute; reflexivity).
  assert (Hlb : lowerBounds bands = [of_Z 5; NaN; of_Z 1])
    by (vm_compute; reflexivity).
  exists bands. split; [exact E|].
  split; [exact Hlb|]. split; [vm_compute; reflexivity|].
  rewrite Hlb. apply not_sorted_before_NaN.
Qed.
End BandClaims.

(** ** Prefixes, occurrences and splitting *)

Section PrefixFacts.

Lemma startsWith_app (p t : jsstring) : startsWith p (p ++ t) = true.
Proof.
  induction p as [|x p IH]; simpl; [reflexivity|].
  now rewrite N.eqb_refl.
Qed.

Lemma startsWith_elim (p s : jsstring) :
  startsWith p s = true -> exists t, s = p ++ t.
Proof.
  revert s. induction p as [|x p IH]; intros s; simpl.
  - intros _. now exists s.
  - destruct s as [|y s]; [discriminate|].
    rewrite andb_true_iff, N.eqb_eq. intros [-> H].
    destruct (IH s H) as [t ->]. now exists t.
Qed.

Lemma startsWith_common (a p s : jsstring) :
  startsWith (a ++ p) (a ++ s) = startsWith p s.
Proof.
  induction a as [|x a IH]; simpl; [reflexivity|].
  now rewrite N.eqb_refl.
Qed.

(** A prefix of the pattern is a prefix of the input. *)
Lemma startsWith_shorter (p q s : jsstring) :
  startsWith (p ++ q) s = true -> startsWith p s = true.
Proof.
  intros H. apply startsWith_elim in H. destruct H as [t ->].
  rewrite <- app_assoc. apply startsWith_app.
Qed.

(** A pattern no longer than [r] that heads [r ++ t] heads [r]. *)
Lemma startsWith_inside (p r t : jsstring) :
  startsWith p (r ++ t) = true -> (length p <= length r)%nat ->
  startsWith p r = true.
Proof.
  revert r. induction p as [|x p IH]; intros r; simpl; [reflexivity|].
  destruct r as [|y r]; simpl; [lia|].
  rewrite !andb_true_iff. intros [H1 H2] Hlen. split; [exact H1|].
  apply IH; [exact H2|lia].
Qed.

(** A pattern longer than [r] that heads [r ++ t] begins with [r], and
    what is left of it heads [t]. *)
Lemma startsWith_overlap (p r t : jsstring) :
  startsWith p (r ++ t) = true -> (length r <= length p)%nat ->
  r = firstn (length r) p /\ startsWith (skipn (length r) p) t = true.
Proof.
  revert p. induction r as [|y r IH]; intros p; simpl.
  - intros H _. split; [reflexivity|exact H].
  - destruct p as [|x p]; simpl; [lia|].
    rewrite andb_true_iff, N.eqb_eq. intros [-> H] Hlen.
    destruct (IH p H) as [E1 E2]; [lia|].
    split; [now f_equal|exact E2].
Qed.

Lemma includes_at (p a r : jsstring) :
  startsWith p r = true -> includes p (a ++ r) = true.
Proof.
  intros H. induction a as [|x a IH]; simpl.
  - destruct r; simpl in *; rewrite H; reflexivity.
  - rewrite IH. apply orb_true_r.
Qed.

Lemma endsWith_at (p a : jsstring) : endsWith p (a ++ p) = true.
Proof.
  unfold endsWith. rewrite rev_app_distr. apply startsWith_app.
Qed.

Lemma stripPrefix_app (p t : jsstring) : stripPrefix p (p ++ t) = Some t.
Proof.
  induction p as [|x p IH]; simpl; [reflexivity|].
  now rewrite N.eqb_refl.
Qed.

Lemma stripPrefix_none (p s : jsstring) :
  startsWith p s = false -> stripPrefix p s = None.
Proof.
  revert s. induction p as [|x p IH]; intros s; simpl; [discriminate|].
  destruct s as [|y s]; [reflexivity|].
  destruct (N.eqb x y); simpl; [apply IH|reflexivity].
Qed.

Lemma span_all (f : char -> bool) (a : jsstring) :
  Forall (fun c => f c = true) a -> span f a = (a, []).
Proof.
  induction 1 as [|c a Hc _ IH]; simpl; [reflexivity|].
  now rewrite Hc, IH.
Qed.

Lemma span_until (f : char -> bool) (a : jsstring) (c : char) (t : jsstring) :
  Forall (fun c => f c = true) a -> f c = false ->
  span f (a ++ c :: t) = (a, c :: t).
Proof.
  intros Ha Hc. induction Ha as [|x a Hx _ IH]; simpl.
  - now rewrite Hc.
  - now rewrite Hx, IH.
Qed.

(** *** [split] *)

Lemma split_go_skip (sep cur x b : jsstring) :
  split_go sep cur (x ++ b) (length x) = split_go sep cur b 0.
Proof.
  induction x as [|c x IH]; simpl; [|exact IH].
  destruct b; reflexivity.
Qed.

Lemma split_go_none (sep : jsstring) (b : jsstring) :
  (forall b1 b2, b = b1 ++ b2 -> startsWith sep b2 = false) ->
  forall cur, split_go sep cur b 0 = [rev cur ++ b].
Proof.
  induction b as [|c b IH]; intros H cur; simpl.
  - now rewrite app_nil_r.
  - assert (E : startsWith sep (c :: b) = false) by (apply (H []); reflexivity).
    rewrite E, IH.
    + simpl. now rewrite <- app_assoc.
    + intros b1 b2 ->. apply (H (c :: b1)). reflexivity.
Qed.

Lemma split_go_first (c : char) (tl a b : jsstring) :
  (forall a1 a2, a = a1 ++ a2 -> a2 <> [] ->
                 startsWith (c :: tl) (a2 ++ (c :: tl) ++ b) = false) ->
  forall cur,
    split_go (c :: tl) cur (a ++ (c :: tl) ++ b) 0
    = (rev cur ++ a) :: split_go (c :: tl) [] b 0.
Proof.
  induction a as [|x a IH]; intros H cur.
  - rewrite app_nil_r. cbn [app split_go].
    replace (startsWith (c :: tl) (c :: tl ++ b)) with true
      by (symmetry; apply (startsWith_app (c :: tl) b)).
    cbn [length Nat.pred]. now rewrite split_go_skip.
  - cbn [app split_go].
    assert (E : startsWith (c :: tl) (x :: a ++ (c :: tl) ++ b) = false).
    { apply (H [] (x :: a)); [reflexivity|discriminate]. }
    cbn [app] in E. rewrite E, IH.
    + simpl. now rewrite <- app_assoc.
    + intros a1 a2 -> Hne. apply (H (x :: a1)); [reflexivity|exact Hne].
Qed.
End PrefixFacts.

(** ** Decimal numerals *)

Section DecimalFacts.
Import Facet Statements.
Local Open Scope Z_scope.

Lemma digit_cases (d : Z) :
  0 <= d < 10 ->
  d = 0 \/ d = 1 \/ d = 2 \/ d = 3 \/ d = 4 \/ d = 5 \/ d = 6 \/ d = 7 \/
  d = 8 \/ d = 9.
Proof. lia. Qed.

Lemma digitChar_isDigit (d : Z) :
  0 <= d < 10 -> isDigit (digitChar d) = true.
Proof.
  intros H. apply digit_cases in H.
  repeat (destruct H as [->|H]; [reflexivity|]). subst. reflexivity.
Qed.

Lemma digitVal_digitChar (d : Z) :
  0 <= d < 10 -> digitVal (digitChar d) = d.
Proof.
  intros H. apply digit_cases in H.
  repeat (destruct H as [->|H]; [reflexivity|]). subst. reflexivity.
Qed.

Lemma digitsValue_snoc (ds : jsstring) (c : char) :
  digitsValue (ds ++ [c]) = digitsValue ds * 10 + digitVal c.
Proof. unfold digitsValue. now rewrite fold_left_app. Qed.

Lemma decimal_go_acc (fuel : nat) :
  forall n acc, decimal_go fuel n acc = decimal_go fuel n [] ++ acc.
Proof.
  induction fuel as [|f IH]; intros n acc; simpl; [reflexivity|].
  destruct (n / 10 =? 0); [reflexivity|].
  rewrite (IH _ (_ :: acc)), (IH _ [_]), <- app_assoc. reflexivity.
Qed.

Lemma decimal_go_digits (fuel : nat) :
  forall n, 0 <= n -> Forall (fun c => isDigit c = true)
                             (decimal_go fuel n []).
Proof.
  induction fuel as [|f IH]; intros n Hn; simpl; [constructor|].
  assert (Hd : isDigit (digitChar (n mod 10)) = true).
  { apply digitChar_isDigit. apply Z.mod_pos_bound. lia. }
  destruct (n / 10 =? 0); [now repeat constructor|].
  rewrite decimal_go_acc. apply Forall_app. split.
  - apply IH. apply Z.div_pos; lia.
  - now repeat constructor.
Qed.

Lemma decimal_go_value (fuel : nat) :
  forall n, 0 <= n < 2 ^ Z.of_nat fuel ->
            digitsValue (decimal_go fuel n []) = n.
Proof.
  induction fuel as [|f IH]; intros n Hn.
  - simpl in *. assert (n = 0) by lia. now subst.
  - cbn [decimal_go].
    assert (Hm : 0 <= n mod 10 < 10) by (apply Z.mod_pos_bound; lia).
    pose proof (Z.div_mod n 10 ltac:(lia)) as Hdm.
    destruct (Z.eqb_spec (n / 10) 0) as [E|E].
    + unfold digitsValue. simpl. rewrite digitVal_digitChar by exact Hm. lia.
    + rewrite decimal_go_acc, digitsValue_snoc, digitVal_digitChar
        by exact Hm.
      rewrite IH; [lia|].
      rewrite Nat2Z.inj_succ, Z.pow_succ_r in Hn by lia.
      split; [apply Z.div_pos; lia|].
      apply Z.div_lt_upper_bound; lia.
Qed.

Lemma decimal_digits (n : Z) :
  0 <= n -> Forall (fun c => isDigit c = true) (decimal n).
Proof. intros Hn. now apply decimal_go_digits. Qed.

Lemma decimal_value (n : Z) : 0 <= n -> digitsValue (decimal n) = n.
Proof.
  intros Hn. apply decimal_go_value. split; [exact Hn|].
  rewrite Nat2Z.inj_succ, Z2Nat.id by apply Z.log2_nonneg.
  destruct (Z.eq_dec n 0) as [->|Hz]; [reflexivity|].
  apply Z.log2_spec. lia.
Qed.

Lemma decimal_nonempty (n : Z) : decimal n <> [].
Proof.
  unfold decimal. cbn [decimal_go].
  destruct (n / 10 =? 0); [discriminate|].
  rewrite decimal_go_acc. intros E. apply app_eq_nil in E.
  destruct E as [_ E]. discriminate.
Qed.

(** *** Grouping *)

Lemma isGroupChar_digit (c : char) : isDigit c = true -> isGroupChar c = true.
Proof. intros H. unfold isGroupChar. now rewrite H. Qed.

Lemma digit_not_underscore (c : char) :
  isDigit c = true -> N.eqb c (ch "_") = false.
Proof.
  unfold isDigit. rewrite andb_true_iff, !N.leb_le. intros [H1 H2].
  apply N.eqb_neq. intros ->. vm_compute in H2. now apply H2.
Qed.

Lemma group3_step (a b c d : char) (rest : jsstring) :
  group3 (a :: b :: c :: d :: rest)
  = a :: b :: c :: ch "_" :: group3 (d :: rest).
Proof. reflexivity. Qed.

Lemma group3_facts (k : nat) :
  forall ds, (length ds <= k)%nat ->
    Forall (fun c => isDigit c = true) ds ->
    removeUnderscores (group3 ds) = ds /\
    Forall (fun c => isGroupChar c = true) (group3 ds) /\
    (ds <> [] -> group3 ds <> []).
Proof.
  induction k as [|k IH]; intros ds Hlen Hds.
  - destruct ds; [|simpl in Hlen; lia]. simpl. repeat split; auto.
  - destruct ds as [|a [|b [|c [|d rest]]]];
      try (cbn [group3]; split; [|split; [|auto]];
           [ unfold removeUnderscores;
             repeat match goal with
                    | H : Forall _ (_ :: _) |- _ => inversion H; clear H; subst
                    end;
             cbn [filter];
             repeat match goal with
                    | H : isDigit ?x = true |- _ =>
                        rewrite (digit_not_underscore x H); clear H
                    end; reflexivity
           | eapply Forall_impl; [|exact Hds];
             intros ? ?; now apply isGroupChar_digit ]).
    rewrite group3_step.
    inversion Hds as [|? ? Ha H1]; subst.
    inversion H1 as [|? ? Hb H2]; subst.
    inversion H2 as [|? ? Hc H3]; subst.
    destruct (IH (d :: rest)) as [E1 [E2 E3]]; [simpl in *; lia|exact H3|].
    remember (group3 (d :: rest)) as g eqn:Eg.
    split; [|split].
    + unfold removeUnderscores in *. cbn [filter].
      rewrite (digit_not_underscore a Ha), (digit_not_underscore b Hb),
        (digit_not_underscore c Hc).
      replace (N.eqb (ch "_") (ch "_")) with true by reflexivity.
      cbn [negb]. now rewrite E1.
    + repeat (constructor; [now apply isGroupChar_digit|]).
      constructor; [reflexivity|exact E2].
    + discriminate.
Qed.

Lemma grouped_plain (n : Z) :
  0 <= n -> removeUnderscores (grouped n) = decimal n.
Proof.
  intros Hn. unfold grouped, removeUnderscores. rewrite filter_rev.
  destruct (group3_facts (length (rev (decimal n))) (rev (decimal n)))
    as [E _]; [lia| |].
  - apply Forall_rev. now apply decimal_digits.
  - change (rev (removeUnderscores (group3 (rev (decimal n)))) = decimal n).
    rewrite E. apply rev_involutive.
Qed.

Lemma grouped_chars (n : Z) :
  0 <= n -> Forall (fun c => isGroupChar c = true) (grouped n).
Proof.
  intros Hn. unfold grouped. apply Forall_rev.
  destruct (group3_facts (length (rev (decimal n))) (rev (decimal n)))
    as [_ [E _]]; [lia| |exact E].
  apply Forall_rev. now apply decimal_digits.
Qed.

Lemma grouped_nonempty (n : Z) : 0 <= n -> grouped n <> [].
Proof.
  intros Hn. unfold grouped.
  destruct (group3_facts (length (rev (decimal n))) (rev (decimal n)))
    as [_ [_ E]]; [lia| |].
  - apply Forall_rev. now apply decimal_digits.
  - intros H. apply (f_equal (@rev char)) in H. rewrite rev_involutive in H.
    simpl in H. apply E; [|exact H].
    intros H'. apply (f_equal (@rev char)) in H'.
    rewrite rev_involutive in H'. now apply (decimal_nonempty n).
Qed.
End DecimalFacts.

(** ** Reading decimal numerals back *)

Section ReadingFacts.
Import Facet Statements.
Local Open Scope Z_scope.

Lemma digit_code_cases (c : N) :
  isDigit c = true ->
  (c = 48 \/ c = 49 \/ c = 50 \/ c = 51 \/ c = 52 \/ c = 53 \/ c = 54 \/
   c = 55 \/ c = 56 \/ c = 57)%N.
Proof.
  unfold isDigit. rewrite andb_true_iff, !N.leb_le. lia.
Qed.

(** Any computable property of the ten digits holds of every digit. *)
Lemma digit_property (f : char -> bool) (c : char) :
  forallb f [48; 49; 50; 51; 52; 53; 54; 55; 56; 57]%N = true ->
  isDigit c = true -> f c = true.
Proof.
  intros Hf Hc. rewrite forallb_forall in Hf. apply Hf.
  apply digit_code_cases in Hc. simpl. intuition auto.
Qed.

Lemma digit_head (c : char) :
  isDigit c = true ->
  isWhiteSpace c = false /\
  N.eqb c (ch "-") = false /\ N.eqb c (ch "+") = false /\
  N.eqb 73 c = false /\ N.eqb 120 c = false /\ N.eqb 88 c = false /\
  isLineTerminator c = false.
Proof.
  intros Hc.
  repeat split; apply negb_true_iff;
    refine (digit_property (fun c => negb _) c _ Hc); vm_compute; reflexivity.
Qed.

Lemma parseFloat_digits (ds : jsstring) :
  ds <> [] -> Forall (fun c => isDigit c = true) ds ->
  parseFloat ds = of_Z (digitsValue ds).
Proof.
  intros Hne Hds. destruct ds as [|c ds]; [congruence|].
  pose proof (span_all isDigit _ Hds) as Hspan.
  inversion Hds as [|? ? Hc _]; subst.
  destruct (digit_head c Hc) as [Hw [Hm [Hp [Hi _]]]].
  unfold parseFloat. cbn [trimStart]. rewrite Hw.
  unfold readSign. rewrite Hm, Hp.
  unfold readUnsigned.
  replace (lit "Infinity") with (73%N :: lit "nfinity") by reflexivity.
  cbn [startsWith]. rewrite Hi. cbn [andb].
  rewrite Hspan. cbn [readExponent length Z.of_nat].
  rewrite app_nil_r. unfold decimalValue.
  change (0 - 0) with 0. change (0 <=? 0) with true. cbv iota.
  unfold of_Z. f_equal. rewrite Z.pow_0_r. lia.
Qed.

Lemma parseInt_digits (ds : jsstring) :
  ds <> [] -> Forall (fun c => isDigit c = true) ds ->
  parseInt ds = of_Z (digitsValue ds).
Proof.
  intros Hne Hds. destruct ds as [|c ds]; [congruence|].
  pose proof (span_all isDigit _ Hds) as Hspan.
  inversion Hds as [|? ? Hc Hds']; subst.
  destruct (digit_head c Hc) as [Hw [Hm [Hp _]]].
  unfold parseInt. cbn [trimStart]. rewrite Hw.
  unfold readSign. rewrite Hm, Hp.
  assert (Hx : startsWith (lit "0x") (c :: ds)
               || startsWith (lit "0X") (c :: ds) = false).
  { replace (lit "0x") with [48%N; 120%N] by reflexivity.
    replace (lit "0X") with [48%N; 88%N] by reflexivity.
    destruct ds as [|c2 ds]; cbn [startsWith].
    - now rewrite !andb_false_r.
    - inversion Hds' as [|? ? Hc2 _]; subst.
      destruct (digit_head c2 Hc2) as [_ [_ [_ [_ [H1 [H2 _]]]]]].
      rewrite H1, H2. cbn [andb]. now rewrite !andb_false_r. }
  rewrite Hx, Hspan. unfold of_Z. f_equal. lia.
Qed.

Lemma parseFloat_grouped (n : Z) :
  0 <= n -> parseFloat (removeUnderscores (grouped n)) = of_Z n.
Proof.
  intros Hn. rewrite grouped_plain by exact Hn.
  rewrite parseFloat_digits.
  - now rewrite decimal_value.
  - apply decimal_nonempty.
  - now apply decimal_digits.
Qed.

Lemma parseInt_decimal (n : Z) : 0 <= n -> parseInt (decimal n) = of_Z n.
Proof.
  intros Hn. rewrite parseInt_digits.
  - now rewrite decimal_value.
  - apply decimal_nonempty.
  - now apply decimal_digits.
Qed.
End ReadingFacts.

(** ** The shape of a formatted metric *)

Section ShapeFacts.
Import IncomeBands Facet Statements.
Local Open Scope Z_scope.

Lemma formatMetric_shape source kind bandIndex lower upper :
  formatMetric source kind bandIndex lower upper
  = lit "hmrc/" ++ source ++ infixOf kind ++ lit "income_band_" ++
    decimal bandIndex ++ lit "_" ++ rangeText lower upper.
Proof.
  unfold formatMetric, rangeText, upperText, metricPrefix.
  destruct kind; rewrite <- !app_assoc; reflexivity.
Qed.

Lemma metricPrefix_shape source kind :
  metricPrefix source kind
  = lit "hmrc/" ++ source ++ infixOf kind ++ lit "income_band_".
Proof. destruct kind; reflexivity. Qed.

(** A group character is a digit or the underscore. *)
Lemma group_property (f : char -> bool) (c : char) :
  forallb f [48; 49; 50; 51; 52; 53; 54; 55; 56; 57; 95]%N = true ->
  isGroupChar c = true -> f c = true.
Proof.
  intros Hf Hc. unfold isGroupChar in Hc. apply orb_true_iff in Hc.
  destruct Hc as [Hc|Hc].
  - apply digit_property; [|exact Hc].
    simpl in Hf. rewrite !andb_true_iff in Hf. simpl.
    rewrite !andb_true_iff. tauto.
  - apply N.eqb_eq in Hc. subst c.
    simpl in Hf. rewrite !andb_true_iff in Hf. tauto.
Qed.

Lemma group_chars_plain (s : jsstring) :
  Forall (fun c => isGroupChar c = true) s ->
  noneOf 47%N s /\ noneOf 116%N s /\
  Forall (fun c => negb (isLineTerminator c) = true) s.
Proof.
  intros H. repeat split; eapply Forall_impl; try exact H;
    intros c Hc; cbv beta.
  - apply negb_true_iff.
    refine (group_property (fun c => negb (N.eqb 47%N c)) c _ Hc).
    vm_compute. reflexivity.
  - apply negb_true_iff.
    refine (group_property (fun c => negb (N.eqb 116%N c)) c _ Hc).
    vm_compute. reflexivity.
  - refine (group_property (fun c => negb (isLineTerminator c)) c _ Hc).
    vm_compute. reflexivity.
Qed.

Lemma upperText_plain (upper : option Z) :
  (forall u, upper = Some u -> 0 <= u) ->
  upperText upper <> [] /\
  noneOf 47%N (upperText upper) /\ noneOf 116%N (upperText upper) /\
  Forall (fun c => negb (isLineTerminator c) = true) (upperText upper).
Proof.
  intros H. destruct upper as [u|]; simpl.
  - split; [apply grouped_nonempty; now apply H|].
    apply group_chars_plain, grouped_chars. now apply H.
  - split; [discriminate|].
    repeat split; repeat constructor.
Qed.

Lemma rangeText_plain (lower : Z) (upper : option Z) :
  0 <= lower -> (forall u, upper = Some u -> 0 <= u) ->
  rangeText lower upper <> [] /\
  noneOf 47%N (rangeText lower upper) /\
  Forall (fun c => negb (isLineTerminator c) = true) (rangeText lower upper).
Proof.
  intros Hl Hu. unfold rangeText.
  destruct (upperText_plain upper Hu) as [_ [U1 [_ U3]]].
  destruct (group_chars_plain _ (grouped_chars lower Hl)) as [G1 [_ G3]].
  split; [|split].
  - intros E. apply app_eq_nil in E. destruct E as [E _].
    now apply (grouped_nonempty lower Hl).
  - unfold noneOf. rewrite !Forall_app. repeat split; auto.
    repeat constructor.
  - rewrite !Forall_app. repeat split; auto. repeat constructor.
Qed.

(** *** The band pattern *)

Lemma bandMatch_cons (c : char) (s : jsstring) :
  bandMatch (c :: s)
  = match bandMatchHere (c :: s) with
    | Some m => Some m
    | None => bandMatch s
    end.
Proof. reflexivity. Qed.

Lemma bandMatch_here (s : jsstring) (m : jsstring * jsstring) :
  bandMatchHere s = Some m -> bandMatch s = Some m.
Proof.
  intros H. destruct s as [|c s].
  - change (bandMatch [])
      with (match bandMatchHere [] with Some m => Some m | None => None end).
    now rewrite H.
  - now rewrite bandMatch_cons, H.
Qed.

Lemma bandMatch_skip (pre x : jsstring) :
  (forall p1 p2, pre = p1 ++ p2 -> p2 <> [] ->
                 startsWith (lit "income_band_") (p2 ++ x) = false) ->
  bandMatch (pre ++ x) = bandMatch x.
Proof.
  induction pre as [|c pre IH]; intros H; [reflexivity|].
  change ((c :: pre) ++ x) with (c :: pre ++ x). rewrite bandMatch_cons.
  assert (E : bandMatchHere (c :: pre ++ x) = None).
  { unfold bandMatchHere. rewrite stripPrefix_none; [reflexivity|].
    apply (H [] (c :: pre)); [reflexivity|discriminate]. }
  rewrite E. apply IH. intros p1 p2 -> Hne.
  apply (H (c :: p1)); [reflexivity|exact Hne].
Qed.

Lemma bandMatchHere_marker (n : Z) (body : jsstring) :
  0 <= n -> body <> [] ->
  Forall (fun c => negb (isLineTerminator c) = true) body ->
  bandMatchHere (lit "income_band_" ++ decimal n ++ lit "_" ++ body)
  = Some (decimal n, body).
Proof.
  intros Hn Hne Hbody. unfold bandMatchHere. rewrite stripPrefix_app.
  change (lit "_" ++ body) with (ch "_" :: body).
  rewrite (span_until isDigit (decimal n) (ch "_") body);
    [|now apply decimal_digits|reflexivity].
  destruct (decimal n) as [|d ds] eqn:E; [now apply decimal_nonempty in E|].
  rewrite N.eqb_refl.
  rewrite (span_all (fun c => negb (isLineTerminator c)) body Hbody).
  destruct body; [congruence|reflexivity].
Qed.

Lemma bandMatch_marker (n : Z) (body : jsstring) :
  0 <= n -> body <> [] ->
  Forall (fun c => negb (isLineTerminator c) = true) body ->
  bandMatch (lit "income_band_" ++ decimal n ++ lit "_" ++ body)
  = Some (decimal n, body).
Proof.
  intros Hn Hne Hbody. apply bandMatch_here.
  now apply bandMatchHere_marker.
Qed.
End ShapeFacts.

(** ** No earlier match *)

Section OverlapFacts.
Import IncomeBands Facet Statements.
Local Open Scope Z_scope.

Lemma suffix_cases (a b p1 p2 : jsstring) :
  a ++ b = p1 ++ p2 ->
  (exists a1 a2, a = a1 ++ a2 /\ a2 <> [] /\ p2 = a2 ++ b) \/
  (exists b1, b = b1 ++ p2).
Proof.
  revert p1. induction a as [|x a IH]; intros p1 H.
  - right. now exists p1.
  - destruct p1 as [|y p1].
    + left. exists [], (x :: a). repeat split; [discriminate|now symmetry].
    + injection H as -> H. destruct (IH p1 H) as [[a1 [a2 [-> [Hne ->]]]]|Hb].
      * left. exists (y :: a1), a2. repeat split; auto.
      * right. exact Hb.
Qed.

Lemma suffix_head_mismatch (x : char) (pt a a1 a2 t : jsstring) :
  noneOf x a -> a = a1 ++ a2 -> a2 <> [] ->
  startsWith (x :: pt) (a2 ++ t) = false.
Proof.
  intros Ha -> Hne. apply Forall_app in Ha. destruct Ha as [_ Ha].
  destruct a2 as [|y a2]; [congruence|].
  inversion Ha as [|? ? Hy _]; subst. cbn [app startsWith]. now rewrite Hy.
Qed.

(** The tail of each of the three patterns against the text that follows
    the source. *)
Lemma table_band (kind : MetricType) (k : nat) (tail : jsstring) :
  (1 <= k <= 10)%nat ->
  startsWith (skipn k (lit "income_band_"))
             (infixOf kind ++ lit "income_band_" ++ tail) = false.
Proof.
  intros Hk. destruct kind;
    do 11 (destruct k as [|k]; [first [lia|reflexivity]|]); lia.
Qed.

Lemma table_marker (kind : MetricType) (k : nat) (tail : jsstring) :
  (1 <= k <= 11)%nat ->
  startsWith (skipn k (lit "_income_band_"))
             (infixOf kind ++ lit "income_band_" ++ tail) = false.
Proof.
  intros Hk. destruct kind;
    do 12 (destruct k as [|k]; [first [lia|reflexivity]|]); lia.
Qed.

Lemma table_count_marker (kind : MetricType) (k : nat) (tail : jsstring) :
  (1 <= k <= 17)%nat -> (kind = amount -> k <> 6%nat) ->
  startsWith (skipn k (lit "_count_income_band_"))
             (infixOf kind ++ lit "income_band_" ++ tail) = false.
Proof.
  intros Hk H6. destruct kind;
    do 18 (destruct k as [|k];
           [first [lia|reflexivity|now specialize (H6 eq_refl)]|]); lia.
Qed.

Section Source.
Variable source : jsstring.
Variable kind : MetricType.
Variable tail : jsstring.
Hypothesis Hib : includes (lit "income_band") source = false.
Hypothesis Hcount :
  kind = amount -> endsWith (lit "_count") source = false.

Lemma source_suffix_long (pat after r s1 t : jsstring) :
  source = s1 ++ r ->
  startsWith (pat ++ lit "income_band" ++ after) (r ++ t) = true ->
  (length (pat ++ lit "income_band") <= length r)%nat ->
  False.
Proof.
  intros Hs E Hlen.
  rewrite app_assoc in E. apply startsWith_shorter in E.
  apply startsWith_inside in E; [|exact Hlen].
  apply startsWith_elim in E. destruct E as [u Hu].
  rewrite <- app_assoc in Hu.
  assert (Hin : includes (lit "income_band") source = true).
  { rewrite Hs, Hu, app_assoc. apply includes_at, startsWith_app. }
  congruence.
Qed.

Lemma no_band_in_source (s1 r : jsstring) :
  source = s1 ++ r -> r <> [] ->
  startsWith (lit "income_band_") (r ++ afterSource kind tail) = false.
Proof.
  intros Hs Hne.
  destruct (startsWith (lit "income_band_") (r ++ afterSource kind tail))
    eqn:E; [exfalso|reflexivity].
  destruct (le_lt_dec 11 (length r)) as [Hlen|Hlen].
  - apply (source_suffix_long [] (lit "_") r s1 (afterSource kind tail)
             Hs E).
    exact Hlen.
  - apply startsWith_overlap in E; [|simpl; lia]. destruct E as [_ E].
    unfold afterSource in E. rewrite table_band in E; [discriminate|].
    destruct r; [congruence|simpl in *; lia].
Qed.

Lemma no_marker_in_source (s1 r : jsstring) :
  source = s1 ++ r -> r <> [] ->
  markerHere (r ++ afterSource kind tail) = false.
Proof.
  intros Hs Hne. unfold markerHere. apply orb_false_iff.
  assert (Hr : (1 <= length r)%nat).
  { destruct r; [congruence|simpl; lia]. }
  split.
  - destruct (startsWith (lit "_count_income_band_")
                         (r ++ afterSource kind tail)) eqn:E;
      [exfalso|reflexivity].
    destruct (le_lt_dec 18 (length r)) as [Hlen|Hlen].
    + apply (source_suffix_long (lit "_count_") (lit "_") r s1
               (afterSource kind tail) Hs E).
      exact Hlen.
    + apply startsWith_overlap in E; [|simpl; lia]. destruct E as [E1 E].
      unfold afterSource in E. rewrite table_count_marker in E;
        [discriminate|lia|].
      intros Hk E6. rewrite E6 in E1.
      assert (Hend : endsWith (lit "_count") source = true).
      { rewrite Hs, E1. apply endsWith_at. }
      rewrite (Hcount Hk) in Hend. discriminate.
  - destruct (startsWith (lit "_income_band_")
                         (r ++ afterSource kind tail)) eqn:E;
      [exfalso|reflexivity].
    destruct (le_lt_dec 12 (length r)) as [Hlen|Hlen].
    + apply (source_suffix_long (lit "_") (lit "_") r s1
               (afterSource kind tail) Hs E).
      exact Hlen.
    + apply startsWith_overlap in E; [|simpl; lia]. destruct E as [_ E].
      unfold afterSource in E. rewrite table_marker in E; [discriminate|lia].
Qed.

(** The band pattern matches nowhere before the marker. *)
Lemma no_early_band (p1 p2 : jsstring) :
  lit "hmrc/" ++ source ++ infixOf kind = p1 ++ p2 -> p2 <> [] ->
  startsWith (lit "income_band_") (p2 ++ lit "income_band_" ++ tail) = false.
Proof.
  intros H Hne.
  change (lit "income_band_") with (105%N :: lit "ncome_band_") at 1.
  destruct (suffix_cases _ _ _ _ H) as [[a1 [a2 [Ha [Ha2 ->]]]]|[b1 Hb]].
  - rewrite <- app_assoc.
    apply (suffix_head_mismatch 105%N _ (lit "hmrc/") a1 a2); auto.
    repeat constructor.
  - destruct (suffix_cases _ _ _ _ Hb) as [[s1 [r [Hs [Hr ->]]]]|[b2 Hb2]].
    + rewrite <- app_assoc.
      change (105%N :: lit "ncome_band_") with (lit "income_band_").
      now apply (no_band_in_source s1 r).
    + apply (suffix_head_mismatch 105%N _ (infixOf kind) b2 p2); auto.
      destruct kind; repeat constructor.
Qed.
End Source.
End OverlapFacts.

(** ** Reading a formatted metric *)

Section RoundTripFacts.
Import IncomeBands Facet Statements.
Local Open Scope Z_scope.

Lemma sourceScan_eq (acc s : jsstring) :
  sourceScan acc s
  = if markerHere s then Some (rev acc)
    else match s with
         | [] => None
         | c :: s' =>
             if isLineTerminator c then None else sourceScan (c :: acc) s'
         end.
Proof. destruct s; reflexivity. Qed.

Lemma sourceScan_found (r t : jsstring) :
  (forall r1 r2, r = r1 ++ r2 -> r2 <> [] -> markerHere (r2 ++ t) = false) ->
  Forall (fun c => negb (isLineTerminator c) = true) r ->
  markerHere t = true ->
  forall acc, sourceScan acc (r ++ t) = Some (rev acc ++ r).
Proof.
  intros H Hr Ht. induction r as [|x r IH]; intros acc.
  - rewrite sourceScan_eq. cbn [app]. rewrite Ht. now rewrite app_nil_r.
  - rewrite sourceScan_eq.
    rewrite (H [] (x :: r)); [|reflexivity|discriminate].
    inversion Hr as [|? ? Hx Hr']; subst.
    apply negb_true_iff in Hx. cbn [app]. rewrite Hx.
    rewrite IH.
    + cbn [rev]. now rewrite <- app_assoc.
    + intros r1 r2 -> Hne. apply (H (x :: r1)); [reflexivity|exact Hne].
    + exact Hr'.
Qed.

Lemma split_slash (a b : jsstring) :
  noneOf 47%N a -> noneOf 47%N b ->
  split (lit "/") (a ++ lit "/" ++ b) = [a; b].
Proof.
  intros Ha Hb. unfold split. change (lit "/") with [47%N].
  rewrite (split_go_first 47%N [] a b).
  - rewrite split_go_none; [reflexivity|].
    intros b1 b2 ->. apply Forall_app in Hb. destruct Hb as [_ Hb].
    destruct b2 as [|y b2]; [reflexivity|].
    inversion Hb as [|? ? Hy _]; subst. cbn [startsWith]. now rewrite Hy.
  - intros a1 a2 E Hne. now apply (suffix_head_mismatch 47%N [] a a1 a2).
Qed.

(** [_to_] does not stand where the second code unit is not [t]. *)
Lemma no_to_here (x : char) (s : jsstring) :
  match s with [] => True | y :: _ => N.eqb 116 y = false end ->
  startsWith (lit "_to_") (x :: s) = false.
Proof.
  change (lit "_to_") with [95%N; 116%N; 111%N; 95%N].
  destruct s as [|y s]; cbn [startsWith].
  - intros _. apply andb_false_r.
  - intros ->. apply andb_false_r.
Qed.

Lemma split_to (a b : jsstring) :
  noneOf 116%N a -> noneOf 116%N b ->
  split (lit "_to_") (a ++ lit "_to_" ++ b) = [a; b].
Proof.
  intros Ha Hb. unfold split.
  change (lit "_to_") with (95%N :: [116%N; 111%N; 95%N]).
  rewrite (split_go_first 95%N [116%N; 111%N; 95%N] a b).
  - rewrite split_go_none; [reflexivity|].
    intros b1 b2 ->. apply Forall_app in Hb. destruct Hb as [_ Hb].
    destruct b2 as [|x b2]; [reflexivity|].
    apply no_to_here. inversion Hb as [|? ? _ Hb']; subst.
    destruct b2 as [|y b2]; [exact I|].
    now inversion Hb'.
  - intros a1 a2 -> Hne. apply Forall_app in Ha. destruct Ha as [_ Ha].
    destruct a2 as [|x a2]; [congruence|].
    apply no_to_here. inversion Ha as [|? ? _ Ha']; subst.
    destruct a2 as [|y a2]; [reflexivity|].
    now inversion Ha'.
Qed.

Section Tuple.
Variable source : jsstring.
Variable kind : MetricType.
Variables bandIndex lower : Z.
Variable upper : option Z.
Hypothesis Hne : source <> [].
Hypothesis Hslash : noneOf 47%N source.
Hypothesis Hline :
  Forall (fun c => negb (isLineTerminator c) = true) source.
Hypothesis Hib : includes (lit "income_band") source = false.
Hypothesis Hcount :
  kind = amount -> endsWith (lit "_count") source = false.
Hypothesis Hband : 0 <= bandIndex.
Hypothesis Hlower : 0 <= lower.
Hypothesis Hupper : forall u, upper = Some u -> 0 <= u.

Lemma bandText_plain : noneOf 47%N (bandText bandIndex lower upper).
Proof.
  unfold bandText, noneOf. rewrite !Forall_app.
  destruct (rangeText_plain lower upper Hlower Hupper) as [_ [R _]].
  destruct (group_chars_plain (decimal bandIndex)) as [D _].
  { eapply Forall_impl; [|apply decimal_digits; exact Hband].
    intros c Hc. now apply isGroupChar_digit. }
  repeat split; auto. repeat constructor.
Qed.

Lemma formatted_source :
  sourceOfMetric (formatMetric source kind bandIndex lower upper) = Some source.
Proof.
  unfold sourceOfMetric. rewrite formatMetric_shape.
  fold (bandText bandIndex lower upper).
  assert (Hin : includes (lit "income_band_")
                  (lit "hmrc/" ++ source ++ infixOf kind ++
                   lit "income_band_" ++ bandText bandIndex lower upper)
                = true).
  { rewrite !app_assoc, <- app_assoc. apply includes_at, startsWith_app. }
  rewrite Hin.
  change (lit "hmrc/") with (lit "hmrc" ++ lit "/").
  rewrite <- app_assoc, split_slash.
  - cbn [length Nat.leb nth_error].
    destruct source as [|c src] eqn:Es; [congruence|].
    inversion Hline as [|? ? Hc Hsrc]; subst.
    apply negb_true_iff in Hc.
    cbn [app sourceMatch]. rewrite Hc.
    rewrite sourceScan_found; [reflexivity| |exact Hsrc|].
    + intros r1 r2 E Hr2.
      apply (no_marker_in_source (c :: src) kind
               (bandText bandIndex lower upper) Hib Hcount (c :: r1) r2);
        [now rewrite E|exact Hr2].
    + destruct kind; reflexivity.
  - repeat constructor.
  - unfold noneOf. rewrite !Forall_app. repeat split; auto.
    + destruct kind; repeat constructor.
    + repeat constructor.
    + apply bandText_plain.
Qed.

Lemma formatted_kind :
  kindOfMetric source (formatMetric source kind bandIndex lower upper)
  = Some kind.
Proof.
  unfold kindOfMetric, formatMetric.
  destruct kind.
  - now rewrite startsWith_app.
  - assert (E : startsWith (metricPrefix source amount)
                  (metricPrefix source count ++ decimal bandIndex ++
                   lit "_" ++ grouped lower ++ lit "_to_" ++
                   match upper with
                   | Some u => grouped u
                   | None => lit "inf"
                   end) = false).
    { unfold metricPrefix. rewrite <- !app_assoc.
      rewrite !startsWith_common. reflexivity. }
    rewrite E. now rewrite startsWith_app.
Qed.

Lemma formatted_match :
  bandMatch (formatMetric source kind bandIndex lower upper)
  = Some (decimal bandIndex, rangeText lower upper).
Proof.
  rewrite formatMetric_shape.
  replace (lit "hmrc/" ++ source ++ infixOf kind ++ lit "income_band_" ++
           decimal bandIndex ++ lit "_" ++ rangeText lower upper)
    with ((lit "hmrc/" ++ source ++ infixOf kind) ++
          lit "income_band_" ++ decimal bandIndex ++ lit "_" ++
          rangeText lower upper)
    by (now rewrite <- !app_assoc).
  rewrite bandMatch_skip.
  - destruct (rangeText_plain lower upper Hlower Hupper) as [R1 [_ R3]].
    now apply bandMatch_marker.
  - intros p1 p2 E Hp2.
    eapply no_early_band; eauto.
Qed.

Lemma formatted_band :
  parseBand (formatMetric source kind bandIndex lower upper)
  = Normal (Some (bandOf bandIndex lower upper)).
Proof.
  unfold parseBand. rewrite formatted_match.
  assert (Hsplit : split (lit "_to_") (rangeText lower upper)
                   = [grouped lower; upperText upper]).
  { destruct (upperText_plain upper Hupper) as [_ [_ [U _]]].
    destruct (group_chars_plain _ (grouped_chars lower Hlower))
      as [_ [G _]].
    unfold rangeText. now apply split_to. }
  rewrite Hsplit.
  cbn [nth_error deref bind].
  rewrite parseFloat_grouped, parseInt_decimal by assumption.
  unfold bandOf. destruct upper as [u|]; cbn [upperText strictEq option_map].
  - assert (E : JsString.eqb (grouped u) (lit "inf") = false).
    { destruct (JsString.eqb (grouped u) (lit "inf")) eqn:E; [|reflexivity].
      apply jsstring_eqb_eq in E.
      pose proof (grouped_chars u (Hupper u eq_refl)) as Hg.
      rewrite E in Hg. change (lit "inf") with [105%N; 110%N; 102%N] in Hg.
      inversion Hg as [|? ? Hi _]; subst. discriminate. }
    rewrite E. cbn [deref bind].
    rewrite parseFloat_grouped by (now apply Hupper). reflexivity.
  - reflexivity.
Qed.

Lemma formatted_metric : roundTrip source kind bandIndex lower upper.
Proof.
  unfold roundTrip, parseMetric.
  rewrite formatted_source, formatted_kind, formatted_band. reflexivity.
Qed.
End Tuple.
End RoundTripFacts.

(** ** Banded metrics: the round trip *)

Section RoundTripClaims.
Import IncomeBands Facet Statements Samples.
Local Open Scope Z_scope.

(** A band index of 32 bits other than 55 is not taken for the total
    band. *)
Lemma bandIndex_not_55 (n : Z) :
  0 <= n < 2 ^ 32 -> n <> 55 -> JsNumber.eqb (of_Z n) lit_55 = false.
Proof.
  intros Hn H55. rewrite of_Z_exact by lia.
  unfold lit_55, JsNumber.eqb. fold one_ulps.
  pose proof one_ulps_pos. apply Z.eqb_neq. nia.
Qed.

(** C5, amended.  Let the source be non-empty, free of [/] and of line
    terminators, without the substring [income_band] and, for the amount
    kind, not ending in [_count]; let the band index be a 32-bit integer
    other than 55 and the bounds non-negative integers.  Then the metric
    string formatted from the tuple is read back as the tuple (the
    source, the kind, the band index and both bounds, finite or open),
    and a row that carries it yields exactly that band in the series of
    this source and kind. *)
Theorem banded_round_trip
        (source : jsstring) (kind : MetricType) (bandIndex lower : Z)
        (upper : option Z) (item : TrainingLogData) :
  source <> [] ->
  noneOf 47%N source ->
  Forall (fun c => negb (isLineTerminator c) = true) source ->
  includes (lit "income_band") source = false ->
  (kind = amount -> endsWith (lit "_count") source = false) ->
  0 <= bandIndex < 2 ^ 32 ->
  bandIndex <> 55 ->
  0 <= lower ->
  (forall u, upper = Some u -> 0 <= u) ->
  metric item = formatMetric source kind bandIndex lower upper ->
  roundTrip source kind bandIndex lower upper /\
  bandsData [item] source kind
  = Normal [ {| Point.band := bandOf bandIndex lower upper;
                Point.estimate := estimate item;
                Point.target := target item;
                Point.error := error item;
                Point.rel_abs_error := rel_abs_error item |} ].
Proof.
  intros Hne Hslash Hline Hib Hcount Hband H55 Hlower Hupper Hitem.
  assert (Hb : 0 <= bandIndex) by lia.
  split.
  - now apply formatted_metric.
  - unfold bandsData. destruct source as [|c src] eqn:Es; [congruence|].
    rewrite <- Es in *. cbn [filter]. rewrite Hitem.
    unfold formatMetric at 1. rewrite startsWith_app.
    cbn [forEachBand bind]. unfold pushBand. rewrite Hitem.
    rewrite formatted_band by assumption.
    cbn [bind]. unfold bandOf at 1. cbn [bandNumber].
    rewrite bandIndex_not_55 by assumption.
    reflexivity.
Qed.

Lemma banded_round_trip_witness :
  roundTrip (lit "pension") amount 3 10000 (Some 20000) /\
  bandsData [pensionRow] (lit "pension") amount
  = Normal [ {| Point.band := bandOf 3 10000 (Some 20000);
                Point.estimate := estimate pensionRow;
                Point.target := target pensionRow;
                Point.error := error pensionRow;
                Point.rel_abs_error := rel_abs_error pensionRow |} ].
Proof.
  apply (banded_round_trip (lit "pension") amount 3 10000 (Some 20000)
                           pensionRow).
  - discriminate.
  - repeat constructor.
  - repeat constructor.
  - reflexivity.
  - reflexivity.
  - lia.
  - lia.
  - lia.
  - intros u [= <-]. lia.
  - vm_compute. reflexivity.
Defined.

(** C5, as stated, fails: the amount metric of the source [x_count] is
    the very string of the count metric of the source [x], and it is
    read as the latter. *)
Lemma round_trip_fails_on_count_suffix :
  formatMetric (lit "x_count") amount 1 0 (Some 10)
  = formatMetric (lit "x") count 1 0 (Some 10) /\
  parseMetric (formatMetric (lit "x_count") amount 1 0 (Some 10))
  = Normal (Some (lit "x", count, bandOf 1 0 (Some 10))) /\
  ~ roundTrip (lit "x_count") amount 1 0 (Some 10).
Proof.
  assert (E : parseMetric (formatMetric (lit "x_count") amount 1 0 (Some 10))
              = Normal (Some (lit "x", count, bandOf 1 0 (Some 10))))
    by (vm_compute; reflexivity).
  split; [vm_compute; reflexivity|]. split; [exact E|].
  unfold roundTrip. rewrite E. intros H.
  assert (K : count = amount).
  { exact (f_equal
             (fun r : completion (option (jsstring * MetricType * IncomeBand))
              => match r with
                 | Normal (Some (_, k, _)) => k
                 | _ => amount
                 end) H). }
  discriminate.
Qed.

(** The scenario of the specification. *)
Example pension_scenario :
  parseMetric (lit "hmrc/pension_income_band_3_10_000_to_20_000")
  = Normal (Some (lit "pension", amount,
                  {| bandNumber := of_Z 3;
                     range := lit "10_000_to_20_000";
                     lowerBound := of_Z 10000;
                     upperBound := Some (of_Z 20000) |})).
Proof. vm_compute. reflexivity. Qed.
End RoundTripClaims.

(** ** The size of the selection *)

Section SelectionSize.
Import EpochSelector.

Lemma filter_index_or (A : Type) (g h : A -> nat -> bool) (l : list A) :
  forall i,
    length (filter_index (fun x j => g x j || h x j) i l)
    <= length (filter_index g i l) + length (filter_index h i l).
Proof.
  induction l as [|x l IH]; intros i; simpl; [lia|].
  specialize (IH (S i)).
  destruct (g x i), (h x i); simpl; lia.
Qed.

(** Multiples of [step] below [k]. *)
Lemma multiples_step (step k : nat) :
  0 < step ->
  (k + step) / step
  = (k + step - 1) / step + (if Nat.eqb (k mod step) 0 then 1 else 0).
Proof.
  intros Hs.
  pose proof (Nat.div_mod_eq k step) as Hk.
  pose proof (Nat.mod_upper_bound k step ltac:(lia)) as Hr.
  set (q := k / step) in *. set (r := k mod step) in *.
  replace (k + step) with (r + (q + 1) * step) by nia.
  rewrite Nat.div_add, (Nat.div_small r step) by lia.
  destruct (Nat.eqb_spec r 0) as [E|E].
  - replace (r + (q + 1) * step - 1) with ((step - 1) + q * step) by nia.
    rewrite Nat.div_add, Nat.div_small by lia. lia.
  - replace (r + (q + 1) * step - 1) with ((r - 1) + (q + 1) * step) by nia.
    rewrite Nat.div_add, Nat.div_small by lia. lia.
Qed.

Lemma filter_index_multiples (A : Type) (step : nat) (l : list A) :
  0 < step ->
  forall i,
    length (filter_index (fun _ j => Nat.eqb (j mod step) 0) i l)
    + (i + step - 1) / step
    = (i + length l + step - 1) / step.
Proof.
  intros Hs. induction l as [|x l IH]; intros i; simpl.
  - now rewrite Nat.add_0_r.
  - specialize (IH (S i)).
    replace (S i + length l + step - 1) with (i + S (length l) + step - 1)
      in IH by lia.
    rewrite <- IH.
    replace (S i + step - 1) with (i + step) by lia.
    rewrite (multiples_step step i Hs).
    destruct (Nat.eqb (i mod step) 0); simpl; lia.
Qed.

Lemma filter_index_lookup (all l pre : list Z) (mx : Z) :
  all = pre ++ l ->
  filter_index
    (fun _ j => match nth_error all j with
                | Some e => Z.eqb e mx
                | None => false
                end) (length pre) l
  = filter (fun e => Z.eqb e mx) l.
Proof.
  revert pre. induction l as [|x l IH]; intros pre Hall; simpl;
    [reflexivity|].
  assert (E : nth_error all (length pre) = Some x).
  { rewrite Hall, nth_error_app2, Nat.sub_diag by lia. reflexivity. }
  rewrite E.
  assert (IH' : filter_index
                  (fun _ j => match nth_error all j with
                              | Some e => Z.eqb e mx
                              | None => false
                              end) (S (length pre)) l
                = filter (fun e => Z.eqb e mx) l).
  { replace (S (length pre)) with (length (pre ++ [x]))
      by (rewrite length_app; simpl; lia).
    apply IH. rewrite Hall, <- app_assoc. reflexivity. }
  rewrite IH'. reflexivity.
Qed.

Lemma NoDup_filter_eq (l : list Z) (mx : Z) :
  NoDup l -> length (filter (fun e => Z.eqb e mx) l) <= 1.
Proof.
  induction 1 as [|x l Hx Hl IH]; simpl; [lia|].
  destruct (Z.eqb_spec x mx) as [->|Hneq]; [|exact IH].
  assert (E : filter (fun e => Z.eqb e mx) l = []).
  { clear IH Hl. induction l as [|y l IHl]; simpl; [reflexivity|].
    destruct (Z.eqb_spec y mx) as [->|_].
    - exfalso. apply Hx. now left.
    - apply IHl. intros H. apply Hx. now right. }
  rewrite E. simpl. lia.
Qed.

Lemma allEpochs_NoDup (data : list TrainingLogData) : NoDup (allEpochs data).
Proof.
  unfold allEpochs. eapply Permutation_NoDup.
  - symmetry. apply sort_perm.
  - apply uniq_NoDup. apply Z.eqb_eq.
Qed.

(** Below 200 distinct epochs the step is 1 and nothing is dropped. *)
Lemma selectedEpochs_all (data : list TrainingLogData) :
  length (allEpochs data) < 200 -> selectedEpochs data = allEpochs data.
Proof.
  intros Hn. unfold selectedEpochs.
  assert (Hstep : epochStep data = 1).
  { unfold epochStep.
    assert (length (allEpochs data) / 100 <= 1)
      by (apply Nat.lt_succ_r, Nat.Div0.div_lt_upper_bound; lia).
    lia. }
  rewrite Hstep. apply filter_index_all. intros x j.
  rewrite Nat.mod_1_r. reflexivity.
Qed.

(** What the code does bound: at most 199 epochs are selected, whatever
    the table. *)
Lemma selectedEpochs_bound (data : list TrainingLogData) :
  length (selectedEpochs data) <= 199.
Proof.
  destruct (Nat.lt_ge_cases (length (allEpochs data)) 200) as [Hn|Hn].
  - rewrite selectedEpochs_all by exact Hn. lia.
  - unfold selectedEpochs.
    set (all := allEpochs data) in *. set (step := epochStep data).
    assert (Hstep : step = length all / 100 /\ 2 <= step).
    { unfold step, epochStep. fold all.
      assert (2 <= length all / 100)
        by (apply Nat.div_le_lower_bound; lia).
      lia. }
    destruct Hstep as [Hstep H2].
    etransitivity; [apply filter_index_or|].
    pose proof (filter_index_multiples Z step all ltac:(lia) 0) as Hm.
    pose proof (filter_index_lookup all all [] (maxEpoch data) eq_refl)
      as Hl.
    cbn [length] in Hl. rewrite Hl.
    pose proof (NoDup_filter_eq all (maxEpoch data) (allEpochs_NoDup data))
      as H1.
    assert (Hc : (0 + length all + step - 1) / step < 151).
    { apply Nat.Div0.div_lt_upper_bound.
      pose proof (Nat.div_mod_eq (length all) 100) as Hd.
      pose proof (Nat.mod_upper_bound (length all) 100 ltac:(lia)).
      rewrite <- Hstep in Hd. lia. }
    lia.
Qed.
End SelectionSize.

(** ** When band parsing raises *)

Section ThrowFacts.
Import IncomeBands.

Lemma split_go_nonempty (sep s : jsstring) :
  forall cur k, split_go sep cur s k <> [].
Proof.
  induction s as [|c s IH]; intros cur k; simpl; [discriminate|].
  destruct k; [|apply IH].
  destruct (startsWith sep (c :: s)); [discriminate|apply IH].
Qed.

(** The split has a second piece exactly when the separator occurs. *)
Lemma split_second (c : char) (tl s : jsstring) :
  nth_error (split (c :: tl) s) 1 = None <->
  includes (c :: tl) s = false.
Proof.
  unfold split. generalize (@nil char) as cur.
  induction s as [|x s IH]; intros cur.
  - simpl. tauto.
  - cbn [split_go includes].
    destruct (startsWith (c :: tl) (x :: s)) eqn:E; cbn [orb].
    + cbn [nth_error].
      destruct (split_go (c :: tl) [] s (Nat.pred (length (c :: tl))))
        eqn:Eg; [now apply split_go_nonempty in Eg|].
      simpl. split; discriminate.
    + apply IH.
Qed.

Lemma split_first_piece (sep s : jsstring) :
  exists l, nth_error (split sep s) 0 = Some l.
Proof.
  unfold split. destruct (split_go sep [] s 0) as [|l ps] eqn:E.
  - now apply split_go_nonempty in E.
  - now exists l.
Qed.

(** X12.  [parseBand] raises exactly on the strings in which the band pattern
    matches and the range it captures has no [_to_]; on every other
    string it returns, [null] when the pattern does not match. *)
Lemma parseBand_throws_iff (bandString : jsstring) :
  parseBand bandString = Throw TypeError <->
  exists m1 m2,
    bandMatch bandString = Some (m1, m2) /\
    includes (lit "_to_") m2 = false.
Proof.
  unfold parseBand.
  destruct (bandMatch bandString) as [[m1 m2]|].
  - destruct (split_first_piece (lit "_to_") m2) as [l Hl]. rewrite Hl.
    cbn [deref bind].
    pose proof (split_second 95%N [116%N; 111%N; 95%N] m2) as Hs.
    change (95%N :: [116%N; 111%N; 95%N]) with (lit "_to_") in Hs.
    destruct (nth_error (split (lit "_to_") m2) 1) as [u|].
    + split.
      * cbn [strictEq deref bind].
        destruct (JsString.eqb u (lit "inf")); discriminate.
      * intros [n1 [n2 [[= <- <-] Hinc]]].
        apply Hs in Hinc. discriminate.
    + split.
      * intros _. exists m1, m2. split; [reflexivity|]. now apply Hs.
      * intros _. reflexivity.
  - split; [discriminate|]. intros [m1 [m2 [H _]]]. discriminate.
Qed.

Lemma parseBand_unmarked (bandString : jsstring) :
  bandMatch bandString = None -> parseBand bandString = Normal None.
Proof. intros H. unfold parseBand. now rewrite H. Qed.
End ThrowFacts.

(* ================================================================= *)
(** * Further properties of the components *)

(** ** Sorting with a total comparator *)

Lemma StronglySorted_weaken (A : Type) (R R' : A -> A -> Prop) (l : list A) :
  (forall a b, R a b -> R' a b) ->
  StronglySorted R l -> StronglySorted R' l.
Proof.
  intros H. induction 1 as [|x l Hl IH Hall]; constructor; auto.
  eapply Forall_impl; [|exact Hall]. intros b. apply H.
Qed.

Section SortTotal.
Variable A : Type.
Variable gt : A -> A -> bool.
Hypothesis gt_asym : forall a b, gt a b = true -> gt b a = false.
Hypothesis le_trans :
  forall a b c, gt a b = false -> gt b c = false -> gt a c = false.

Lemma insert_sorted_total (x : A) (l : list A) :
  StronglySorted (fun a b => gt a b = false) l ->
  StronglySorted (fun a b => gt a b = false) (insert gt x l).
Proof.
  intros Hs. induction l as [|y l IH]; cbn [insert].
  - repeat constructor.
  - inversion Hs as [|? ? Hs' Hall]; subst.
    destruct (gt x y) eqn:E.
    + constructor; [now apply IH|].
      apply Forall_perm with (x :: l).
      * symmetry. apply insert_perm.
      * constructor; [now apply gt_asym|exact Hall].
    + constructor; [exact Hs|].
      constructor; [exact E|].
      eapply Forall_impl; [|exact Hall].
      intros z Hz. cbv beta in *. eapply le_trans; eauto.
Qed.

Lemma sort_sorted_total (l : list A) :
  StronglySorted (fun a b => gt a b = false) (sort gt l).
Proof.
  induction l as [|x l IH]; cbn [sort]; [constructor|].
  now apply insert_sorted_total.
Qed.
End SortTotal.

Section SortByInteger.
Variable A : Type.
Variable key : A -> Z.
Local Open Scope Z_scope.

(** [sort((a, b) => key a - key b)] is in ascending order of the key. *)
Lemma sort_by_integer (l : list A) :
  StronglySorted (fun a b => key a <= key b)
                 (sort (fun a b => 0 <? key a - key b) l).
Proof.
  apply StronglySorted_weaken
    with (R := fun a b => (0 <? key a - key b) = false).
  - intros a b. rewrite Z.ltb_ge. lia.
  - apply (sort_sorted_total A (fun a b => 0 <? key a - key b)).
    + intros a b. rewrite Z.ltb_lt, Z.ltb_ge. lia.
    + intros a b c. rewrite !Z.ltb_ge. lia.
Qed.
End SortByInteger.

(** ** Epoch selection, further *)

Section EpochExtras.
Import EpochSelector Samples.
Local Open Scope Z_scope.

Lemma allEpochs_ascending (data : list TrainingLogData) :
  StronglySorted Z.lt (allEpochs data).
Proof.
  pose proof (allEpochs_NoDup data) as Hnd.
  assert (Hle : StronglySorted Z.le (allEpochs data)).
  { unfold allEpochs. apply (sort_by_integer Z (fun e => e)). }
  revert Hnd Hle. generalize (allEpochs data) as l.
  induction l as [|x l IH]; intros Hnd Hle; constructor.
  - inversion Hnd; inversion Hle; subst. now apply IH.
  - inversion Hnd as [|? ? Hx _]; inversion Hle as [|? ? _ Hall]; subst.
    rewrite Forall_forall in *. intros y Hy.
    specialize (Hall y Hy).
    assert (x <> y) by (intros ->; contradiction). lia.
Qed.

Lemma filter_index_sorted (A : Type) (R : A -> A -> Prop)
      (f : A -> nat -> bool) (l : list A) :
  StronglySorted R l -> forall i, StronglySorted R (filter_index f i l).
Proof.
  induction 1 as [|x l Hl IH Hall]; intros i; simpl; [constructor|].
  destruct (f x i); [|apply IH].
  constructor; [apply IH|].
  rewrite Forall_forall in *. intros y Hy. apply Hall.
  now apply filter_index_incl in Hy.
Qed.

(** X1.  The selection never holds more than 199 epochs, nor more than there
    are. *)
Theorem selection_size (data : list TrainingLogData) :
  (length (selectedEpochs data) <= 199)%nat /\
  (length (selectedEpochs data) <= length (allEpochs data))%nat.
Proof.
  split; [apply selectedEpochs_bound|].
  unfold selectedEpochs. apply filter_index_length.
Qed.

(** X2.  With fewer than 200 distinct epochs nothing is dropped: the selection
    is the list of all epochs and the filtered table is the table. *)
Theorem no_downsampling_below_200 (data : list TrainingLogData) :
  (length (allEpochs data) < 200)%nat ->
  selectedEpochs data = allEpochs data /\ filteredData data = data.
Proof.
  intros Hn. pose proof (selectedEpochs_all data Hn) as Hsel.
  split; [exact Hsel|].
  unfold filteredData. rewrite Hsel.
  apply forallb_filter_id. apply forallb_forall. intros r Hr.
  apply existsb_exists. exists (epoch r). split; [|apply Z.eqb_refl].
  apply allEpochs_In. now exists r.
Qed.

Lemma no_downsampling_below_200_witness :
  selectedEpochs threeEpochs = allEpochs threeEpochs /\
  filteredData threeEpochs = threeEpochs.
Proof.
  apply (no_downsampling_below_200 threeEpochs).
  vm_compute. lia.
Defined.

(** X3.  Downsampling never costs a row of the latest epoch: the latest rows
    are the rows of the table at [maxEpoch], whatever the step. *)
Theorem latest_rows_survive_downsampling (data : list TrainingLogData) :
  latestData data = filter (fun r => epoch r =? maxEpoch data) data.
Proof.
  unfold latestData, filteredData.
  set (mx := maxEpoch data). set (sel := selectedEpochs data).
  assert (H : forall x, In x data -> epoch x = mx ->
                        existsb (Z.eqb (epoch x)) sel = true).
  { intros x Hx Hm. apply existsb_exists. exists (epoch x).
    split; [|apply Z.eqb_refl].
    rewrite Hm. apply selected_of_max, allEpochs_In. now exists x. }
  clearbody mx sel. revert H.
  induction data as [|x l IH]; intros H; [reflexivity|].
  cbn [filter].
  destruct (Z.eqb_spec (epoch x) mx) as [E|E].
  - rewrite (H x (or_introl eq_refl) E). cbn [filter].
    destruct (Z.eqb_spec (epoch x) mx); [|contradiction].
    f_equal. apply IH. intros y Hy. apply H. now right.
  - destruct (existsb (Z.eqb (epoch x)) sel); cbn [filter].
    + destruct (Z.eqb_spec (epoch x) mx); [contradiction|].
      apply IH. intros y Hy. apply H. now right.
    + apply IH. intros y Hy. apply H. now right.
Qed.

(** The selected epochs are epochs of the table, in strictly ascending
    order. *)
Theorem selection_ascending (data : list TrainingLogData) :
  StronglySorted Z.lt (selectedEpochs data) /\
  Forall (fun e => exists r, In r data /\ epoch r = e) (selectedEpochs data).
Proof.
  split.
  - unfold selectedEpochs. apply filter_index_sorted, allEpochs_ascending.
  - apply Forall_forall. intros e He.
    apply selectedEpochs_incl in He. now apply allEpochs_In.
Qed.

(** X4.  The smallest epoch of a non-empty table is always selected: it heads
    the selection. *)
Theorem smallest_epoch_selected (data : list TrainingLogData) :
  data <> [] ->
  exists e rest,
    selectedEpochs data = e :: rest /\
    (exists r, In r data /\ epoch r = e) /\
    Forall (fun r => e <= epoch r) data.
Proof.
  intros Hne.
  pose proof (allEpochs_ascending data) as Hs.
  assert (Hin : forall x, In x (allEpochs data) <->
                          exists r, In r data /\ epoch r = x)
    by apply allEpochs_In.
  assert (Hstep : (epochStep data <> 0)%nat)
    by (unfold epochStep; lia).
  unfold selectedEpochs. revert Hs Hin Hstep.
  generalize (epochStep data) as step. generalize (maxEpoch data) as mx.
  intros mx step.
  destruct (allEpochs data) as [|e l] eqn:Ea; intros Hs Hin Hstep.
  - exfalso. destruct data as [|r data]; [congruence|].
    apply (proj2 (Hin (epoch r))). exists r. split; [now left|reflexivity].
  - cbn [filter_index]. rewrite Nat.Div0.mod_0_l. cbn [Nat.eqb orb].
    eexists. eexists. split; [reflexivity|]. split.
    + apply Hin. now left.
    + apply Forall_forall. intros r Hr.
      assert (Hr' : In (epoch r) (e :: l)) by (apply Hin; now exists r).
      inversion Hs as [|? ? _ Hall]; subst.
      destruct Hr' as [<-|Hr']; [lia|].
      rewrite Forall_forall in Hall. specialize (Hall _ Hr'). lia.
Qed.

Lemma smallest_epoch_selected_witness :
  exists e rest,
    selectedEpochs threeEpochs = e :: rest /\
    (exists r, In r threeEpochs /\ epoch r = e) /\
    Forall (fun r => e <= epoch r) threeEpochs.
Proof.
  apply (smallest_epoch_selected threeEpochs). discriminate.
Defined.
End EpochExtras.

(** ** Tiers, colours and counts *)

Section TierExtras.
Import EpochSelector Quality Colour MetricsSummary MoreStatements.
Local Open Scope Z_scope.

(** X6.  Every number but [NaN] is in exactly one tier, the one of its
    colour; [NaN] is in none, and is coloured red. *)
Theorem colour_agrees_with_tier (x : number) :
  (isNaN x = false -> tiersOf x = [tierOfColour (errorColour x)]) /\
  (isNaN x = true -> tiersOf x = [] /\ errorColour x = red).
Proof.
  destruct x as [| | |k].
  - split; [discriminate|]. intros _. split; reflexivity.
  - split; [|discriminate]. intros _. reflexivity.
  - split; [|discriminate]. intros _. reflexivity.
  - split; [|discriminate]. intros _.
    pose proof lit_0_05_lt_0_20 as H.
    destruct (tiersOf_finite k) as [[Hk ->]|[[Hk ->]|[Hk ->]]];
      unfold errorColour, JsNumber.ltb, lit_0_05, lit_0_20;
      revert H Hk;
      generalize (3602879701896397 * 2 ^ 1018);
      generalize (3602879701896397 * 2 ^ 1020);
      intros c20 c05 H Hk;
      destruct (Z.ltb_spec k c05); try lia;
      destruct (Z.ltb_spec k c20); try lia; reflexivity.
Qed.

Lemma colour_agrees_with_tier_witness :
  tiersOf (of_ratio 1 10) = [tierOfColour (errorColour (of_ratio 1 10))] /\
  tiersOf NaN = [] /\ errorColour NaN = red.
Proof.
  split.
  - apply (proj1 (colour_agrees_with_tier (of_ratio 1 10))).
    vm_compute. reflexivity.
  - apply (proj2 (colour_agrees_with_tier NaN)). reflexivity.
Defined.

Lemma tiersOf_length (x : number) :
  length (tiersOf x) = if isNaN x then 0%nat else 1%nat.
Proof.
  destruct x as [| | |k]; try reflexivity. cbn [isNaN].
  destruct (tiersOf_finite k) as [[_ ->]|[[_ ->]|[_ ->]]]; reflexivity.
Qed.

(** The three counts over any list add up to the number of its values
    that are not [NaN]. *)
Lemma tier_counts (A : Type) (key : A -> number) (l : list A) :
  (length (filter (fun a => isExcellent (key a)) l)
   + length (filter (fun a => isGood (key a)) l)
   + length (filter (fun a => isPoor (key a)) l))%nat
  = length (filter (fun a => negb (isNaN (key a))) l).
Proof.
  induction l as [|a l IH]; [reflexivity|].
  cbn [filter]. pose proof (tiersOf_length (key a)) as Ht.
  unfold tiersOf in Ht.
  destruct (isExcellent (key a)), (isGood (key a)), (isPoor (key a)),
    (isNaN (key a)); cbn [negb length app] in *; try discriminate; lia.
Qed.

(** X7.  In the summary the three counts never exceed the number of latest
    rows, and add up to it when no latest row has [NaN] for relative
    error. *)
Theorem summary_counts (data : list TrainingLogData) :
  match summary data with
  | Some s =>
      (excellentCount s + goodCount s + poorCount s <= totalEntries s)%nat /\
      (Forall (fun r => isNaN (rel_abs_error r) = false) (latestData data) ->
       (excellentCount s + goodCount s + poorCount s)%nat = totalEntries s)
  | None => data = []
  end.
Proof.
  destruct data as [|r0 data0]; [reflexivity|].
  set (data := r0 :: data0). unfold summary, data at 1. cbv iota zeta.
  cbn [excellentCount goodCount poorCount totalEntries].
  rewrite (tier_counts _ rel_abs_error (latestData data)).
  split; [apply filter_length_le|].
  intros Hn. f_equal. apply forallb_filter_id. apply forallb_forall.
  rewrite Forall_forall in Hn. intros r Hr. now rewrite (Hn r Hr).
Qed.

Lemma summary_counts_witness :
  exists s,
    summary Samples.agePointsTable = Some s /\
    (excellentCount s + goodCount s + poorCount s)%nat = totalEntries s.
Proof.
  pose proof (summary_counts Samples.agePointsTable) as H.
  destruct (summary Samples.agePointsTable) as [s|] eqn:E;
    [|discriminate].
  exists s. split; [reflexivity|]. apply (proj2 H).
  assert (El : latestData Samples.agePointsTable = Samples.agePointsTable)
    by (vm_compute; reflexivity).
  rewrite El. unfold Samples.agePointsTable.
  repeat (constructor; [vm_compute; reflexivity|]). constructor.
Defined.
End TierExtras.

(** ** Ingestion *)

Section IngestExtras.
Import EpochSelector Quality MetricsSummary Csv JsExtra Ingest.
Import MoreStatements MoreSamples.

Lemma or_else_not_NaN (x : number) : isNaN (or_else x zero) = false.
Proof.
  destruct x as [| | |k]; try reflexivity.
  unfold or_else, truthy. destruct (Z.eqb k 0); reflexivity.
Qed.

Lemma parseRow_numeric (values : list jsstring) (r : TrainingLogData) :
  parseRow values = Some r -> numericRow r.
Proof.
  do 10 (destruct values as [|? values]; [discriminate|]).
  cbn [parseRow]. intros [= <-]. unfold numericRow.
  cbn [estimate target error abs_error rel_abs_error].
  repeat split; apply or_else_not_NaN.
Qed.

(** X9.  A line gives a row exactly when it has ten fields or more; the row
    takes name and metric verbatim, none of its numeric columns is [NaN]
    (a field that does not read as a number counts as 0), and it is
    validated exactly when the ninth field is [True]. *)
Theorem ingested_row (values : list jsstring) :
  match parseRow values with
  | Some r =>
      10 <= length values /\
      numericRow r /\
      nth_error values 1 = Some (name r) /\
      nth_error values 2 = Some (metric r) /\
      (validation r = true <-> nth_error values 8 = Some (lit "True"))
  | None => length values < 10
  end.
Proof.
  destruct (parseRow values) as [r|] eqn:E.
  - pose proof (parseRow_numeric values r E) as Hnum.
    do 10 (destruct values as [|? values]; [discriminate|]).
    cbn [parseRow] in E. injection E as <-.
    split; [simpl; lia|]. split; [exact Hnum|].
    cbn [nth_error name metric validation].
    split; [reflexivity|]. split; [reflexivity|].
    rewrite jsstring_eqb_eq. split; [now intros ->|now intros [= ->]].
  - do 10 (destruct values as [|? values]; [simpl; lia|]). discriminate.
Qed.

Lemma parseCsv_rows (csvText : jsstring) (r : TrainingLogData) :
  In r (parseCsv csvText) -> exists values, parseRow values = Some r.
Proof.
  unfold parseCsv.
  destruct (Nat.ltb _ 2); [contradiction|].
  rewrite in_flat_map. intros [line [_ Hr]].
  destruct (parseRow (split (lit ",") line)) as [r'|] eqn:E;
    [|contradiction].
  destruct Hr as [<-|[]]. now exists (split (lit ",") line).
Qed.

(** No numeric column of an ingested table holds [NaN]. *)
Theorem ingested_table_numeric (csvText : jsstring) :
  Forall numericRow (parseCsv csvText).
Proof.
  apply Forall_forall. intros r Hr.
  destruct (parseCsv_rows csvText r Hr) as [values Hv].
  now apply parseRow_numeric with values.
Qed.

(** X10.  On an ingested table the three tier counts of the summary add up to
    the number of latest rows. *)
Theorem ingested_summary_counts (csvText : jsstring) :
  match summary (parseCsv csvText) with
  | Some s =>
      excellentCount s + goodCount s + poorCount s = totalEntries s
  | None => parseCsv csvText = []
  end.
Proof.
  destruct (parseCsv csvText) as [|r0 data0] eqn:Ed; [reflexivity|].
  rewrite <- Ed. set (data := parseCsv csvText).
  assert (Hs : summary data = summary (r0 :: data0)) by now rewrite <- Ed.
  unfold summary at 2 in Hs. cbv iota zeta in Hs. rewrite <- Ed in Hs.
  fold data in Hs. rewrite Hs.
  cbn [excellentCount goodCount poorCount totalEntries].
  rewrite (tier_counts _ rel_abs_error (latestData data)).
  f_equal. apply forallb_filter_id. apply forallb_forall. intros r Hr.
  apply latestData_In in Hr. destruct Hr as [Hr _].
  destruct (parseCsv_rows csvText r Hr) as [values Hv].
  apply parseRow_numeric in Hv. unfold numericRow in Hv.
  destruct Hv as [_ [_ [_ [_ Hv]]]]. now rewrite Hv.
Qed.

(** X11.  A text gives at most one row for each line after the first, and no
    row at all when, trimmed, it has no line break. *)
Theorem csv_row_count (csvText : jsstring) :
  length (parseCsv csvText)
  <= length (split [10%N] (trim csvText)) - 1 /\
  (includes [10%N] (trim csvText) = false -> parseCsv csvText = []).
Proof.
  unfold parseCsv. set (lines := split [10%N] (trim csvText)). split.
  - destruct (Nat.ltb (length lines) 2); [simpl; lia|].
    etransitivity.
    + instantiate (1 := length (filter (fun line =>
                                   Nat.ltb 0 (length (trim line)))
                                (skipn 1 lines))).
      generalize (filter (fun line => Nat.ltb 0 (length (trim line)))
                         (skipn 1 lines)) as ls.
      induction ls as [|l ls IH]; [reflexivity|].
      cbn [flat_map]. rewrite length_app.
      destruct (parseRow (split (lit ",") l)); simpl in *; lia.
    + etransitivity; [apply filter_length_le|].
      rewrite length_skipn. lia.
  - intros Hinc. apply (split_second 10%N [] (trim csvText)) in Hinc.
    change (nth_error lines 1 = None) in Hinc. clearbody lines.
    destruct lines as [|l0 [|l1 ls]]; try reflexivity.
    cbn [nth_error] in Hinc. discriminate Hinc.
Qed.

Lemma csv_row_count_witness :
  length (parseCsv csvSample) = 2 /\ parseCsv headerLine = [].
Proof.
  split; [vm_compute; reflexivity|].
  apply (proj2 (csv_row_count headerLine)). vm_compute. reflexivity.
Defined.
End IngestExtras.

(** ** The content of a band series *)

Section BandSeriesExtras.
Import IncomeBands Samples MoreStatements MoreSamples.

Lemma exn_unique (e : exn) : e = TypeError.
Proof. now destruct e. Qed.

Lemma pushBand_normal bands item :
  parseBand (metric item) <> Throw TypeError ->
  exists ps,
    pushBand bands item = Normal (bands ++ ps) /\
    forall p, In p ps <->
      exists band,
        parseBand (metric item) = Normal (Some band) /\
        JsNumber.eqb (bandNumber band) lit_55 = false /\
        p = pointOf band item.
Proof.
  intros Hn. unfold pushBand.
  destruct (parseBand (metric item)) as [[band|]|e] eqn:E; cbn [bind].
  - destruct (JsNumber.eqb (bandNumber band) lit_55) eqn:E55; cbn [negb].
    + exists []. rewrite app_nil_r. split; [reflexivity|].
      intros p. split; [contradiction|].
      intros [b [[= <-] [H _]]]. congruence.
    + eexists [_]. split; [reflexivity|].
      intros p. split.
      * intros [<-|[]]. exists band. repeat split. exact E55.
      * intros [b [[= <-] [_ ->]]]. now left.
  - exists []. rewrite app_nil_r. split; [reflexivity|].
    intros p. split; [contradiction|]. intros [b [H _]]. discriminate.
  - exfalso. apply Hn. now rewrite (exn_unique e).
Qed.

Lemma pushBand_throw bands item :
  parseBand (metric item) = Throw TypeError ->
  pushBand bands item = Throw TypeError.
Proof. intros H. unfold pushBand. now rewrite H. Qed.

Lemma forEachBand_outcome items :
  forall bands,
    (exists item, In item items /\
                  parseBand (metric item) = Throw TypeError) /\
    forEachBand bands items = Throw TypeError
    \/
    (forall item, In item items ->
                  parseBand (metric item) <> Throw TypeError) /\
    exists ps,
      forEachBand bands items = Normal (bands ++ ps) /\
      length ps <= length items /\
      forall p, In p ps <->
        exists item band,
          In item items /\
          parseBand (metric item) = Normal (Some band) /\
          JsNumber.eqb (bandNumber band) lit_55 = false /\
          p = pointOf band item.
Proof.
  induction items as [|item items IH]; intros bands.
  - right. split; [intros ? []|]. exists []. rewrite app_nil_r.
    split; [reflexivity|]. split; [reflexivity|].
    intros p. split; [contradiction|]. intros [? [? [[] _]]].
  - cbn [forEachBand].
    destruct (parseBand (metric item)) as [ob|e] eqn:E.
    + assert (Hn : parseBand (metric item) <> Throw TypeError)
        by (rewrite E; discriminate).
      destruct (pushBand_normal bands item Hn) as [ps0 [Hps0 Hin0]].
      rewrite Hps0. cbn [bind].
      assert (Hlen0 : length ps0 <= 1).
      { unfold pushBand in Hps0. rewrite E in Hps0. cbn [bind] in Hps0.
        destruct ob as [band|].
        - destruct (negb _); apply Normal_inj in Hps0.
          + apply app_inv_head in Hps0. subst ps0. simpl. lia.
          + rewrite <- (app_nil_r bands) in Hps0 at 1.
            apply app_inv_head in Hps0. subst ps0. simpl. lia.
        - apply Normal_inj in Hps0.
          rewrite <- (app_nil_r bands) in Hps0 at 1.
          apply app_inv_head in Hps0. subst ps0. simpl. lia. }
      destruct (IH (bands ++ ps0))
        as [[[it [Hit Hthrow]] Ht]|[Hall [ps [Hps [Hlen Hin]]]]].
      * left. split; [|exact Ht]. exists it. split; [now right|exact Hthrow].
      * right. split.
        { intros it [<-|Hit]; [now rewrite E|now apply Hall]. }
        exists (ps0 ++ ps). rewrite app_assoc. split; [exact Hps|].
        split; [rewrite length_app; simpl; lia|].
        intros p. rewrite in_app_iff, Hin0, Hin. split.
        -- intros [[band [H1 [H2 H3]]]|[it [band [H0 [H1 [H2 H3]]]]]].
           ++ exists item, band. repeat split; auto. now left.
           ++ exists it, band. repeat split; auto. now right.
        -- intros [it [band [[<-|H0] [H1 [H2 H3]]]]].
           ++ left. now exists band.
           ++ right. now exists it, band.
    + left. rewrite (exn_unique e) in E. split.
      * exists item. split; [now left|exact E].
      * now rewrite (pushBand_throw bands item E).
Qed.

(** X13.  A band series that is returned holds exactly the points of the rows
    whose metric starts with the selection prefix and parses to a band
    other than 55, each with the row's own estimate, target and errors;
    no band is added for a row that is not there. *)
Theorem band_series_content
        (latest : list TrainingLogData) (selectedSource : jsstring)
        (metricType : MetricType) (bands : list Point.IncomeBandData) :
  bandsData latest selectedSource metricType = Normal bands ->
  length bands <= length latest /\
  forall p,
    In p bands <->
    selectedSource <> [] /\
    exists item, In item latest /\
                 givesPoint selectedSource metricType item p.
Proof.
  unfold bandsData. destruct selectedSource as [|c0 src].
  { intros H. apply Normal_inj in H. subst bands.
    split; [simpl; lia|]. intros p. split; [contradiction|].
    intros [H _]. congruence. }
  set (src0 := c0 :: src).
  set (selected := filter (fun item =>
                             startsWith (metricPrefix src0 metricType)
                                        (metric item)) latest).
  destruct (forEachBand_outcome selected [])
    as [[_ Ht]|[_ [ps [Hps [Hlen Hin]]]]].
  { rewrite Ht. discriminate. }
  rewrite Hps. cbn [bind app]. intros H. apply Normal_inj in H.
  subst bands. split.
  - rewrite sort_length. etransitivity; [exact Hlen|].
    apply filter_length_le.
  - intros p. rewrite sort_In, Hin. unfold givesPoint. split.
    + intros [item [band [Hitem [H1 [H2 H3]]]]].
      apply filter_In in Hitem. destruct Hitem as [Hitem Hpre].
      split; [discriminate|]. exists item. split; [exact Hitem|].
      split; [exact Hpre|]. now exists band.
    + intros [_ [item [Hitem [Hpre [band [H1 [H2 H3]]]]]]].
      exists item, band. repeat split; auto.
      apply filter_In. now split.
Qed.

Lemma band_series_content_witness :
  exists bands,
    bandsData bandTable (lit "s") amount = Normal bands /\
    length bands <= length bandTable /\
    forall p,
      In p bands <->
      lit "s" <> [] /\
      exists item, In item bandTable /\ givesPoint (lit "s") amount item p.
Proof.
  pose (bands := match bandsData bandTable (lit "s") amount with
                 | Normal b => b
                 | Throw _ => []
                 end).
  assert (E : bandsData bandTable (lit "s") amount = Normal bands)
    by (vm_compute; reflexivity).
  exists bands. split; [exact E|].
  exact (band_series_content bandTable (lit "s") amount bands E).
Defined.

(** X14.  With a source selected, the series raises exactly when some row
    under the selection prefix has a metric on which [parseBand] raises;
    one such row is enough to lose the whole series. *)
Theorem band_series_raises
        (latest : list TrainingLogData) (selectedSource : jsstring)
        (metricType : MetricType) :
  selectedSource <> [] ->
  (bandsData latest selectedSource metricType = Throw TypeError <->
   exists item,
     In item latest /\
     startsWith (metricPrefix selectedSource metricType) (metric item)
     = true /\
     parseBand (metric item) = Throw TypeError).
Proof.
  intros Hne. unfold bandsData.
  destruct selectedSource as [|c0 src]; [congruence|].
  set (src0 := c0 :: src).
  set (selected := filter (fun item =>
                             startsWith (metricPrefix src0 metricType)
                                        (metric item)) latest).
  destruct (forEachBand_outcome selected [])
    as [[[item [Hitem Hthrow]] Ht]|[Hall [ps [Hps _]]]].
  - rewrite Ht. cbn [bind]. split; [intros _|reflexivity].
    apply filter_In in Hitem. destruct Hitem as [Hitem Hpre].
    now exists item.
  - rewrite Hps. cbn [bind]. split; [discriminate|].
    intros [item [Hitem [Hpre Hthrow]]]. exfalso.
    apply (Hall item); [|exact Hthrow]. apply filter_In. now split.
Qed.

Lemma band_series_raises_witness :
  bandsData brokenBandTable (lit "s") amount = Throw TypeError.
Proof.
  apply (band_series_raises brokenBandTable (lit "s") amount);
    [discriminate|].
  exists (row "E1" "hmrc/s_income_band_2_5" (of_Z 1) zero 4).
  split; [right; left; reflexivity|].
  split; vm_compute; reflexivity.
Defined.
End BandSeriesExtras.

(** ** Sorted lists of names *)

Section StringOrder.

Lemma jsstring_gtb_asym (a : jsstring) :
  forall b, JsString.gtb a b = true -> JsString.gtb b a = false.
Proof.
  induction a as [|x a IH]; intros [|y b]; cbn [JsString.gtb]; auto;
    try discriminate.
  destruct (N.ltb_spec y x), (N.ltb_spec x y); auto; try discriminate; lia.
Qed.

Lemma jsstring_gtb_trans (a : jsstring) :
  forall b c,
    JsString.gtb a b = false -> JsString.gtb b c = false ->
    JsString.gtb a c = false.
Proof.
  induction a as [|x a IH]; intros [|y b] [|z c]; cbn [JsString.gtb]; auto;
    try discriminate.
  destruct (N.ltb_spec y x), (N.ltb_spec x y), (N.ltb_spec z y),
    (N.ltb_spec y z), (N.ltb_spec z x), (N.ltb_spec x z);
    auto; try discriminate; try lia.
  apply IH.
Qed.

Lemma jsstring_gtb_antisym (a : jsstring) :
  forall b,
    JsString.gtb a b = false -> JsString.gtb b a = false -> a = b.
Proof.
  induction a as [|x a IH]; intros [|y b]; cbn [JsString.gtb]; auto;
    try discriminate.
  destruct (N.ltb_spec y x), (N.ltb_spec x y); try discriminate; try lia.
  intros H1 H2. f_equal; [lia|now apply IH].
Qed.

Lemma sorted_distinct_strict (l : list jsstring) :
  NoDup l ->
  StronglySorted (fun a b => JsString.gtb a b = false) l ->
  StronglySorted (fun a b => JsString.gtb b a = true) l.
Proof.
  intros Hnd Hs. induction Hs as [|x l Hl IH Hall]; constructor.
  - apply IH. now inversion Hnd.
  - inversion Hnd as [|? ? Hx _]; subst.
    rewrite Forall_forall in *. intros y Hy.
    destruct (JsString.gtb y x) eqn:E; [reflexivity|].
    exfalso. apply Hx.
    rewrite (jsstring_gtb_antisym x y (Hall y Hy) E). exact Hy.
Qed.

(** [Array.from(new Set(l)).sort()] on strings: strictly ascending in
    code-unit order, with the elements of [l]. *)
Lemma sorted_names (l : list jsstring) :
  StronglySorted (fun a b => JsString.gtb b a = true)
                 (sort JsString.gtb (uniq JsString.eqb l)) /\
  forall x, In x (sort JsString.gtb (uniq JsString.eqb l)) <-> In x l.
Proof.
  split.
  - apply sorted_distinct_strict.
    + apply (Permutation_NoDup (l := uniq JsString.eqb l)).
      * symmetry. apply sort_perm.
      * apply uniq_NoDup. exact jsstring_eqb_eq.
    + apply sort_sorted_total.
      * intros a b. apply jsstring_gtb_asym.
      * intros a b c. apply jsstring_gtb_trans.
  - intros x. rewrite sort_In. apply uniq_In. exact jsstring_eqb_eq.
Qed.

(** X19.  The areas offered for selection are the names of the rows of the
    latest epoch, each once, in strictly ascending code-unit order. *)
Theorem constituencies_ascending (data : list TrainingLogData) :
  StronglySorted (fun a b => JsString.gtb b a = true)
                 (LocalAreas.constituencies data) /\
  forall c, In c (LocalAreas.constituencies data) <->
            exists r, In r (EpochSelector.latestData data) /\ name r = c.
Proof.
  unfold LocalAreas.constituencies.
  destruct (sorted_names (List.map name (EpochSelector.latestData data)))
    as [Hs Hin].
  split; [exact Hs|]. intros c. rewrite Hin, in_map_iff.
  split; intros [r [H1 H2]]; exists r; auto.
Qed.

(** X26.  The locations offered for a metric are the names of the rows of the
    selected epochs that carry this metric, each once, in strictly
    ascending code-unit order. *)
Theorem locations_ascending (data : list TrainingLogData)
        (selectedMetric : jsstring) :
  StronglySorted (fun a b => JsString.gtb b a = true)
                 (LineChart.locations data selectedMetric) /\
  forall c, In c (LineChart.locations data selectedMetric) <->
            exists r, In r (EpochSelector.filteredData data) /\
                      metric r = selectedMetric /\ name r = c.
Proof.
  unfold LineChart.locations.
  destruct (sorted_names
              (List.map name (LineChart.metricData data selectedMetric)))
    as [Hs Hin].
  split; [exact Hs|]. intros c. rewrite Hin, in_map_iff.
  unfold LineChart.metricData. split.
  - intros [r [H1 H2]]. apply filter_In in H2. destruct H2 as [H2 H3].
    apply jsstring_eqb_eq in H3. now exists r.
  - intros [r [H1 [H2 H3]]]. exists r. split; [exact H3|].
    apply filter_In. split; [exact H1|]. now apply jsstring_eqb_eq.
Qed.

(** X15.  The income sources offered are the sources that [sourceOfMetric]
    reads off the metrics of the latest rows, each once, in strictly
    ascending code-unit order. *)
Theorem incomeSources_ascending (data : list TrainingLogData) :
  StronglySorted (fun a b => JsString.gtb b a = true)
                 (IncomeBands.incomeSources data) /\
  forall s, In s (IncomeBands.incomeSources data) <->
            exists r, In r (EpochSelector.latestData data) /\
                      IncomeBands.sourceOfMetric (metric r) = Some s.
Proof.
  unfold IncomeBands.incomeSources.
  match goal with
  | |- context [uniq JsString.eqb ?l] =>
      destruct (sorted_names l) as [Hs Hin]
  end.
  split; [exact Hs|]. intros s. rewrite Hin, in_flat_map.
  split; intros [r [H1 H2]]; exists r; (split; [exact H1|]).
  - destruct (IncomeBands.sourceOfMetric (metric r)) as [s'|];
      [|contradiction].
    destruct H2 as [->|[]]. reflexivity.
  - rewrite H2. now left.
Qed.
End StringOrder.

(** ** The series of the line chart *)

Section LineChartExtras.
Import EpochSelector LineChart JsExtra.
Local Open Scope Z_scope.

Lemma lastItem_snoc (A : Type) (l : list A) (x : A) :
  lastItem (l ++ [x]) = Some x.
Proof.
  unfold lastItem. rewrite length_app. cbn [length].
  replace (length l + 1 - 1)%nat with (length l) by lia.
  rewrite nth_error_app2 by lia. now rewrite Nat.sub_diag.
Qed.

Lemma StronglySorted_last (A : Type) (R : A -> A -> Prop)
      (l : list A) (x : A) :
  StronglySorted R (l ++ [x]) -> forall y, In y l -> R y x.
Proof.
  induction l as [|a l IH]; intros Hs y Hy; [contradiction|].
  cbn [app] in Hs. inversion Hs as [|? ? Hs' Hall]; subst.
  destruct Hy as [<-|Hy].
  - rewrite Forall_forall in Hall. apply Hall, in_or_app.
    right. now left.
  - now apply IH.
Qed.

Lemma chartData_sorted data selectedMetric selectedLocation :
  StronglySorted (fun a b => epoch a <= epoch b)
                 (chartData data selectedMetric selectedLocation).
Proof.
  unfold chartData. destruct selectedLocation; [constructor|].
  apply sort_by_integer.
Qed.

(** X24.  The series drawn for a metric and a location holds exactly the rows
    of the selected epochs with this metric and this location, in
    ascending order of epoch; without a location it is empty. *)
Theorem chart_series (data : list TrainingLogData)
        (selectedMetric selectedLocation : jsstring) :
  StronglySorted (fun a b => epoch a <= epoch b)
                 (chartData data selectedMetric selectedLocation) /\
  forall r,
    In r (chartData data selectedMetric selectedLocation) <->
    selectedLocation <> [] /\ In r (filteredData data) /\
    metric r = selectedMetric /\ name r = selectedLocation.
Proof.
  split; [apply chartData_sorted|].
  intros r. unfold chartData.
  destruct selectedLocation as [|c loc].
  - split; [contradiction|]. intros [H _]. congruence.
  - rewrite sort_In, filter_In. unfold metricData.
    rewrite filter_In, !jsstring_eqb_eq.
    split; [intros [[H1 H2] H3]|intros [_ [H1 [H2 H3]]]];
      repeat split; auto; discriminate.
Qed.

(** X25.  The row behind the latest-values panel is a row of the series with
    the greatest epoch of the series; the panel is left out exactly
    when the series is empty, so the last element is never read from an
    empty array. *)
Theorem latest_values_greatest_epoch (data : list TrainingLogData)
        (selectedMetric selectedLocation : jsstring) :
  match latestValues data selectedMetric selectedLocation with
  | Some r =>
      In r (chartData data selectedMetric selectedLocation) /\
      forall r', In r' (chartData data selectedMetric selectedLocation) ->
                 epoch r' <= epoch r
  | None => chartData data selectedMetric selectedLocation = []
  end.
Proof.
  unfold latestValues.
  pose proof (chartData_sorted data selectedMetric selectedLocation) as Hs.
  destruct (chartData data selectedMetric selectedLocation) as [|a l]
    using rev_ind; [reflexivity|].
  rewrite length_app. cbn [length].
  replace (Nat.ltb 0 (length l + 1)) with true
    by (symmetry; apply Nat.ltb_lt; lia).
  rewrite lastItem_snoc. split.
  - apply in_or_app. right. now left.
  - intros r' Hr'. apply in_app_or in Hr'. destruct Hr' as [Hr'|[<-|[]]].
    + now apply (StronglySorted_last _ _ l a Hs).
    + lia.
Qed.
End LineChartExtras.

(** ** The error histogram *)

Section HistogramExtras.
Import EpochSelector Charts Colour JsExtra MoreSamples.
Local Open Scope Z_scope.

Lemma bin_edges_ordered :
  0 < 3602879701896397 * 2 ^ 1018 /\
  3602879701896397 * 2 ^ 1018 < 3602879701896397 * 2 ^ 1019 /\
  3602879701896397 * 2 ^ 1019 < 3602879701896397 * 2 ^ 1020 /\
  3602879701896397 * 2 ^ 1020 < 5404319552844595 * 2 ^ 1020 /\
  5404319552844595 * 2 ^ 1020 < 2 ^ 1073 /\
  2 ^ 1073 < 2 ^ 1074.
Proof. repeat split; vm_compute; reflexivity. Qed.

Ltac abstract_edges :=
  let H := fresh "Hedges" in
  pose proof bin_edges_ordered as H;
  unfold inBin, errorColour, JsNumber.geb, ltb_undef,
    lit_0_05, lit_0_1, lit_0_20, lit_0_3, lit_0_5, lit_1, zero in *;
  revert H;
  generalize (3602879701896397 * 2 ^ 1018);
  generalize (3602879701896397 * 2 ^ 1019);
  generalize (3602879701896397 * 2 ^ 1020);
  generalize (5404319552844595 * 2 ^ 1020);
  generalize (2 ^ 1073);
  generalize (2 ^ 1074);
  intros c100 c50 c30 c20 c10 c05 H;
  destruct H as [? [? [? [? [? ?]]]]].

Ltac decide_comparisons :=
  repeat match goal with
         | |- context [?a <=? ?b] =>
             first [ replace (a <=? b) with true
                       by (symmetry; apply Z.leb_le; lia)
                   | replace (a <=? b) with false
                       by (symmetry; apply Z.leb_gt; lia) ]
         | |- context [?a <? ?b] =>
             first [ replace (a <? b) with true
                       by (symmetry; apply Z.ltb_lt; lia)
                   | replace (a <? b) with false
                       by (symmetry; apply Z.ltb_ge; lia) ]
         end.

(** A value is in the bin of exactly one pair of neighbouring edges
    when it is finite and not negative, and in none otherwise. *)
Lemma bins_cover (x : number) :
  (Nat.b2n (inBin zero (Some lit_0_05) x) +
   (Nat.b2n (inBin lit_0_05 (Some lit_0_1) x) +
    (Nat.b2n (inBin lit_0_1 (Some lit_0_20) x) +
     (Nat.b2n (inBin lit_0_20 (Some lit_0_3) x) +
      (Nat.b2n (inBin lit_0_3 (Some lit_0_5) x) +
       (Nat.b2n (inBin lit_0_5 (Some lit_1) x) +
        (Nat.b2n (inBin lit_1 (Some PInf) x) + 0)))))))%nat =
  Nat.b2n (isFinite x && JsNumber.geb x zero).
Proof.
  abstract_edges. destruct x as [| | |k]; try reflexivity.
  cbn [JsNumber.leb JsNumber.ltb isFinite andb].
  assert (Hk : k < 0 \/ (0 <= k < c05) \/ (c05 <= k < c10) \/
               (c10 <= k < c20) \/ (c20 <= k < c30) \/
               (c30 <= k < c50) \/ (c50 <= k < c100) \/ c100 <= k)
    by lia.
  destruct Hk as [Hk|[Hk|[Hk|[Hk|[Hk|[Hk|[Hk|Hk]]]]]]];
    decide_comparisons; reflexivity.
Qed.

Lemma filter_length_cons (A : Type) (p : A -> bool) (a : A) (l : list A) :
  length (filter p (a :: l)) = (Nat.b2n (p a) + length (filter p l))%nat.
Proof. cbn [filter]. now destruct (p a). Qed.

Lemma distribution_total (latest : list TrainingLogData) :
  list_sum (List.map binCount (getErrorDistribution latest)) =
  length (filter (fun item => isFinite (rel_abs_error item) &&
                              JsNumber.geb (rel_abs_error item) zero)
                 latest).
Proof.
  change (List.map binCount (getErrorDistribution latest))
    with (List.map
            (fun e : number * option number =>
               length (filter (fun item =>
                                 inBin (fst e) (snd e) (rel_abs_error item))
                              latest))
            [ (zero, Some lit_0_05); (lit_0_05, Some lit_0_1);
              (lit_0_1, Some lit_0_20); (lit_0_20, Some lit_0_3);
              (lit_0_3, Some lit_0_5); (lit_0_5, Some lit_1);
              (lit_1, Some PInf) ]).
  cbn [List.map list_sum fold_right fst snd].
  induction latest as [|a latest IH]; [reflexivity|].
  rewrite !filter_length_cons, <- IH, <- bins_cover. lia.
Qed.

(** X27.  The seven counts of the histogram add up to the number of latest
    rows whose relative error is finite and not negative: each such row
    is counted once, and a row with a negative, [NaN] or infinite
    relative error is counted in no bin. *)
Theorem histogram_counts_each_row_once (latest : list TrainingLogData) :
  list_sum (List.map binCount (getErrorDistribution latest)) =
  length (filter (fun item => isFinite (rel_abs_error item) &&
                              JsNumber.geb (rel_abs_error item) zero)
                 latest).
Proof. exact (distribution_total latest). Qed.

(** X28.  The colour of a bar is the colour that the components give to every
    value counted in it. *)
Theorem bar_colour_is_value_colour (latest : list TrainingLogData)
        (bin : Bin) (x : number) :
  In bin (getErrorDistribution latest) ->
  inBin (binLower bin) (binUpper bin) x = true ->
  errorColour x = color bin.
Proof.
  intros Hin Hx. unfold getErrorDistribution in Hin.
  cbn [mapi removelast errorBins nth_error Nat.add In] in Hin.
  destruct Hin as [<-|[<-|[<-|[<-|[<-|[<-|[<-|[]]]]]]]];
    cbn [binLower binUpper color] in Hx |- *;
    revert Hx; abstract_edges;
    (destruct x as [| | |k]; try discriminate);
    cbn [JsNumber.leb JsNumber.ltb andb];
    intros Hx; apply andb_prop in Hx; destruct Hx as [Hx1 Hx2];
    try apply Z.leb_le in Hx1; try apply Z.ltb_lt in Hx2;
    decide_comparisons; reflexivity.
Qed.

Lemma bar_colour_is_value_colour_witness :
  errorColour (of_ratio 1 10) = yellow.
Proof.
  apply (bar_colour_is_value_colour
           Samples.agePointsTable
           {| binLower := lit_0_1; binUpper := Some lit_0_20;
              binCount := 1;
              percentage := mul (div (of_nat 1) (of_nat 3)) (of_Z 100);
              color := yellow |}
           (of_ratio 1 10)).
  - do 2 right. left. vm_compute. reflexivity.
  - vm_compute. reflexivity.
Defined.

Lemma mul_Fin_not_NaN (a : number) (y : Z) :
  isNaN a = false -> 0 < y -> isNaN (mul a (Fin y)) = false.
Proof.
  intros Ha Hy. destruct a as [| | |x]; cbn [mul]; try discriminate.
  - destruct (Z.eqb_spec y 0); [lia|]. destruct (0 <? y); reflexivity.
  - destruct (Z.eqb_spec y 0); [lia|]. destruct (0 <? y); reflexivity.
  - apply round_ratio_not_NaN.
Qed.

(** [c / n * 100] for two array lengths [c <= n]: [NaN] exactly when
    [n] is 0. *)
Lemma percent_NaN (c n : nat) :
  (c <= n)%nat -> Z.of_nat n < 2 ^ 53 ->
  isNaN (mul (div (of_nat c) (of_nat n)) (of_Z 100)) = Nat.eqb n 0.
Proof.
  intros Hc Hn. pose proof one_ulps_pos as HU.
  unfold of_nat. rewrite !of_Z_exact by lia.
  destruct n as [|n].
  - replace c with 0%nat by lia. reflexivity.
  - cbn [Nat.eqb]. apply mul_Fin_not_NaN; [|lia].
    apply div_pos_not_NaN; [reflexivity|lia].
Qed.

Lemma distribution_counts_le (latest : list TrainingLogData) (bin : Bin) :
  In bin (getErrorDistribution latest) ->
  (binCount bin <= length latest)%nat /\
  percentage bin =
    mul (div (of_nat (binCount bin)) (of_nat (length latest))) (of_Z 100).
Proof.
  intros Hin. unfold getErrorDistribution in Hin.
  cbn [mapi removelast errorBins nth_error Nat.add In] in Hin.
  destruct Hin as [<-|[<-|[<-|[<-|[<-|[<-|[<-|[]]]]]]]];
    cbn [binCount percentage]; (split; [apply filter_length_le|reflexivity]).
Qed.

(** X29.  The percentage of a bar is [NaN] exactly when there is no latest
    row, in which case the division is 0 / 0. *)
Theorem histogram_percentage_NaN_iff_no_rows
        (latest : list TrainingLogData) (bin : Bin) :
  Z.of_nat (length latest) < 2 ^ 53 ->
  In bin (getErrorDistribution latest) ->
  (isNaN (percentage bin) = true <-> latest = []).
Proof.
  intros Hlen Hin.
  destruct (distribution_counts_le latest bin Hin) as [Hle ->].
  rewrite percent_NaN by assumption.
  destruct latest; cbn [length Nat.eqb]; split; congruence.
Qed.

Lemma histogram_percentage_NaN_iff_no_rows_witness :
  isNaN (percentage
           {| binLower := lit_0_1; binUpper := Some lit_0_20;
              binCount := 1;
              percentage := mul (div (of_nat 1) (of_nat 3)) (of_Z 100);
              color := yellow |}) = true <->
  Samples.agePointsTable = [].
Proof.
  apply (histogram_percentage_NaN_iff_no_rows
           Samples.agePointsTable
           {| binLower := lit_0_1; binUpper := Some lit_0_20;
              binCount := 1;
              percentage := mul (div (of_nat 1) (of_nat 3)) (of_Z 100);
              color := yellow |}).
  - vm_compute. reflexivity.
  - do 2 right. left. vm_compute. reflexivity.
Defined.

Lemma list_max_zero (l : list nat) :
  list_max l = 0%nat <-> list_sum l = 0%nat.
Proof.
  induction l as [|a l IH]; cbn [list_max list_sum fold_right];
    [tauto|].
  fold (list_max l). fold (list_sum l). lia.
Qed.

Lemma filter_none (A : Type) (p : A -> bool) (l : list A) :
  length (filter p l) = 0%nat <-> forall x, In x l -> p x = false.
Proof.
  induction l as [|a l IH]; cbn [filter]; [split; [intros _ ? []|auto]|].
  destruct (p a) eqn:E; cbn [length]; split.
  - discriminate.
  - intros H. rewrite (H a) in E by now left. discriminate.
  - intros H x [<-|Hx]; [exact E|]. now apply IH.
  - intros H. apply IH. intros x Hx. apply H. now right.
Qed.

(** X30.  The width of every bar is [NaN] exactly when no latest row is
    counted in any bin, that is when every relative error is negative,
    [NaN] or infinite: the greatest count, by which the widths are
    divided, is then 0. *)
Theorem bar_width_NaN_iff_nothing_binned
        (latest : list TrainingLogData) (bin : Bin) :
  Z.of_nat (length latest) < 2 ^ 53 ->
  In bin (getErrorDistribution latest) ->
  (isNaN (barWidth (getErrorDistribution latest) bin) = true <->
   forall item, In item latest ->
                isFinite (rel_abs_error item) &&
                JsNumber.geb (rel_abs_error item) zero = false).
Proof.
  intros Hlen Hin. unfold barWidth.
  set (dist := getErrorDistribution latest) in *.
  assert (Hall : Forall (fun k => (k <= length latest)%nat)
                        (List.map binCount dist)).
  { apply Forall_forall. intros k Hk. apply in_map_iff in Hk.
    destruct Hk as [b [<- Hb]].
    now destruct (distribution_counts_le latest b Hb). }
  assert (Hmax : (maxCount dist <= length latest)%nat)
    by (apply list_max_le; exact Hall).
  assert (Hbin : (binCount bin <= maxCount dist)%nat).
  { assert (H : Forall (fun k => (k <= maxCount dist)%nat)
                       (List.map binCount dist))
      by (apply list_max_le; unfold maxCount; lia).
    rewrite Forall_forall in H. apply H, in_map. exact Hin. }
  rewrite percent_NaN by lia.
  rewrite Nat.eqb_eq. unfold maxCount. rewrite list_max_zero.
  subst dist. rewrite distribution_total. apply filter_none.
Qed.

Lemma bar_width_NaN_iff_nothing_binned_witness :
  isNaN (barWidth (getErrorDistribution unbinnedTable)
                  {| binLower := zero; binUpper := Some lit_0_05;
                     binCount := 0; percentage := Fin 0;
                     color := green |}) = true.
Proof.
  apply (bar_width_NaN_iff_nothing_binned
           unbinnedTable
           {| binLower := zero; binUpper := Some lit_0_05;
              binCount := 0; percentage := Fin 0; color := green |}).
  - vm_compute. reflexivity.
  - left. vm_compute. reflexivity.
  - intros item [<-|[<-|[<-|[]]]]; vm_compute; reflexivity.
Defined.
End HistogramExtras.

(** ** When there are no latest rows *)

Section LatestRowsExtras.
Import EpochSelector.
Local Open Scope Z_scope.

(** X5.  The rows of the latest epoch are empty exactly when every epoch of
    the table is negative (in particular on the empty table): the
    maximum is folded from 0, and any epoch that is not negative makes
    it the epoch of a row. *)
Theorem latest_rows_empty_iff (data : list TrainingLogData) :
  latestData data = [] <-> Forall (fun r => epoch r < 0) data.
Proof.
  split.
  - intros E. apply Forall_forall. intros r Hr.
    destruct (Z.ltb_spec (epoch r) 0) as [H|H]; [exact H|]. exfalso.
    assert (Hex : exists r', In r' data /\ epoch r' = maxEpoch data).
    { unfold maxEpoch.
      destruct (fold_max_attained data 0) as [H0|H0]; [|exact H0].
      exists r. split; [exact Hr|].
      pose proof (maxEpoch_upper data r Hr) as Hu.
      unfold maxEpoch in Hu. lia. }
    destruct Hex as [r' [Hin' Hr']].
    assert (Hl : In r' (latestData data)).
    { apply latestData_In. repeat split; auto.
      rewrite Hr'. apply selected_of_max, allEpochs_In. now exists r'. }
    rewrite E in Hl. contradiction.
  - intros Hneg. rewrite Forall_forall in Hneg.
    destruct (latestData data) as [|r l] eqn:E; [reflexivity|]. exfalso.
    assert (Hl : In r (latestData data)) by (rewrite E; now left).
    apply latestData_In in Hl. destruct Hl as [Hin [_ Hr]].
    specialize (Hneg r Hin).
    destruct (fold_max_ge data 0) as [H0 _]. unfold maxEpoch in Hr. lia.
Qed.
End LatestRowsExtras.

(** ** The best and the worst band *)

Section Extremes.
Variable A : Type.
Variable key : A -> number.

Lemma leb_refl (a : number) : isNaN a = false -> JsNumber.leb a a = true.
Proof.
  destruct a; simpl; try discriminate; auto. intros _. apply Z.leb_refl.
Qed.

(** A [reduce] whose callback returns one of its two arguments returns
    an element of the array. *)
Lemma fold_select (f : A -> A -> A) (l : list A) :
  (forall a b, f a b = a \/ f a b = b) ->
  forall x, In (fold_left f l x) (x :: l).
Proof.
  intros Hf. induction l as [|y l IH]; intros x; cbn [fold_left];
    [now left|].
  destruct (IH (f x y)) as [H|H]; [|right; now right].
  rewrite <- H. destruct (Hf x y) as [-> | ->]; [now left|right; now left].
Qed.

(** [reduce((best, d) => key d < key best ? d : best)] from [x]: an
    element with the least key, when no key is [NaN]. *)
Lemma fold_least (f : A -> A -> A) (l : list A) :
  (forall best d,
     f best d = if JsNumber.ltb (key d) (key best) then d else best) ->
  forall x,
    (forall d, In d (x :: l) -> isNaN (key d) = false) ->
    In (fold_left f l x) (x :: l) /\
    forall d, In d (x :: l) ->
              JsNumber.leb (key (fold_left f l x)) (key d) = true.
Proof.
  intros Hf. induction l as [|y l IH]; intros x Hx; cbn [fold_left].
  - split; [now left|]. intros d [<-|[]]. apply leb_refl, Hx. now left.
  - assert (Hfx : (f x y = x \/ f x y = y) /\
                  JsNumber.leb (key (f x y)) (key x) = true /\
                  JsNumber.leb (key (f x y)) (key y) = true).
    { rewrite Hf. destruct (JsNumber.ltb (key y) (key x)) eqn:E.
      - split; [now right|]. split.
        + now apply gtb_true_leb.
        + apply leb_refl, Hx. right. now left.
      - split; [now left|]. split.
        + apply leb_refl, Hx. now left.
        + apply gtb_false_leb; [apply Hx; now left| |exact E].
          apply Hx. right. now left. }
    destruct Hfx as [Hsel [Hle1 Hle2]].
    destruct (IH (f x y)) as [Hin Hmin].
    { intros d [<-|Hd].
      - destruct Hsel as [->| ->]; apply Hx; [now left|right; now left].
      - apply Hx. right. now right. }
    split.
    + destruct Hin as [Hin|Hin]; [|right; now right].
      rewrite <- Hin. destruct Hsel as [->| ->]; [now left|right; now left].
    + intros d [<-|[<-|Hd]].
      * eapply leb_trans; [|exact Hle1]. apply Hmin. now left.
      * eapply leb_trans; [|exact Hle2]. apply Hmin. now left.
      * apply Hmin. now right.
Qed.

(** [reduce((worst, d) => key d > key worst ? d : worst)] from [x]: an
    element with the greatest key, when no key is [NaN]. *)
Lemma fold_greatest (f : A -> A -> A) (l : list A) :
  (forall worst d,
     f worst d = if JsNumber.gtb (key d) (key worst) then d else worst) ->
  forall x,
    (forall d, In d (x :: l) -> isNaN (key d) = false) ->
    In (fold_left f l x) (x :: l) /\
    forall d, In d (x :: l) ->
              JsNumber.leb (key d) (key (fold_left f l x)) = true.
Proof.
  intros Hf. induction l as [|y l IH]; intros x Hx; cbn [fold_left].
  - split; [now left|]. intros d [<-|[]]. apply leb_refl, Hx. now left.
  - assert (Hfx : (f x y = x \/ f x y = y) /\
                  JsNumber.leb (key x) (key (f x y)) = true /\
                  JsNumber.leb (key y) (key (f x y)) = true).
    { rewrite Hf. destruct (JsNumber.gtb (key y) (key x)) eqn:E.
      - split; [now right|]. split.
        + now apply gtb_true_leb.
        + apply leb_refl, Hx. right. now left.
      - split; [now left|]. split.
        + apply leb_refl, Hx. now left.
        + apply gtb_false_leb; [|apply Hx; now left|exact E].
          apply Hx. right. now left. }
    destruct Hfx as [Hsel [Hle1 Hle2]].
    destruct (IH (f x y)) as [Hin Hmax].
    { intros d [<-|Hd].
      - destruct Hsel as [->| ->]; apply Hx; [now left|right; now left].
      - apply Hx. right. now right. }
    split.
    + destruct Hin as [Hin|Hin]; [|right; now right].
      rewrite <- Hin. destruct Hsel as [->| ->]; [now left|right; now left].
    + intros d [<-|[<-|Hd]].
      * eapply leb_trans; [exact Hle1|]. apply Hmax. now left.
      * eapply leb_trans; [exact Hle2|]. apply Hmax. now left.
      * apply Hmax. now right.
Qed.
End Extremes.

Section BandStatsExtras.
Import IncomeBands BandStats JsExtra MoreSamples.

(** X16.  The statistics block never raises: the two [reduce] calls without an
    initial value are made on a non-empty series only, and the block is
    left out exactly when the series is empty.  The best and the worst
    band it names are bands of the series. *)
Theorem band_statistics_never_raise (bands : list Point.IncomeBandData) :
  (bands = [] -> statistics bands = Normal None) /\
  (bands <> [] ->
   exists s, statistics bands = Normal (Some s) /\
             totalBands s = length bands /\
             In (bestBand s) bands /\ In (worstBand s) bands).
Proof.
  split; [intros ->; reflexivity|].
  intros Hne. destruct bands as [|x l]; [congruence|].
  unfold statistics. cbn [length Nat.ltb Nat.leb reduce1 bind].
  eexists. split; [reflexivity|]. cbn [totalBands bestBand worstBand].
  split; [reflexivity|]. split; apply fold_select; intros a b.
  - unfold better. destruct (JsNumber.ltb _ _); auto.
  - unfold worse. destruct (JsNumber.gtb _ _); auto.
Qed.

(** X17.  On a series without a [NaN] relative error the best band has the
    least relative error of the series and the worst band the
    greatest. *)
Theorem band_statistics_extremes (bands : list Point.IncomeBandData) :
  bands <> [] ->
  (forall d, In d bands -> isNaN (Point.rel_abs_error d) = false) ->
  exists s,
    statistics bands = Normal (Some s) /\
    forall d, In d bands ->
      JsNumber.leb (Point.rel_abs_error (bestBand s))
                   (Point.rel_abs_error d) = true /\
      JsNumber.leb (Point.rel_abs_error d)
                   (Point.rel_abs_error (worstBand s)) = true.
Proof.
  intros Hne Hnan. destruct bands as [|x l]; [congruence|].
  unfold statistics. cbn [length Nat.ltb Nat.leb reduce1 bind].
  eexists. split; [reflexivity|]. cbn [bestBand worstBand].
  intros d Hd. split.
  - apply (fold_least _ Point.rel_abs_error
                      (fun best d => better d best) l); auto.
  - apply (fold_greatest _ Point.rel_abs_error
                         (fun worst d => worse d worst) l); auto.
Qed.

Lemma band_statistics_extremes_witness :
  exists s,
    statistics threeBands = Normal (Some s) /\
    forall d, In d threeBands ->
      JsNumber.leb (Point.rel_abs_error (bestBand s))
                   (Point.rel_abs_error d) = true /\
      JsNumber.leb (Point.rel_abs_error d)
                   (Point.rel_abs_error (worstBand s)) = true.
Proof.
  apply (band_statistics_extremes threeBands).
  - discriminate.
  - intros d [<-|[<-|[<-|[]]]]; vm_compute; reflexivity.
Defined.

(** X18.  With a [NaN] in the series the best band need not be the least: a
    first point whose relative error is [NaN] is kept as the best and
    as the worst, since every comparison with it is false. *)
Theorem NaN_first_is_best_and_worst
      (x : Point.IncomeBandData) (l : list Point.IncomeBandData) :
  isNaN (Point.rel_abs_error x) = true ->
  exists s, statistics (x :: l) = Normal (Some s) /\
            bestBand s = x /\ worstBand s = x.
Proof.
  intros Hx. unfold statistics.
  cbn [length Nat.ltb Nat.leb reduce1 bind].
  eexists. split; [reflexivity|]. cbn [bestBand worstBand].
  assert (HN : Point.rel_abs_error x = NaN)
    by (destruct (Point.rel_abs_error x); try discriminate; reflexivity).
  split; induction l as [|y l IH]; cbn [fold_left]; auto.
  - unfold better at 2. rewrite HN.
    destruct (Point.rel_abs_error y); exact IH.
  - unfold worse at 2. rewrite HN.
    destruct (Point.rel_abs_error y); exact IH.
Qed.

Lemma NaN_first_is_best_and_worst_witness :
  exists s, statistics (nanPoint :: threeBands) = Normal (Some s) /\
            bestBand s = nanPoint /\ worstBand s = nanPoint.
Proof.
  apply (NaN_first_is_best_and_worst nanPoint threeBands). reflexivity.
Defined.
End BandStatsExtras.

(** ** The points and the ranking of the local areas *)

Section AreaExtras.
Import EpochSelector LocalAreas AreaStats JsExtra Samples.
Local Open Scope Z_scope.

Lemma fieldOr0_not_NaN (item : option TrainingLogData)
      (field : TrainingLogData -> number) :
  isNaN (fieldOr0 item field) = false.
Proof.
  destruct item as [r|]; [|reflexivity]. apply or_else_not_NaN.
Qed.

Lemma NoDup_map_filter (A B : Type) (f : A -> B) (p : A -> bool)
      (l : list A) :
  NoDup (List.map f l) -> NoDup (List.map f (filter p l)).
Proof.
  induction l as [|a l IH]; cbn [List.map filter]; [auto|].
  intros H. inversion H as [|? ? Hn Hd]; subst.
  destruct (p a); [|now apply IH].
  cbn [List.map]. constructor; [|now apply IH].
  intros Hin. apply Hn. apply in_map_iff in Hin.
  destruct Hin as [x [Hx Hin]]. apply filter_In in Hin.
  apply in_map_iff. exists x. tauto.
Qed.

Lemma labels_NoDup (analysisType : AnalysisType) :
  NoDup (List.map label (bandsOf analysisType)).
Proof.
  destruct analysisType; cbn [bandsOf ageBands employmentBands List.map label];
    repeat (constructor;
            [cbn [In]; intros H;
             repeat (destruct H as [H|H]; [discriminate H|]);
             exact H|]);
    constructor.
Qed.

(** X20.  The points of an area: at most one for each band of the
    catalogue, under the label of the band; each has a target above 0,
    and an estimate, an error and a relative error that are not [NaN],
    whatever the rows hold. *)
Theorem area_points_well_formed (latest : list TrainingLogData)
        (analysisType : AnalysisType) (c : jsstring) :
  let points := dataPoints (getLocalAreaData latest analysisType c) in
  NoDup (List.map Point.category points) /\
  (length points <= length (bandsOf analysisType))%nat /\
  forall p, In p points ->
    In (Point.category p) (List.map label (bandsOf analysisType)) /\
    JsNumber.gtb (Point.target p) zero = true /\
    isNaN (Point.estimate p) = false /\
    isNaN (Point.error p) = false /\
    isNaN (Point.rel_abs_error p) = false.
Proof.
  intros points. subst points. unfold getLocalAreaData. cbn [dataPoints].
  set (mk := fun band : BandDef => _).
  split; [|split].
  - apply NoDup_map_filter. rewrite map_map.
    change (NoDup (List.map label (bandsOf analysisType))).
    apply labels_NoDup.
  - etransitivity; [apply filter_length_le|]. now rewrite length_map.
  - intros p Hp. apply filter_In in Hp. destruct Hp as [Hp Hpos].
    apply in_map_iff in Hp. destruct Hp as [band [<- Hband]].
    split; [|split; [exact Hpos|]].
    + subst mk. cbn [Point.category]. now apply in_map.
    + subst mk. cbn [Point.estimate Point.error Point.rel_abs_error].
      repeat split; apply fieldOr0_not_NaN.
Qed.

Lemma points_rel_not_NaN latest analysisType c d :
  In d (dataPoints (getLocalAreaData latest analysisType c)) ->
  isNaN (Point.rel_abs_error d) = false.
Proof.
  unfold getLocalAreaData. cbn [dataPoints]. intros Hd.
  apply filter_In in Hd. destruct Hd as [Hd _].
  apply in_map_iff in Hd. destruct Hd as [band [<- _]].
  apply fieldOr0_not_NaN.
Qed.

(** X21.  The best and the worst band of an area are points of the area with
    the least and the greatest relative error, whatever the rows hold;
    the two [reduce] calls are never made on an area without points. *)
Theorem area_extremes (latest : list TrainingLogData)
        (analysisType : AnalysisType) (c : jsstring) :
  let area := getLocalAreaData latest analysisType c in
  match bestAndWorst area with
  | Normal (Some (b, w)) =>
      In b (dataPoints area) /\ In w (dataPoints area) /\
      forall d, In d (dataPoints area) ->
        JsNumber.leb (Point.rel_abs_error b) (Point.rel_abs_error d) = true /\
        JsNumber.leb (Point.rel_abs_error d) (Point.rel_abs_error w) = true
  | Normal None => dataPoints area = []
  | Throw _ => False
  end.
Proof.
  intros area.
  assert (Hnan : forall d, In d (dataPoints area) ->
                           isNaN (Point.rel_abs_error d) = false)
    by (intros d; apply points_rel_not_NaN).
  unfold bestAndWorst. destruct (dataPoints area) as [|x l]; [reflexivity|].
  cbn [length Nat.ltb Nat.leb reduce1 bind].
  assert (Hb := fold_least _ Point.rel_abs_error
                           (fun best d => better d best) l
                           (fun _ _ => eq_refl) x Hnan).
  assert (Hw := fold_greatest _ Point.rel_abs_error
                              (fun worst d => worse d worst) l
                              (fun _ _ => eq_refl) x Hnan).
  destruct Hb as [Hb1 Hb2], Hw as [Hw1 Hw2].
  split; [exact Hb1|]. split; [exact Hw1|]. intros d Hd. auto.
Qed.

Lemma add_nonneg (a b : number) :
  JsNumber.geb a zero = true -> JsNumber.geb b zero = true ->
  JsNumber.geb (add a b) zero = true.
Proof.
  destruct a as [| | |x], b as [| | |y]; cbn; try discriminate; auto.
  rewrite !Z.leb_le. intros Hx Hy.
  pose proof (round_ratio_sign (x + y)) as H.
  destruct (round_ratio (x + y) 1) as [| | |k]; cbn.
  - contradiction.
  - reflexivity.
  - lia.
  - apply Z.leb_le. lia.
Qed.

Lemma abs_nonneg (a : number) :
  isNaN a = false -> JsNumber.geb (abs a) zero = true.
Proof.
  destruct a as [| | |x]; cbn; try discriminate; auto.
  intros _. apply Z.leb_le. lia.
Qed.

(** X22.  The total error of an area is never [NaN] and never negative,
    whatever the rows hold: it is 0 for an area without points and
    may be [Infinity]. *)
Theorem area_total_error_nonnegative (latest : list TrainingLogData)
        (analysisType : AnalysisType) (c : jsstring) :
  JsNumber.geb (totalError (getLocalAreaData latest analysisType c)) zero
  = true.
Proof.
  unfold getLocalAreaData. cbn [totalError].
  set (points := filter _ _).
  assert (Hp : forall p, In p points -> isNaN (Point.error p) = false).
  { intros p Hp. subst points. apply filter_In in Hp.
    destruct Hp as [Hp _]. apply in_map_iff in Hp.
    destruct Hp as [band [<- _]]. apply fieldOr0_not_NaN. }
  assert (Hacc : JsNumber.geb zero zero = true) by reflexivity.
  revert Hacc. generalize zero at 1 3. clearbody points.
  induction points as [|p points IH]; intros acc Hacc; cbn [fold_left];
    [exact Hacc|].
  apply IH.
  - intros q Hq. apply Hp. now right.
  - apply add_nonneg; [exact Hacc|]. apply abs_nonneg, Hp. now left.
Qed.
End AreaExtras.

Section RankingExtras.
Import EpochSelector LocalAreas Samples.
Local Open Scope Z_scope.

Lemma StronglySorted_app (A : Type) (R : A -> A -> Prop) (l1 l2 : list A) :
  StronglySorted R (l1 ++ l2) ->
  StronglySorted R l1 /\ StronglySorted R l2 /\
  forall a b, In a l1 -> In b l2 -> R a b.
Proof.
  induction l1 as [|x l1 IH]; cbn [app]; intros Hs.
  - split; [constructor|]. split; [exact Hs|]. intros a b [].
  - inversion Hs as [|? ? Hs' Hall]; subst.
    destruct (IH Hs') as [H1 [H2 H3]].
    rewrite Forall_forall in Hall. split; [|split; [exact H2|]].
    + constructor; [exact H1|]. apply Forall_forall. intros y Hy.
      apply Hall, in_or_app. now left.
    + intros a b [<-|Ha] Hb; [|now apply H3].
      apply Hall, in_or_app. now right.
Qed.

Lemma StronglySorted_snoc (A : Type) (R : A -> A -> Prop)
      (l : list A) (x : A) :
  StronglySorted R l -> (forall a, In a l -> R a x) ->
  StronglySorted R (l ++ [x]).
Proof.
  induction 1 as [|y l Hl IH Hall]; intros Hx; cbn [app].
  - repeat constructor.
  - constructor.
    + apply IH. intros a Ha. apply Hx. now right.
    + apply Forall_app. split; [exact Hall|].
      constructor; [|constructor]. apply Hx. now left.
Qed.

Lemma StronglySorted_rev (A : Type) (R : A -> A -> Prop) (l : list A) :
  StronglySorted R l -> StronglySorted (fun a b => R b a) (rev l).
Proof.
  induction 1 as [|x l Hl IH Hall]; cbn [rev]; [constructor|].
  apply StronglySorted_snoc; [exact IH|].
  intros a Ha. apply in_rev in Ha. rewrite Forall_forall in Hall.
  now apply Hall.
Qed.

Lemma avgRelError_not_NaN latest analysisType c :
  Forall (fun r => rel_abs_error r <> PInf /\ rel_abs_error r <> NInf)
         latest ->
  isNaN (avgRelError (getLocalAreaData latest analysisType c)) = false.
Proof.
  intros Hfin.
  pose proof (dataPoints_length latest analysisType c) as Hlen.
  pose proof (getLocalAreaData_finite latest analysisType c Hfin) as Hpts.
  pose proof one_ulps_pos as HU.
  unfold getLocalAreaData in *. cbn [avgRelError dataPoints] in *.
  set (points := filter _ _) in *.
  destruct (Nat.ltb_spec 0 (length points)) as [Hpos|_]; [|reflexivity].
  unfold of_nat. rewrite of_Z_exact by lia.
  apply div_pos_not_NaN; [|nia].
  now apply sum_finite_not_NaN.
Qed.

(** X23.  When no latest row has an infinite relative error, the five best
    areas are in ascending order of mean relative error and no ranked
    area outside them has a smaller mean; the five worst are in
    descending order and no ranked area outside them has a greater
    mean. *)
Theorem overview_ranking (data : list TrainingLogData)
        (analysisType : AnalysisType) :
  Forall (fun r => rel_abs_error r <> PInf /\ rel_abs_error r <> NInf)
         (latestData data) ->
  let ov := overviewData data analysisType in
  StronglySorted
    (fun a b => JsNumber.leb (avgRelError a) (avgRelError b) = true)
    (best ov) /\
  StronglySorted
    (fun a b => JsNumber.leb (avgRelError b) (avgRelError a) = true)
    (worst ov) /\
  (forall a b, In a (best ov) -> In b (sorted data analysisType) ->
     In b (best ov) \/
     JsNumber.leb (avgRelError a) (avgRelError b) = true) /\
  (forall a b, In a (worst ov) -> In b (sorted data analysisType) ->
     In b (worst ov) \/
     JsNumber.leb (avgRelError b) (avgRelError a) = true).
Proof.
  intros Hfin ov. subst ov. unfold overviewData. cbn [best worst].
  assert (Hs : StronglySorted
                 (fun a b => JsNumber.leb (avgRelError a) (avgRelError b)
                             = true)
                 (sorted data analysisType)).
  { unfold sorted. apply (sort_sorted _ avgRelError).
    apply Forall_forall. intros a Ha. apply filter_In in Ha.
    destruct Ha as [Ha _]. unfold allAreas in Ha.
    apply in_map_iff in Ha. destruct Ha as [c [<- _]].
    now apply avgRelError_not_NaN. }
  set (s := sorted data analysisType) in *. clearbody s.
  unfold slice_first, slice_last.
  pose proof (firstn_skipn 5 s) as E5.
  pose proof (firstn_skipn (length s - 5) s) as El.
  assert (H5 := Hs). rewrite <- E5 in H5.
  apply StronglySorted_app in H5. destruct H5 as [Hb1 [_ Hb2]].
  assert (Hl := Hs). rewrite <- El in Hl.
  apply StronglySorted_app in Hl. destruct Hl as [_ [Hw1 Hw2]].
  split; [exact Hb1|]. split; [now apply StronglySorted_rev|]. split.
  - intros a b Ha Hb. rewrite <- E5 in Hb. apply in_app_or in Hb.
    destruct Hb as [Hb|Hb]; [now left|right]. now apply Hb2.
  - intros a b Ha Hb. apply in_rev in Ha.
    rewrite <- El in Hb. apply in_app_or in Hb.
    destruct Hb as [Hb|Hb]; [right|left].
    + now apply Hw2.
    + now apply in_rev in Hb.
Qed.

Lemma overview_ranking_witness :
  let ov := overviewData agePointsTable age in
  StronglySorted
    (fun a b => JsNumber.leb (avgRelError a) (avgRelError b) = true)
    (best ov) /\
  StronglySorted
    (fun a b => JsNumber.leb (avgRelError b) (avgRelError a) = true)
    (worst ov) /\
  (forall a b, In a (best ov) -> In b (sorted agePointsTable age) ->
     In b (best ov) \/
     JsNumber.leb (avgRelError a) (avgRelError b) = true) /\
  (forall a b, In a (worst ov) -> In b (sorted agePointsTable age) ->
     In b (worst ov) \/
     JsNumber.leb (avgRelError b) (avgRelError a) = true).
Proof.
  apply (overview_ranking agePointsTable age).
  assert (E : latestData agePointsTable = agePointsTable)
    by (vm_compute; reflexivity).
  rewrite E. unfold agePointsTable.
  repeat constructor; vm_compute; discriminate.
Defined.
End RankingExtras.

(** ** The metrics listed under the histogram *)

Section TopMetricsExtras.
Import EpochSelector Charts.

(** The list headed "Top Metrics by Count" is not ordered by count: it
    starts with the metric of the first latest row, whatever the number
    of its rows, and goes on with at most four more metrics in the
    order of their first appearance. *)
Theorem top_metrics_by_first_appearance
        (r : TrainingLogData) (rest : list TrainingLogData) :
  exists n tl,
    topMetrics (r :: rest) = (metric r, S n) :: tl /\
    (length tl <= 4)%nat /\
    List.map fst tl =
      firstn 4 (filter (fun m => negb (JsString.eqb (metric r) m))
                       (metrics rest)).
Proof.
  unfold topMetrics, metrics, slice_first.
  cbn [List.map uniq]. rewrite firstn_cons. cbn [List.map filter].
  rewrite jsstring_eqb_refl. cbn [length].
  eexists. eexists. split; [reflexivity|]. split.
  - rewrite length_map, length_firstn. lia.
  - rewrite map_map. cbn [fst]. apply map_id.
Qed.
End TopMetricsExtras.

(** ** The quality score without latest rows *)

Section ScoreExtras.
Import EpochSelector Quality MetricsSummary Samples.
Local Open Scope Z_scope.

Lemma round_mag_nonneg (a b k : Z) :
  0 <= a -> 0 < b -> round_mag a b = Some k -> 0 <= k.
Proof.
  intros Ha Hb. unfold round_mag.
  set (e := if a / b <? 2 ^ 53 then 0 else Z.log2 (a / b) - 52).
  assert (He : 0 <= e).
  { subst e. destruct (Z.ltb_spec (a / b) (2 ^ 53)) as [H|H]; [lia|].
    assert (53 <= Z.log2 (a / b)) by (apply Z.log2_le_pow2; lia). lia. }
  assert (Hp : 0 < 2 ^ e) by (apply Z.pow_pos_nonneg; lia).
  assert (Hm : 0 <= rne_div a (b * 2 ^ e)).
  { transitivity (a / (b * 2 ^ e)).
    - apply Z.div_pos; nia.
    - apply rne_div_bounds; nia. }
  destruct (_ <? overflow_ulps); [|discriminate].
  intros [= <-]. nia.
Qed.

Lemma round_ratio_nonneg (n d : Z) :
  0 <= n -> 0 < d -> JsNumber.geb (round_ratio n d) zero = true.
Proof.
  intros Hn Hd. unfold round_ratio.
  destruct (Z.eqb_spec n 0); [reflexivity|].
  destruct (Z.ltb_spec 0 n); [|lia].
  destruct (round_mag n d) as [k|] eqn:E; [|reflexivity].
  apply round_mag_nonneg in E; [|lia|lia]. cbn. now apply Z.leb_le.
Qed.

Lemma geb_zero_not_NaN (a : number) :
  JsNumber.geb a zero = true -> isNaN a = false.
Proof. destruct a; cbn; auto; discriminate. Qed.

(** [(e * 100 + g * 75) / n] for array lengths [e], [g] and [n]:
    [NaN] exactly when [n] is 0. *)
Lemma score_NaN (e g n : nat) :
  (e <= n)%nat -> (g <= n)%nat -> Z.of_nat n < 2 ^ 53 ->
  isNaN (div (add (mul (of_nat e) (of_Z 100)) (mul (of_nat g) (of_Z 75)))
             (of_nat n)) = Nat.eqb n 0.
Proof.
  intros He Hg Hn. pose proof one_ulps_pos as HU.
  unfold of_nat. rewrite !of_Z_exact by lia.
  destruct n as [|n].
  - replace e with 0%nat by lia. replace g with 0%nat by lia. reflexivity.
  - cbn [Nat.eqb]. apply div_pos_not_NaN; [|lia].
    apply geb_zero_not_NaN, add_nonneg; cbn [mul];
      apply round_ratio_nonneg; nia.
Qed.

(** X8.  The quality score of the summary is [NaN] exactly when there is no
    latest row: the score is a quotient by the number of latest rows,
    and its numerator is then 0 as well. *)
Theorem quality_score_NaN_iff_no_latest_rows (data : list TrainingLogData) :
  data <> [] ->
  Z.of_nat (length data) < 2 ^ 53 ->
  exists s, summary data = Some s /\
            (isNaN (qualityScore s) = true <-> latestData data = []).
Proof.
  intros Hne Hlen. destruct data as [|r0 data0]; [congruence|].
  set (data := r0 :: data0) in *.
  unfold summary, data at 1. cbv iota zeta.
  eexists. split; [reflexivity|]. cbn [qualityScore].
  assert (Hl : (length (latestData data) <= length data)%nat).
  { unfold latestData, filteredData.
    etransitivity; [apply filter_length_le|]. apply filter_length_le. }
  rewrite score_NaN; try apply filter_length_le; [|lia].
  destruct (latestData data); cbn [length Nat.eqb]; split; congruence.
Qed.

Lemma quality_score_NaN_iff_no_latest_rows_witness :
  exists s, summary threeEpochs = Some s /\
            (isNaN (qualityScore s) = true <-> latestData threeEpochs = []).
Proof.
  apply (quality_score_NaN_iff_no_latest_rows threeEpochs).
  - discriminate.
  - vm_compute. reflexivity.
Defined.
End ScoreExtras.
